(** * Verification of the Fluke 1620A data logger ([data_logging.py])

    A shallow embedding of the acquisition, parsing and persistence pipeline
    of [data_logging.py], and the proofs of its specification.

    - [PyStr]: the [str] methods the parser uses ([splitlines], [split],
      [strip], [rstrip]).
    - [PyFloat]: [float(str)] on binary64, as [SpecFloat.spec_float].
    - [PyDatetime]: [datetime], [date], [datetime.strptime] for the format
      ["%d/%m/%Y %H:%M:%S"].
    - [Logger]: the program itself: [process_data], [write_to_database],
      [send_command], [read_data], [main], over an explicit world (database,
      file system, file objects, serial port, console) and an environment
      that decides the outcome of every external call.

    Text is [string]: the character of code [n] stands for the code point
    U+00[n], so the model covers the replies whose decoded text lies in
    U+0000..U+00FF. *)

From Stdlib Require Import ZArith QArith String Ascii List Lia Bool SpecFloat.
From stdpp Require Import gmap strings list.

Open Scope string_scope.
Open Scope list_scope.

(** ** [str] methods *)

Module PyStr.

(** [str.isspace] on one character: the white space of U+0000..U+00FF. *)
Definition isspace (c : ascii) : bool :=
  let n := N_of_ascii c in
  (((9 <=? n) && (n <=? 13)) || ((28 <=? n) && (n <=? 32))
   || (n =? 133) || (n =? 160))%N.

(** The line boundaries of [str.splitlines] in U+0000..U+00FF: LF, VT, FF,
    CR, FS, GS, RS and NEL. *)
Definition is_line_boundary (c : ascii) : bool :=
  let n := N_of_ascii c in
  (((10 <=? n) && (n <=? 13)) || ((28 <=? n) && (n <=? 30)) || (n =? 133))%N.

Definition CR : ascii := ascii_of_N 13.
Definition LF : ascii := ascii_of_N 10.

Fixpoint lstrip_by (p : ascii -> bool) (s : string) : string :=
  match s with
  | EmptyString => EmptyString
  | String c s' => if p c then lstrip_by p s' else s
  end.

Fixpoint rstrip_by (p : ascii -> bool) (s : string) : string :=
  match s with
  | EmptyString => EmptyString
  | String c s' =>
      match rstrip_by p s' with
      | EmptyString => if p c then EmptyString else String c EmptyString
      | r => String c r
      end
  end.

(** [s.strip()] *)
Definition strip (s : string) : string :=
  rstrip_by isspace (lstrip_by isspace s).

Fixpoint mem_char (c : ascii) (chars : string) : bool :=
  match chars with
  | EmptyString => false
  | String d chars' => Ascii.eqb c d || mem_char c chars'
  end.

(** [s.rstrip(chars)]: every trailing character that occurs in [chars] goes. *)
Definition rstrip (chars : string) (s : string) : string :=
  rstrip_by (fun c => mem_char c chars) s.

(** [c * n]: [n] copies of the character [c]. *)
Fixpoint repeat_char (c : ascii) (n : nat) : string :=
  match n with
  | O => EmptyString
  | S n' => String c (repeat_char c n')
  end.

(** [s.split(sep)] for a separator of one character: never the empty list. *)
Fixpoint split (sep : ascii) (s : string) : list string :=
  match s with
  | EmptyString => [EmptyString]
  | String c s' =>
      if Ascii.eqb c sep then EmptyString :: split sep s'
      else match split sep s' with
           | f :: fs => String c f :: fs
           | [] => [String c EmptyString]
           end
  end.

(** The text between line boundaries, the empty text after the last boundary
    included; CR LF is one boundary. *)
Fixpoint line_segments (s : string) : list string :=
  match s with
  | EmptyString => [EmptyString]
  | String c s' =>
      if is_line_boundary c then
        EmptyString ::
          (if Ascii.eqb c CR then
             match s' with
             | String d s'' => if Ascii.eqb d LF then line_segments s''
                               else line_segments s'
             | EmptyString => line_segments s'
             end
           else line_segments s')
      else match line_segments s' with
           | f :: fs => String c f :: fs
           | [] => [String c EmptyString]
           end
  end.

Fixpoint drop_last_empty (l : list string) : list string :=
  match l with
  | [] => []
  | [EmptyString] => []
  | x :: l' => x :: drop_last_empty l'
  end.

(** [s.splitlines()]: no empty line after a final boundary, none for the
    empty text. *)
Definition splitlines (s : string) : list string :=
  drop_last_empty (line_segments s).

End PyStr.

(** ** [float(str)] *)

Module PyFloat.

Local Open Scope Z_scope.

(** A Python [float] is an IEEE 754 binary64 number. *)
Definition float : Type := spec_float.
Definition prec : Z := 53.
Definition emax : Z := 1024.

Definition is_digit (c : ascii) : bool :=
  let n := N_of_ascii c in ((48 <=? n) && (n <=? 57))%N.

Definition digit_value (c : ascii) : Z := Z.of_N (N_of_ascii c) - 48.

Definition lower (c : ascii) : ascii :=
  let n := N_of_ascii c in
  if ((65 <=? n) && (n <=? 90))%N then ascii_of_N (n + 32) else c.

(** [digit (["_"] digit)*] after its first digit: the digits read and the
    text left. *)
Fixpoint digitpart_rest (s : string) : list Z * string :=
  match s with
  | EmptyString => ([], EmptyString)
  | String c s' =>
      if is_digit c then
        let '(ds, r) := digitpart_rest s' in (digit_value c :: ds, r)
      else if Ascii.eqb c "_" then
        match s' with
        | String d s'' =>
            if is_digit d then
              let '(ds, r) := digitpart_rest s'' in (digit_value d :: ds, r)
            else ([], s)
        | EmptyString => ([], s)
        end
      else ([], s)
  end.

(** [digitpart ::= digit (["_"] digit)*] *)
Definition digitpart (s : string) : option (list Z * string) :=
  match s with
  | String c s' =>
      if is_digit c then
        let '(ds, r) := digitpart_rest s' in Some (digit_value c :: ds, r)
      else None
  | EmptyString => None
  end.

Definition digits_value (ds : list Z) : Z :=
  fold_left (fun acc d => 10 * acc + d) ds 0.

(** [sign ::= "+" | "-"], optional: whether it is "-", and the text left. *)
Definition sign (s : string) : bool * string :=
  match s with
  | String c s' =>
      if Ascii.eqb c "-" then (true, s')
      else if Ascii.eqb c "+" then (false, s')
      else (false, s)
  | EmptyString => (false, s)
  end.

(** [number ::= [digitpart] "." digitpart | digitpart ["."]]: the digits
    before the point, the digits after it, the text left. *)
Definition number (s : string) : option (list Z * list Z * string) :=
  match digitpart s with
  | Some (ip, r) =>
      match r with
      | String c r' =>
          if Ascii.eqb c "." then
            match digitpart r' with
            | Some (fp, r'') => Some (ip, fp, r'')
            | None => Some (ip, [], r')
            end
          else Some (ip, [], r)
      | EmptyString => Some (ip, [], r)
      end
  | None =>
      match s with
      | String c r' =>
          if Ascii.eqb c "." then
            match digitpart r' with
            | Some (fp, r'') => Some ([], fp, r'')
            | None => None
            end
          else None
      | EmptyString => None
      end
  end.

(** [exponent ::= ("e" | "E") [sign] digitpart] *)
Definition exponent (s : string) : option (Z * string) :=
  match s with
  | String c r =>
      if Ascii.eqb (lower c) "e" then
        let '(neg, r1) := sign r in
        match digitpart r1 with
        | Some (ds, r2) =>
            Some (if neg then - digits_value ds else digits_value ds, r2)
        | None => None
        end
      else None
  | EmptyString => None
  end.

(** Whether [s] starts with [pre], letter case apart: the text after it. *)
Fixpoint skip_nocase (pre s : string) : option string :=
  match pre, s with
  | EmptyString, _ => Some s
  | String p pre', String c s' =>
      if Ascii.eqb (lower c) p then skip_nocase pre' s' else None
  | String _ _, EmptyString => None
  end.

(** ["inf"], ["infinity"] or ["nan"], letter case apart. *)
Definition inf_or_nan (neg : bool) (s : string) : option (float * string) :=
  match skip_nocase "inf" s with
  | Some r =>
      match skip_nocase "inity" r with
      | Some r' => Some (S754_infinity neg, r')
      | None => Some (S754_infinity neg, r)
      end
  | None =>
      match skip_nocase "nan" s with
      | Some r => Some (S754_nan, r)
      | None => None
      end
  end.

(** The binary64 number nearest to [m * 10 ^ e10] (ties to even), [m >= 0];
    the conversion of [float()] is correctly rounded. *)
Definition of_decimal (neg : bool) (m e10 : Z) : float :=
  match m with
  | Zpos p =>
      if 0 <=? e10 then
        binary_normalize prec emax (cond_Zopp neg (m * 10 ^ e10)) 0 neg
      else
        SFdiv prec emax (S754_finite neg p 0)
              (S754_finite false (Z.to_pos (10 ^ (- e10))) 0)
  | _ => S754_zero neg
  end.

(** [float(s)]: [None] stands for [ValueError].  The text is stripped of
    white space, then read as
    [[sign] (floatnumber | infinity | nan)] with
    [floatnumber ::= number [exponent]]; nothing may be left. *)
Definition float_of_string (s : string) : option float :=
  let '(neg, r) := sign (PyStr.strip s) in
  match inf_or_nan neg r with
  | Some (v, rest) =>
      match rest with EmptyString => Some v | _ => None end
  | None =>
      match number r with
      | Some (ip, fp, r1) =>
          let '(e, r2) :=
            match exponent r1 with
            | Some (e, r2) => (e, r2)
            | None => (0, r1)
            end in
          match r2 with
          | EmptyString =>
              Some (of_decimal neg (digits_value (ip ++ fp))
                               (e - Z.of_nat (length fp)))
          | _ => None
          end
      | None => None
      end
  end.

(** The rational a finite binary64 number stands for. *)
Definition to_Q (x : float) : option Q :=
  match x with
  | S754_zero _ => Some 0%Q
  | S754_finite s m e =>
      let n := cond_Zopp s (Zpos m) in
      Some (if 0 <=? e then inject_Z (n * 2 ^ e)
            else Qmake n (Z.to_pos (2 ^ (- e))))
  | _ => None
  end.

End PyFloat.

(** ** [datetime] *)

Module PyDatetime.

Local Open Scope Z_scope.

(** [datetime.date] *)
Record date : Type := Date { d_year : Z; d_month : Z; d_day : Z }.

(** [datetime.datetime], naive and with no microseconds: what
    [strptime] returns for a format without [%f] and [%z]. *)
Record datetime : Type := Datetime {
  year : Z; month : Z; day : Z; hour : Z; minute : Z; second : Z
}.

#[global] Instance date_eq_dec : EqDecision date.
Proof. solve_decision. Defined.

#[global] Instance datetime_eq_dec : EqDecision datetime.
Proof. solve_decision. Defined.

Definition is_leap (y : Z) : bool :=
  (y mod 4 =? 0) && (negb (y mod 100 =? 0) || (y mod 400 =? 0)).

Definition days_in_month (y m : Z) : Z :=
  match m with
  | 1 => 31 | 2 => if is_leap y then 29 else 28 | 3 => 31 | 4 => 30
  | 5 => 31 | 6 => 30 | 7 => 31 | 8 => 31 | 9 => 30 | 10 => 31
  | 11 => 30 | 12 => 31
  | _ => 0
  end.

(** Days before January 1st of year [y] (the proleptic Gregorian calendar). *)
Definition days_before_year (y : Z) : Z :=
  let y := y - 1 in y * 365 + y / 4 - y / 100 + y / 400.

(** Days of year [y] before the first day of month [m]. *)
Definition days_before_month (y m : Z) : Z :=
  match m with
  | 1 => 0 | 2 => 31 | 3 => 59 | 4 => 90 | 5 => 120 | 6 => 151 | 7 => 181
  | 8 => 212 | 9 => 243 | 10 => 273 | 11 => 304 | 12 => 334
  | _ => 0
  end + (if (2 <? m) && is_leap y then 1 else 0).

(** [date.toordinal()]: 0001-01-01 is day 1. *)
Definition ymd2ord (y m d : Z) : Z :=
  days_before_year y + days_before_month y m + d.

Definition valid_date (y m d : Z) : bool :=
  (1 <=? y) && (y <=? 9999) && (1 <=? m) && (m <=? 12)
  && (1 <=? d) && (d <=? days_in_month y m).

Definition valid_time (hh mi ss : Z) : bool :=
  (0 <=? hh) && (hh <=? 23) && (0 <=? mi) && (mi <=? 59)
  && (0 <=? ss) && (ss <=? 59).

Definition valid_datetime (t : datetime) : bool :=
  valid_date (year t) (month t) (day t)
  && valid_time (hour t) (minute t) (second t).

(** [datetime(y, m, d, hh, mi, ss)]: [None] stands for [ValueError]. *)
Definition datetime_new (y m d hh mi ss : Z) : option datetime :=
  if valid_date y m d && valid_time hh mi ss
  then Some (Datetime y m d hh mi ss) else None.

(** [dt.date()] *)
Definition date_of (t : datetime) : date :=
  Date (year t) (month t) (day t).

(** [t1 < t2] on naive datetimes: the fields compared in order. *)
Definition datetime_ltb (t1 t2 : datetime) : bool :=
  match year t1 ?= year t2 with Lt => true | Gt => false | Eq =>
  match month t1 ?= month t2 with Lt => true | Gt => false | Eq =>
  match day t1 ?= day t2 with Lt => true | Gt => false | Eq =>
  match hour t1 ?= hour t2 with Lt => true | Gt => false | Eq =>
  match minute t1 ?= minute t2 with Lt => true | Gt => false | Eq =>
  second t1 <? second t2
  end end end end end.

(** *** [strptime]

    [_strptime] turns the format into a regular expression, takes the
    first match of it at the start of the text (alternatives in the order
    written, backtracking), and raises [ValueError] when there is none or
    when text remains after it.  A matcher here yields its matches in that
    order, each with the number read and the text left. *)

Definition matcher (A : Type) : Type := string -> list (A * string).

Definition m_ret {A} (a : A) : matcher A := fun s => [(a, s)].

Definition m_bind {A B} (p : matcher A) (f : A -> matcher B) : matcher B :=
  fun s => flat_map (fun '(a, r) => f a r) (p s).

Definition m_alt {A} (p q : matcher A) : matcher A := fun s => p s ++ q s.

(** One character that satisfies [ok]; a digit yields its value. *)
Definition m_char (ok : ascii -> bool) : matcher Z :=
  fun s =>
    match s with
    | String c r => if ok c then [(PyFloat.digit_value c, r)] else []
    | EmptyString => []
    end.

Definition m_lit (c : ascii) : matcher Z := m_char (Ascii.eqb c).

(** [[lo-hi]] over digits *)
Definition m_range (lo hi : Z) : matcher Z :=
  m_char (fun c => PyFloat.is_digit c
                   && (lo <=? PyFloat.digit_value c)
                   && (PyFloat.digit_value c <=? hi)).

(** [\d] *)
Definition m_digit : matcher Z := m_range 0 9.

(** Two digits read as a number. *)
Definition m_two (p q : matcher Z) : matcher Z :=
  m_bind p (fun a => m_bind q (fun b => m_ret (10 * a + b))).

(** [\s+], greedy: the longest run first, then shorter ones. *)
Fixpoint m_spaces_rest (s : string) : list (Z * string) :=
  match s with
  | String c r => if PyStr.isspace c then m_spaces_rest r ++ [(0, s)] else [(0, s)]
  | EmptyString => [(0, s)]
  end.

Definition m_spaces : matcher Z :=
  fun s =>
    match s with
    | String c r => if PyStr.isspace c then m_spaces_rest r else []
    | EmptyString => []
    end.

(** [%d]: [3[0-1]|[1-2]\d|0[1-9]|[1-9]| [1-9]] *)
Definition m_d : matcher Z :=
  m_alt (m_two (m_range 3 3) (m_range 0 1))
 (m_alt (m_two (m_range 1 2) m_digit)
 (m_alt (m_two (m_range 0 0) (m_range 1 9))
 (m_alt (m_range 1 9)
        (m_bind (m_lit " ") (fun _ => m_range 1 9))))).

(** [%m]: [1[0-2]|0[1-9]|[1-9]] *)
Definition m_m : matcher Z :=
  m_alt (m_two (m_range 1 1) (m_range 0 2))
 (m_alt (m_two (m_range 0 0) (m_range 1 9))
        (m_range 1 9)).

(** [%Y]: [\d\d\d\d] *)
Definition m_Y : matcher Z :=
  m_bind (m_two m_digit m_digit) (fun a =>
  m_bind (m_two m_digit m_digit) (fun b => m_ret (100 * a + b))).

(** [%H]: [2[0-3]|[0-1]\d|\d] *)
Definition m_H : matcher Z :=
  m_alt (m_two (m_range 2 2) (m_range 0 3))
 (m_alt (m_two (m_range 0 1) m_digit)
        m_digit).

(** [%M]: [[0-5]\d|\d] *)
Definition m_M : matcher Z :=
  m_alt (m_two (m_range 0 5) m_digit) m_digit.

(** [%S]: [6[0-1]|[0-5]\d|\d] *)
Definition m_S : matcher Z :=
  m_alt (m_two (m_range 6 6) (m_range 0 1))
 (m_alt (m_two (m_range 0 5) m_digit)
        m_digit).

(** The expression of the format ["%d/%m/%Y %H:%M:%S"]. *)
Definition m_format : matcher (Z * Z * Z * Z * Z * Z) :=
  m_bind m_d (fun d =>
  m_bind (m_lit "/") (fun _ =>
  m_bind m_m (fun m =>
  m_bind (m_lit "/") (fun _ =>
  m_bind m_Y (fun y =>
  m_bind m_spaces (fun _ =>
  m_bind m_H (fun hh =>
  m_bind (m_lit ":") (fun _ =>
  m_bind m_M (fun mi =>
  m_bind (m_lit ":") (fun _ =>
  m_bind m_S (fun ss => m_ret (y, m, d, hh, mi, ss)))))))))))).

(** [datetime.strptime(s, "%d/%m/%Y %H:%M:%S")]: [None] stands for
    [ValueError] (no match, unconverted data, or fields that are no date
    and time). *)
Definition strptime (s : string) : option datetime :=
  match m_format s with
  | ((y, m, d, hh, mi, ss), EmptyString) :: _ => datetime_new y m d hh mi ss
  | _ => None
  end.

Definition digit_char (n : Z) : ascii := ascii_of_N (Z.to_N (48 + n mod 10)).

Definition pad2 (n : Z) : string :=
  String (digit_char (n / 10)) (String (digit_char n) EmptyString).

Definition pad4 (n : Z) : string :=
  String (digit_char (n / 1000)) (String (digit_char (n / 100)) (pad2 n)).

(** [str(d)], that is [d.isoformat()]: YYYY-MM-DD. *)
Definition isoformat (d : date) : string :=
  pad4 (d_year d) +:+ "-" +:+ pad2 (d_month d) +:+ "-" +:+ pad2 (d_day d).

End PyDatetime.

(** ** The logger *)

Module Logger.

Import PyDatetime.

(** *** Data *)

(** One parsed instrument record: the values [process_data] binds for a
    line and hands to both sinks. *)
Record Reading : Type := mkReading {
  timestamp : datetime;
  mjd : Q;
  temperature_s1 : PyFloat.float;
  humidity_s1 : PyFloat.float;
  temperature_s2 : PyFloat.float;
  humidity_s2 : PyFloat.float
}.

(** A cell of a CSV row, before [csv.writer] formats it. *)
Inductive cell : Type :=
| CStr (s : string)
| CDate (d : date)
| CDatetime (t : datetime)
| CMjd (q : Q)
| CFloat (x : PyFloat.float).

Definition row : Type := list cell.

Definition header : row :=
  [CStr "date"; CStr "timestamp"; CStr "mjd"; CStr "temperature_s1";
   CStr "humidity_s1"; CStr "temperature_s2"; CStr "humidity_s2"].

(** The row [process_data] writes for a reading:
    [[date_str, timestamp, mjd, temperature_s1, humidity_s1,
      temperature_s2, humidity_s2]]. *)
Definition data_row (r : Reading) : row :=
  [CDate (date_of (timestamp r)); CDatetime (timestamp r); CMjd (mjd r);
   CFloat (temperature_s1 r); CFloat (humidity_s1 r);
   CFloat (temperature_s2 r); CFloat (humidity_s2 r)].

(** The exceptions the program meets.  [OSError] stands for an [OSError]
    that is neither a [PermissionError] nor a [SerialException]. *)
Inductive exn : Type :=
| SerialException
| PermissionError
| OSError
| ValueError
| Psycopg2Error
| KeyboardInterrupt.

#[global] Instance exn_eq_dec : EqDecision exn.
Proof. solve_decision. Defined.

(** What the program prints. *)
Inductive message : Type :=
| MsgConnected
| MsgConnectError
| MsgTableReady
| MsgTableError
| MsgCommand (cmd response : string)
| MsgProcessingLine (line : string)
| MsgTimestampError (timestamp_str : string)
| MsgInserted
| MsgInsertError
| MsgAppended
| MsgFloatError
| MsgUnexpectedFormat (line : string)
| MsgSerialOpen
| MsgDataResponse (data_response : string)
| MsgSerialError
| MsgPermissionError
| MsgDbClosed.

Inductive open_mode : Type := ModeW | ModeA.

(** What the program does to the outside, in order.  [EvFileClose] and
    [EvDbClose] record a release that took place: closing a closed file or
    connection is no event. *)
Inductive event : Type :=
| EvPrint (m : message)
| EvDbConnect
| EvDbCommit (r : Reading)
| EvDbRollback
| EvDbClose
| EvFileOpen (h : nat) (path : string) (mode : open_mode)
| EvFileWrite (h : nat) (r : row)
| EvFileClose (h : nat)
| EvSerialOpen
| EvSerialWrite (data : string)
| EvSerialClose
| EvSleep (seconds : Z).

#[global] Instance open_mode_eq_dec : EqDecision open_mode.
Proof. solve_decision. Defined.

(** The external calls that may raise.  Every other call of the program
    ([print], [close], [rollback], [datetime.now], [os.path.exists],
    [csv.writer]) returns. *)
Inductive call : Type :=
| CallConnect      (* psycopg2.connect(...) *)
| CallCreateTable  (* cursor, CREATE TABLE IF NOT EXISTS, commit *)
| CallOpen         (* open(path, mode) *)
| CallSerial       (* serial.Serial(...) *)
| CallCommand      (* ser.write, time.sleep(1), ser.read_all().decode() *)
| CallInsert       (* cursor, INSERT, commit *)
| CallWriterow     (* csv_writer.writerow(row) *)
| CallSleep        (* time.sleep(10) *)
| CallNow.         (* datetime.now(): counted, never raises *)

#[global] Instance call_eq_dec : EqDecision call.
Proof. solve_decision. Defined.

Definition call_eqb (c1 c2 : call) : bool :=
  match c1, c2 with
  | CallConnect, CallConnect | CallCreateTable, CallCreateTable
  | CallOpen, CallOpen | CallSerial, CallSerial
  | CallCommand, CallCommand | CallInsert, CallInsert
  | CallWriterow, CallWriterow | CallSleep, CallSleep
  | CallNow, CallNow => true
  | _, _ => false
  end.

(** The environment of one run: for the [n]-th call of each kind, the
    exception it raises if any; the date the [n]-th [datetime.now()] shows;
    the text the instrument sends back to the [n]-th command. *)
Record Env : Type := mkEnv {
  fault : call -> nat -> option exn;
  clock : nat -> date;
  reply : nat -> string
}.

(** A file object: the path it was opened on, and whether it is closed. *)
Record file_obj : Type := FileObj { fo_path : string; fo_closed : bool }.

Inductive db_state : Type := DbNone | DbOpen | DbClosed.

(** The local variables of [main] that the loop rebinds; a file object is
    named by its index in [w_fobjs], and a [csv.writer] by the file object
    it writes to. *)
Record Frame : Type := mkFrame {
  today_date : date;
  csvfile : nat;
  csv_writer : nat
}.

Record World : Type := mkWorld {
  w_db : db_state;                  (* the connection *)
  w_sensor_data : list Reading;     (* committed rows of sensor_data *)
  w_fs : gmap string (list row);    (* the CSV files, by path *)
  w_fobjs : list file_obj;          (* the file objects created so far *)
  w_serial : bool;                  (* the port is open *)
  w_frame : Frame;
  w_trace : list event;
  w_calls : call -> nat             (* calls made so far, by kind *)
}.

Definition with_db (x : db_state) (w : World) : World :=
  mkWorld x (w_sensor_data w) (w_fs w) (w_fobjs w) (w_serial w) (w_frame w)
          (w_trace w) (w_calls w).
Definition with_sensor_data (x : list Reading) (w : World) : World :=
  mkWorld (w_db w) x (w_fs w) (w_fobjs w) (w_serial w) (w_frame w)
          (w_trace w) (w_calls w).
Definition with_fs (x : gmap string (list row)) (w : World) : World :=
  mkWorld (w_db w) (w_sensor_data w) x (w_fobjs w) (w_serial w) (w_frame w)
          (w_trace w) (w_calls w).
Definition with_fobjs (x : list file_obj) (w : World) : World :=
  mkWorld (w_db w) (w_sensor_data w) (w_fs w) x (w_serial w) (w_frame w)
          (w_trace w) (w_calls w).
Definition with_serial_state (x : bool) (w : World) : World :=
  mkWorld (w_db w) (w_sensor_data w) (w_fs w) (w_fobjs w) x (w_frame w)
          (w_trace w) (w_calls w).
Definition with_frame (x : Frame) (w : World) : World :=
  mkWorld (w_db w) (w_sensor_data w) (w_fs w) (w_fobjs w) (w_serial w) x
          (w_trace w) (w_calls w).
Definition with_trace (x : list event) (w : World) : World :=
  mkWorld (w_db w) (w_sensor_data w) (w_fs w) (w_fobjs w) (w_serial w)
          (w_frame w) x (w_calls w).
Definition with_calls (x : call -> nat) (w : World) : World :=
  mkWorld (w_db w) (w_sensor_data w) (w_fs w) (w_fobjs w) (w_serial w)
          (w_frame w) (w_trace w) x.

(** The world [main] starts in: no connection, the files [fs], nothing
    open, nothing printed. *)
Definition initial_world (fs : gmap string (list row)) : World :=
  mkWorld DbNone [] fs [] false (mkFrame (Date 0 0 0) 0 0) [] (fun _ => 0).

(** *** Programs

    A program takes a world to an outcome and a world.  [Pending] is the
    outcome of a [while True] loop that was run for its given number of
    rounds and has not left: the program is still running, and no handler
    or [finally] clause has been run for it. *)
Inductive outcome (A : Type) : Type :=
| Returned (a : A)
| Raised (e : exn)
| Pending.

Arguments Returned {A} a.
Arguments Raised {A} e.
Arguments Pending {A}.

Definition M (A : Type) : Type := World -> outcome A * World.

Definition ret {A} (a : A) : M A := fun w => (Returned a, w).

Definition bind {A B} (m : M A) (k : A -> M B) : M B :=
  fun w =>
    match m w with
    | (Returned a, w') => k a w'
    | (Raised e, w') => (Raised e, w')
    | (Pending, w') => (Pending, w')
    end.

Definition raise {A} (e : exn) : M A := fun w => (Raised e, w).

Definition gets {A} (f : World -> A) : M A := fun w => (Returned (f w), w).

Definition modify (f : World -> World) : M unit :=
  fun w => (Returned tt, f w).

(** [try: body except <the exceptions of handles>: handler] *)
Definition try_except {A} (body : M A) (handles : exn -> bool)
    (handler : exn -> M A) : M A :=
  fun w =>
    match body w with
    | (Raised e, w') => if handles e then handler e w' else (Raised e, w')
    | r => r
    end.

(** [try: body finally: final] *)
Definition try_finally {A} (body : M A) (final : M unit) : M A :=
  fun w =>
    match body w with
    | (Pending, w') => (Pending, w')
    | (r, w') =>
        match final w' with
        | (Returned _, w'') => (r, w'')
        | (Raised e, w'') => (Raised e, w'')
        | (Pending, w'') => (Pending, w'')
        end
    end.

(** [while True: body], for [fuel] rounds. *)
Fixpoint while_true (fuel : nat) (body : M unit) : M unit :=
  match fuel with
  | O => fun w => (Pending, w)
  | S n => bind body (fun _ => while_true n body)
  end.

(** [for x in l: body x] *)
Fixpoint for_each {A} (l : list A) (body : A -> M unit) : M unit :=
  match l with
  | [] => ret tt
  | x :: l' => bind (body x) (fun _ => for_each l' body)
  end.

(** *** Pure parts *)

(** Seconds from 1858-11-17T00:00:00 to [dt], every day 86400 seconds. *)
Definition mjd_seconds (dt : datetime) : Z :=
  86400 * (ymd2ord (year dt) (month dt) (day dt) - 678576)
  + (3600 * hour dt + 60 * minute dt + second dt).

(** Modelled from the spec: the conversion itself,
    [astropy.time.Time(dt, format='datetime').mjd], is code of the astropy
    library and not of this repository; [datetime_to_mjd] only calls it.
    The Modified Julian Date is the continuous day count of the calendar
    timestamp (day 0 is 1858-11-17T00:00:00), here as the exact rational:
    whole days from the proleptic Gregorian ordinal, plus the seconds of
    the day over 86400.  The rounding of that number to binary64 and UTC
    leap seconds are left out. *)
Definition datetime_to_mjd (dt : datetime) : Q :=
  Qmake (mjd_seconds dt) 86400.

(** [f'sensor_dataset_{today_date}.csv'] *)
Definition csv_path (today : date) : string :=
  "sensor_dataset_" +:+ isoformat today +:+ ".csv".

(** ["\r\n"] *)
Definition crlf : string := String PyStr.CR (String PyStr.LF EmptyString).

(** [parts[i]] where the program has tested [len(parts) >= 8] and [i < 8]. *)
Definition item (parts : list string) (i : nat) : string :=
  nth i parts EmptyString.

(** The text of a numeric field as [process_data] hands it to [float]:
    [parts[i].strip().rstrip(unit)]. *)
Definition numeric_text (unit : string) (field : string) : string :=
  PyStr.rstrip unit (PyStr.strip field).

(** The reading that the loop body of [process_data] derives from a line
    (the tests and conversions it makes before it calls the sinks), or
    [None] when it skips the line. *)
Definition parse_line (line : string) : option Reading :=
  let parts := PyStr.split "," line in
  if (8 <=? length parts)%nat then
    match strptime (PyStr.strip (item parts 0)) with
    | None => None
    | Some timestamp =>
        match PyFloat.float_of_string (numeric_text "C" (item parts 1)),
              PyFloat.float_of_string (numeric_text "%" (item parts 3)),
              PyFloat.float_of_string (numeric_text "C" (item parts 5)),
              PyFloat.float_of_string (numeric_text "%" (item parts 7)) with
        | Some t1, Some h1, Some t2, Some h2 =>
            Some (mkReading timestamp (datetime_to_mjd timestamp) t1 h1 t2 h2)
        | _, _, _, _ => None
        end
    end
  else None.

(** The readings of a response, in the order of its lines: what
    [process_data] hands to the sinks. *)
Definition parse (data_response : string) : list Reading :=
  omap parse_line (PyStr.splitlines data_response).

(** What [process_data] prints for a line it skips. *)
Definition skip_message (line : string) : message :=
  let parts := PyStr.split "," line in
  if (8 <=? length parts)%nat then
    match strptime (PyStr.strip (item parts 0)) with
    | None => MsgTimestampError (PyStr.strip (item parts 0))
    | Some _ => MsgFloatError
    end
  else MsgUnexpectedFormat line.

Definition option_list {A} (o : option A) : list A :=
  match o with Some a => [a] | None => [] end.

Definition has_value {A} (o : option A) : bool :=
  match o with Some _ => true | None => false end.

(** A malformed line, in the words of the specification: fewer than 8
    fields, a field 0 that is no timestamp, or one of the fields 1, 3, 5, 7
    that is no number once its unit is stripped. *)
Definition malformed (line : string) : bool :=
  let parts := PyStr.split "," line in
  (length parts <? 8)%nat
  || negb (has_value (strptime (PyStr.strip (item parts 0))))
  || negb (has_value (PyFloat.float_of_string (numeric_text "C" (item parts 1))))
  || negb (has_value (PyFloat.float_of_string (numeric_text "%" (item parts 3))))
  || negb (has_value (PyFloat.float_of_string (numeric_text "C" (item parts 5))))
  || negb (has_value (PyFloat.float_of_string (numeric_text "%" (item parts 7)))).

Declare Scope prog_scope.
Delimit Scope prog_scope with prog.
Bind Scope prog_scope with M.

Notation "x <- m ;; k" := (bind m (fun x => k))
  (at level 100, m at next level, k at level 200, right associativity)
  : prog_scope.
Notation "m ;; k" := (bind m (fun _ => k))
  (at level 100, k at level 200, right associativity) : prog_scope.

Local Open Scope prog_scope.

(** *** External calls *)

Section Program.

Context (env : Env).

Definition bump (c : call) (w : World) : World :=
  with_calls
    (fun c' => (if call_eqb c' c then S else fun n => n) (w_calls w c')) w.

Definition emit (e : event) : M unit :=
  modify (fun w => with_trace (w_trace w ++ [e]) w).

(** [print(...)] *)
Definition print (m : message) : M unit := emit (EvPrint m).

(** One more call of kind [c]: it raises what the environment says. *)
Definition external (c : call) : M unit :=
  fun w =>
    match fault env c (w_calls w c) with
    | Some e => (Raised e, bump c w)
    | None => (Returned tt, bump c w)
    end.

(** [datetime.now().date()] *)
Definition datetime_now_date : M date :=
  fun w => (Returned (clock env (w_calls w CallNow)), bump CallNow w).

(** [os.path.exists(path)] *)
Definition os_path_exists (path : string) : M bool :=
  gets (fun w => bool_decide (is_Some (w_fs w !! path))).

(** [open(path, mode, newline='')]: mode ['w'] creates or truncates the
    file, mode ['a'] creates it when it is missing and keeps it otherwise.
    The file object is returned by its index. *)
Definition open_file (path : string) (mode : open_mode) : M nat :=
  external CallOpen ;;
  h <- gets (fun w => length (w_fobjs w)) ;;
  modify (fun w =>
    with_fobjs (w_fobjs w ++ [FileObj path false])
      (with_fs (match mode, w_fs w !! path with
                | ModeA, Some _ => w_fs w
                | _, _ => <[path := []]> (w_fs w)
                end) w)) ;;
  emit (EvFileOpen h path mode) ;;
  ret h.

(** [f.close()]: nothing happens on a closed file. *)
Definition file_close (h : nat) : M unit :=
  fobjs <- gets w_fobjs ;;
  match fobjs !! h with
  | Some (FileObj path false) =>
      modify (with_fobjs (<[h := FileObj path true]> fobjs)) ;;
      emit (EvFileClose h)
  | _ => ret tt
  end.

(** [with open(path, mode, newline='') as f: body f] *)
Definition with_open {A} (path : string) (mode : open_mode)
    (body : nat -> M A) : M A :=
  h <- open_file path mode ;;
  try_finally (body h) (file_close h).

(** [csv.writer(f).writerow(r)]: [ValueError] on a closed file; the row is
    appended to the file unless the call raises. *)
Definition writerow (writer : nat) (r : row) : M unit :=
  fobjs <- gets w_fobjs ;;
  match fobjs !! writer with
  | Some (FileObj path false) =>
      external CallWriterow ;;
      modify (fun w =>
        with_fs (<[path := default [] (w_fs w !! path) ++ [r]]> (w_fs w)) w) ;;
      emit (EvFileWrite writer r)
  | _ => raise ValueError
  end.

(** [time.sleep(10)] *)
Definition sleep10 : M unit :=
  external CallSleep ;; emit (EvSleep 10).

(** [conn.rollback()] *)
Definition rollback : M unit := emit EvDbRollback.

(** [conn.close()] *)
Definition conn_close : M unit :=
  db <- gets w_db ;;
  match db with
  | DbOpen => modify (with_db DbClosed) ;; emit EvDbClose
  | _ => ret tt
  end.

(** The connection object: the program has at most one. *)
Inductive connection : Type := Conn.

(** The port object. *)
Inductive serial_port : Type := Ser.

(** [with serial.Serial(port=SERIAL_PORT, baudrate=BAUD_RATE,
    timeout=TIMEOUT) as ser: body ser] *)
Definition with_serial {A} (body : serial_port -> M A) : M A :=
  external CallSerial ;;
  modify (with_serial_state true) ;;
  emit EvSerialOpen ;;
  try_finally (body Ser)
    (modify (with_serial_state false) ;; emit EvSerialClose).

(** *** The functions of [data_logging.py] *)

Definition is_exn (e0 : exn) : exn -> bool := fun e => bool_decide (e = e0).

Definition connect_to_db : M (option connection) :=
  try_except
    (external CallConnect ;;
     modify (with_db DbOpen) ;;
     emit EvDbConnect ;;
     print MsgConnected ;;
     ret (Some Conn))
    (is_exn Psycopg2Error)
    (fun _ => print MsgConnectError ;; ret None).

Definition create_table_if_not_exists (conn : connection) : M unit :=
  try_except
    (external CallCreateTable ;;
     print MsgTableReady)
    (is_exn Psycopg2Error)
    (fun _ => print MsgTableError ;; rollback).

Definition send_command (cmd : string) (ser : serial_port) : M string :=
  n <- gets (fun w => w_calls w CallCommand) ;;
  external CallCommand ;;
  emit (EvSerialWrite (cmd +:+ crlf)) ;;
  let response := PyStr.strip (reply env n) in
  print (MsgCommand cmd response) ;;
  ret response.

Definition read_data (ser : serial_port) : M string :=
  let read_command := "DATa:RECord:READ?" in
  response <- send_command read_command ser ;;
  ret response.

Definition write_to_database (conn : connection) (timestamp : datetime)
    (mjd : Q) (temperature_s1 humidity_s1 temperature_s2 humidity_s2 :
    PyFloat.float) : M unit :=
  let r := mkReading timestamp mjd temperature_s1 humidity_s1
                     temperature_s2 humidity_s2 in
  try_except
    (external CallInsert ;;
     modify (fun w => with_sensor_data (w_sensor_data w ++ [r]) w) ;;
     emit (EvDbCommit r) ;;
     print MsgInserted)
    (is_exn Psycopg2Error)
    (fun _ => print MsgInsertError ;; rollback).

(** [float(s)] *)
Definition py_float (s : string) : M PyFloat.float :=
  match PyFloat.float_of_string s with
  | Some x => ret x
  | None => raise ValueError
  end.

(** The body of the [for line in data_lines] loop of [process_data];
    [continue] ends it. *)
Definition process_line (conn : connection) (csv_writer : nat)
    (line : string) : M unit :=
  print (MsgProcessingLine line) ;;
  let parts := PyStr.split "," line in
  if (8 <=? length parts)%nat then
    try_except
      (let timestamp_str := PyStr.strip (item parts 0) in
       match strptime timestamp_str with
       | None => print (MsgTimestampError timestamp_str)
       | Some timestamp =>
           let date_str := date_of timestamp in
           let mjd := datetime_to_mjd timestamp in
           temperature_s1 <-
             py_float (PyStr.rstrip "C" (PyStr.strip (item parts 1))) ;;
           humidity_s1 <-
             py_float (PyStr.rstrip "%" (PyStr.strip (item parts 3))) ;;
           temperature_s2 <-
             py_float (PyStr.rstrip "C" (PyStr.strip (item parts 5))) ;;
           humidity_s2 <-
             py_float (PyStr.rstrip "%" (PyStr.strip (item parts 7))) ;;
           write_to_database conn timestamp mjd temperature_s1 humidity_s1
                             temperature_s2 humidity_s2 ;;
           writerow csv_writer
             [CDate date_str; CDatetime timestamp; CMjd mjd;
              CFloat temperature_s1; CFloat humidity_s1;
              CFloat temperature_s2; CFloat humidity_s2] ;;
           print MsgAppended
       end)
      (is_exn ValueError)
      (fun _ => print MsgFloatError)
  else print (MsgUnexpectedFormat line).

Definition process_data (data_response : string) (conn : connection)
    (csv_writer : nat) (today_date : date) : M unit :=
  let data_lines := PyStr.splitlines data_response in
  for_each data_lines (process_line conn csv_writer).

Definition set_today_date (d : date) : M unit :=
  modify (fun w =>
    with_frame (mkFrame d (csvfile (w_frame w)) (csv_writer (w_frame w))) w).

Definition set_csvfile (h : nat) : M unit :=
  modify (fun w =>
    with_frame (mkFrame (today_date (w_frame w)) h (csv_writer (w_frame w))) w).

Definition set_csv_writer (h : nat) : M unit :=
  modify (fun w =>
    with_frame (mkFrame (today_date (w_frame w)) (csvfile (w_frame w)) h) w).

(** The body of [if current_date != today_date:] in the loop of [main]:
    the change to the file of the new day. *)
Definition rollover (current_date : date) : M unit :=
  f <- gets (fun w => csvfile (w_frame w)) ;;
  file_close f ;;
  set_today_date current_date ;;
  let csv_file_path := csv_path current_date in
  there <- os_path_exists csv_file_path ;;
  (if negb there then
     with_open csv_file_path ModeW (fun new_csvfile =>
       set_csv_writer new_csvfile ;;
       writerow new_csvfile header)
   else ret tt) ;;
  h <- open_file csv_file_path ModeA ;;
  set_csvfile h ;;
  set_csv_writer h.

(** The body of the [while True] loop of [main]. *)
Definition cycle (conn : connection) (ser : serial_port) : M unit :=
  current_date <- datetime_now_date ;;
  today <- gets (fun w => today_date (w_frame w)) ;;
  (if decide (current_date <> today) then rollover current_date
   else ret tt) ;;
  data_response <- read_data ser ;;
  print (MsgDataResponse data_response) ;;
  writer <- gets (fun w => csv_writer (w_frame w)) ;;
  today <- gets (fun w => today_date (w_frame w)) ;;
  process_data data_response conn writer today ;;
  sleep10.

(** The [except] clauses of [main]. *)
Definition main_handles (e : exn) : bool :=
  is_exn SerialException e || is_exn PermissionError e.

Definition main_handler (e : exn) : M unit :=
  if is_exn SerialException e then print MsgSerialError
  else print MsgPermissionError.

(** The [finally] clause of [main]: a file object and a connection are
    true values, so both tests pass. *)
Definition main_finally (conn : connection) : M unit :=
  f <- gets (fun w => csvfile (w_frame w)) ;;
  file_close f ;;
  conn_close ;;
  print MsgDbClosed.

(** [main()], its [while True] loop run for [fuel] rounds. *)
Definition main (fuel : nat) : M unit :=
  conn <- connect_to_db ;;
  match conn with
  | None => ret tt
  | Some conn =>
      create_table_if_not_exists conn ;;
      today <- datetime_now_date ;;
      set_today_date today ;;
      let csv_file_path := csv_path today in
      there <- os_path_exists csv_file_path ;;
      (if negb there then
         with_open csv_file_path ModeW (fun f =>
           set_csvfile f ;;
           set_csv_writer f ;;
           writerow f header)
       else ret tt) ;;
      with_open csv_file_path ModeA (fun f =>
        set_csvfile f ;;
        set_csv_writer f ;;
        try_finally
          (try_except
             (with_serial (fun ser =>
                print MsgSerialOpen ;;
                while_true fuel (cycle conn ser)))
             main_handles main_handler)
          (main_finally conn))
  end.

End Program.

End Logger.

(** ** Notions the statements use *)

Section Notions.

Import Logger PyDatetime.

(** A row that holds a reading. *)
Definition is_data_row (x : row) : Prop := exists r, x = data_row r.

(** The rows of the file at [path]; none when there is no such file. *)
Definition file_rows (fs : gmap string (list row)) (path : string) : list row :=
  default [] (fs !! path).

(** The file object [h] is open on [path]. *)
Definition handle_open (w : World) (h : nat) (path : string) : Prop :=
  w_fobjs w !! h = Some (FileObj path false).

(** Every file object but [h] is closed. *)
Definition others_closed (fobjs : list file_obj) (h : nat) : Prop :=
  forall h' fo, h' <> h -> fobjs !! h' = Some fo -> fo_closed fo = true.

(** Every file object is closed. *)
Definition all_closed (fobjs : list file_obj) : Prop :=
  forall h fo, fobjs !! h = Some fo -> fo_closed fo = true.

Fixpoint count_if (p : event -> bool) (tr : list event) : nat :=
  match tr with
  | [] => 0
  | e :: tr' => (if p e then 1 else 0) + count_if p tr'
  end.

Definition is_file_close (h : nat) (e : event) : bool :=
  match e with EvFileClose h' => Nat.eqb h' h | _ => false end.

Definition is_db_close (e : event) : bool :=
  match e with EvDbClose => true | _ => false end.

Definition is_db_rollback (e : event) : bool :=
  match e with EvDbRollback => true | _ => false end.

Definition is_append_open (e : event) : bool :=
  match e with EvFileOpen _ _ ModeA => true | _ => false end.

Definition is_write_open (e : event) : bool :=
  match e with EvFileOpen _ _ ModeW => true | _ => false end.

(** The trace of releases agrees with the file objects: a closed one was
    released once, an open one never. *)
Definition closes_agree (fobjs : list file_obj) (tr : list event) : Prop :=
  forall h,
    count_if (is_file_close h) tr
    = match fobjs !! h with
      | Some (FileObj _ true) => 1
      | _ => 0
      end.

(** An event that opens no file and releases neither a file nor the
    connection. *)
Definition quiet_event (e : event) : bool :=
  match e with
  | EvFileOpen _ _ _ | EvFileClose _ | EvDbClose => false
  | _ => true
  end.


(** An event that writes to a sink: a committed insert or a row written
    to a file. *)
Definition is_sink_write (e : event) : bool :=
  match e with
  | EvDbCommit _ | EvFileWrite _ _ => true
  | _ => false
  end.


(** An event of the sinks: it opens and releases nothing. *)
Definition sink_event (e : event) : bool :=
  match e with
  | EvPrint _ | EvDbCommit _ | EvDbRollback | EvFileWrite _ _ => true
  | _ => false
  end.

(** What the sinks may change from [w] to [w']: rows of readings appended
    to the file at [path], rows of readings appended to the table, events
    of the sinks, and the counts of the calls to the sinks. *)
Record sink_step (path : string) (w w' : World) : Prop := {
  ss_fobjs : w_fobjs w' = w_fobjs w;
  ss_frame : w_frame w' = w_frame w;
  ss_db : w_db w' = w_db w;
  ss_serial : w_serial w' = w_serial w;
  ss_calls : forall c, c <> CallInsert -> c <> CallWriterow ->
             w_calls w' c = w_calls w c;
  ss_other : forall p, p <> path -> w_fs w' !! p = w_fs w !! p;
  ss_there : is_Some (w_fs w !! path) -> is_Some (w_fs w' !! path);
  ss_rows : exists rows, Forall is_data_row rows /\
            file_rows (w_fs w') path = file_rows (w_fs w) path ++ rows;
  ss_trace : exists evs, w_trace w' = w_trace w ++ evs /\
             forallb sink_event evs = true;
  ss_data : exists rs, w_sensor_data w' = w_sensor_data w ++ rs
}.

(** An exception that the environment raises and the sinks do not
    handle at the call: everything but [psycopg2.Error] from an insert. *)
Definition escapes (env : Env) (e : exn) : Prop :=
  exists c n, fault env c n = Some e /\ ~ (c = CallInsert /\ e = Psycopg2Error).


(** [sat m w Q]: the run of [m] from [w] ends in an outcome and a world
    that satisfy [Q]. *)
Definition sat {A} (m : M A) (w : World)
    (Q : outcome A -> World -> Prop) : Prop :=
  Q (m w).1 (m w).2.


(** The events [process_data] adds for a line when no sink fails. *)
Definition line_events (csv_writer : nat) (line : string) : list event :=
  EvPrint (MsgProcessingLine line) ::
  match parse_line line with
  | Some r => [EvDbCommit r; EvPrint MsgInserted;
               EvFileWrite csv_writer (data_row r); EvPrint MsgAppended]
  | None => [EvPrint (skip_message line)]
  end.


(** How many of the first [n] rounds see another date than the round
    before them; round [k + 1] is the [k]-th of the loop, and reading 0 of
    the clock is the one [main] makes before it. *)
Fixpoint day_changes (clk : nat -> date) (n : nat) : nat :=
  match n with
  | O => 0
  | S k => day_changes clk k + (if decide (clk (S k) <> clk k) then 1 else 0)
  end.

(** [d.toordinal()] *)
Definition date_ordinal (d : PyDatetime.date) : Z :=
  PyDatetime.ymd2ord (PyDatetime.d_year d) (PyDatetime.d_month d)
                     (PyDatetime.d_day d).

(** Between two readings in a row the clock stays on its date or moves to
    the next day, for the first [n] rounds. *)
Definition daily_clock (clk : nat -> PyDatetime.date) (n : nat) : Prop :=
  forall k, k < n ->
    clk (S k) = clk k \/ date_ordinal (clk (S k)) = (date_ordinal (clk k) + 1)%Z.


(** The files [fs] against the files [fs0] the run started with: a file
    of [fs0] has kept its rows and gained rows of readings only; any other
    file holds the header row, once, and rows of readings after it. *)
Definition fs_grown (fs0 fs : gmap string (list row)) : Prop :=
  forall p,
    match fs0 !! p with
    | Some rows =>
        exists more, fs !! p = Some (rows ++ more) /\ Forall is_data_row more
    | None =>
        fs !! p = None \/
        exists more, fs !! p = Some (header :: more) /\ Forall is_data_row more
    end.

(** What holds of the world whenever the loop of [main] is between two
    statements of its body, the change of file apart: the connection is
    open; the file object [csvfile] is open on the file of [today_date],
    [csv_writer] writes to it, and no other file object is open. *)
Record Held (fs0 : gmap string (list row)) (w : World) : Prop := {
  held_db : w_db w = DbOpen;
  held_db_close : count_if is_db_close (w_trace w) = 0;
  held_file : handle_open w (csvfile (w_frame w))
                (csv_path (today_date (w_frame w)));
  held_writer : csv_writer (w_frame w) = csvfile (w_frame w);
  held_others : others_closed (w_fobjs w) (csvfile (w_frame w));
  held_closes : closes_agree (w_fobjs w) (w_trace w);
  held_files : fs_grown fs0 (w_fs w);
  held_there : is_Some (w_fs w !! csv_path (today_date (w_frame w)))
}.

(** A call that raised [e] and that the program outlives: an insert that
    raises [psycopg2.Error] or [ValueError], a [writerow] that raises
    [ValueError], the creation of the table that raises [psycopg2.Error]. *)
Definition survivable (c : call) (e : exn) : bool :=
  match c, e with
  | CallInsert, Psycopg2Error | CallInsert, ValueError
  | CallWriterow, ValueError | CallCreateTable, Psycopg2Error => true
  | _, _ => false
  end.

(** Of the calls counted by [calls], none raised but those the program
    outlives.  The readings of the clock are counted as calls and never
    raise: the environment is not asked. *)
Definition calls_survived (env : Env) (calls : call -> nat) : Prop :=
  forall c k e, c <> CallNow -> k < calls c -> fault env c k = Some e ->
    survivable c e = true.

(** What holds after [k] rounds of the loop: [Held], the clock was read
    once before the loop and once per round, [today_date] is the date the
    last reading showed, and the file was changed once for every change of
    date between two readings in a row. *)
Record Running (env : Env) (fs0 : gmap string (list row)) (k : nat)
    (w : World) : Prop := {
  run_held : Held fs0 w;
  run_now : w_calls w CallNow = S k;
  run_today : today_date (w_frame w) = clock env k;
  run_appends :
    count_if is_append_open (w_trace w) = S (day_changes (clock env) k);
  run_calls : calls_survived env (w_calls w)
}.

(** What holds when an exception leaves the loop: the connection is still
    open, and no file object but [csvfile] can be open. *)
Record Unwinding (w : World) : Prop := {
  unw_db : w_db w = DbOpen;
  unw_db_close : count_if is_db_close (w_trace w) = 0;
  unw_others : others_closed (w_fobjs w) (csvfile (w_frame w));
  unw_closes : closes_agree (w_fobjs w) (w_trace w)
}.

(** Both resources are released, each once. *)
Record Released (w : World) : Prop := {
  rel_files : all_closed (w_fobjs w);
  rel_once : forall h, h < length (w_fobjs w) ->
             count_if (is_file_close h) (w_trace w) = 1;
  rel_db : w_db w = DbClosed;
  rel_db_once : count_if is_db_close (w_trace w) = 1
}.

(** What holds once [main] has its connection: nothing else is open yet. *)
Record Booted (env : Env) (fs0 : gmap string (list row)) (w : World) :
    Prop := {
  boot_db : w_db w = DbOpen;
  boot_fobjs : w_fobjs w = [];
  boot_fs : w_fs w = fs0;
  boot_trace : forallb quiet_event (w_trace w) = true;
  boot_now : w_calls w CallNow = 0;
  boot_calls : calls_survived env (w_calls w)
}.

(** How [main] leaves: no file object is open; and if the file of the day
    was opened for appending, file and connection are released, each
    once. *)
Definition Exited (w : World) : Prop :=
  all_closed (w_fobjs w)
  /\ (1 <= count_if is_append_open (w_trace w) -> Released w).

(** Every failure of the environment is the exception [e0], raised by a
    call of kind [c0]. *)
Definition only_faults (env : Env) (c0 : call) (e0 : exn) : Prop :=
  forall c n e, fault env c n = Some e -> c = c0 /\ e = e0.

(** The loop of [main] does not end: from any files and after any number
    of rounds [main] is still in it. *)
Definition keeps_running (env : Env) : Prop :=
  forall fuel fs, (main env fuel (initial_world fs)).1 = Pending.

(** The readings of [rs] whose insert is committed, when the insert of
    the first of them is call number [n]. *)
Fixpoint committed (env : Env) (n : nat) (rs : list Reading) : list Reading :=
  match rs with
  | [] => []
  | r :: rs =>
      match fault env CallInsert n with
      | Some _ => committed env (S n) rs
      | None => r :: committed env (S n) rs
      end
  end.

(** The claim that a failed write to the file is survived like a failed
    insert: with no other failure than [OSError] from [writerow], the loop
    goes on for ever. *)
Definition file_failure_is_recoverable : Prop :=
  forall env, only_faults env CallWriterow OSError -> keeps_running env.

(** The message of the [except] clause of [main] that catches [e]. *)
Definition transport_message (e : exn) : message :=
  if is_exn SerialException e then MsgSerialError else MsgPermissionError.

(** The claim about a port that cannot be opened, when nothing else
    fails: [main] prints the error, closes the connection and every file
    object, and returns with an empty table and no file that was not there
    at the start. *)
Definition transport_failure_creates_no_file : Prop :=
  forall env fuel fs e,
    e = SerialException \/ e = PermissionError ->
    fault env CallSerial 0 = Some e ->
    (forall c n, c <> CallSerial -> fault env c n = None) ->
    let w := (main env fuel (initial_world fs)).2 in
    (main env fuel (initial_world fs)).1 = Returned tt
    /\ In (EvPrint (transport_message e)) (w_trace w)
    /\ w_db w = DbClosed
    /\ all_closed (w_fobjs w)
    /\ w_sensor_data w = []
    /\ (forall path, is_Some (w_fs w !! path) -> is_Some (fs !! path)).


(** Nothing fails. *)
Definition no_faults (env : Env) : Prop := forall c n, fault env c n = None.

(** The readings of the reply to command [k], which round [k] of the loop
    sends. *)
Definition round_readings (env : Env) (k : nat) : list Reading :=
  parse (PyStr.strip (reply env k)).

(** The readings of the first [n] rounds, in order. *)
Fixpoint table_after (env : Env) (n : nat) : list Reading :=
  match n with
  | O => []
  | S k => table_after env k ++ round_readings env k
  end.

(** [rows] at the end of the file at [path]; a file that is not there is
    made, with the header row first. *)
Definition append_rows (path : string) (rows : list row)
    (fs : gmap string (list row)) : gmap string (list row) :=
  <[path := default [header] (fs !! path) ++ rows]> fs.

(** The files after [n] rounds, from the files [fs]: the file of the date
    of the first reading of the clock is made if it is missing, and the
    readings of round [k] go to the file of the date that the clock shows
    in that round, its reading number [k + 1]. *)
Fixpoint files_after (env : Env) (fs : gmap string (list row)) (n : nat) :
    gmap string (list row) :=
  match n with
  | O => append_rows (csv_path (clock env 0)) [] fs
  | S k =>
      append_rows (csv_path (clock env (S k)))
        (map data_row (round_readings env k)) (files_after env fs k)
  end.

(** Nothing fails but the database: every failure is a [psycopg2.Error]
    from the creation of the table or from an insert. *)
Definition db_faults_only (env : Env) : Prop :=
  forall c n e, fault env c n = Some e ->
    (c = CallCreateTable \/ c = CallInsert) /\ e = Psycopg2Error.

(** What holds after [k] rounds in which nothing but the database failed:
    every reading so far was handed to the table, which holds those whose
    insert was committed, and the files hold them all. *)
Record Logged (env : Env) (fs0 : gmap string (list row)) (k : nat)
    (w : World) : Prop := {
  logged_file : handle_open w (csvfile (w_frame w))
                  (csv_path (today_date (w_frame w)));
  logged_writer : csv_writer (w_frame w) = csvfile (w_frame w);
  logged_today : today_date (w_frame w) = clock env k;
  logged_now : w_calls w CallNow = S k;
  logged_commands : w_calls w CallCommand = k;
  logged_inserts : w_calls w CallInsert = length (table_after env k);
  logged_table : w_sensor_data w = committed env 0 (table_after env k);
  logged_files : w_fs w = files_after env fs0 k
}.


(** The rows that the first [n] rounds write to the file at [path]: those
    of the readings of the rounds in which the clock shows the date that
    names the file. *)
Fixpoint rows_on (env : Env) (path : string) (n : nat) : list row :=
  match n with
  | O => []
  | S k =>
      rows_on env path k
      ++ (if decide (csv_path (clock env (S k)) = path)
          then map data_row (round_readings env k) else [])
  end.

(** Whether one of the first [n + 1] readings of the clock shows the date
    that names the file at [path]. *)
Fixpoint visited (env : Env) (path : string) (n : nat) : bool :=
  match n with
  | O => bool_decide (csv_path (clock env 0) = path)
  | S k => visited env path k || bool_decide (csv_path (clock env (S k)) = path)
  end.


(** Every run of [m] takes a world to a world that [R] relates to it. *)
Definition steps (R : World -> World -> Prop) {A} (m : M A) : Prop :=
  forall w, R w (m w).2.

(** What [main] may do to the port: open it, close it, and send the one
    command that reads the record. *)
Definition port_event_ok (e : event) : Prop :=
  match e with
  | EvSerialWrite data => data = "DATa:RECord:READ?" +:+ crlf
  | _ => True
  end.

(** From [w] to [w'] the trace gains events that satisfy [P] only. *)
Definition trace_gains (P : event -> Prop) (w w' : World) : Prop :=
  exists evs, w_trace w' = w_trace w ++ evs /\ Forall P evs.

(** From [w] to [w'] nothing that was logged is lost: every file of [w]
    is a file of [w'] with the same rows and maybe more after them, and
    the table has the same rows and maybe more after them. *)
Definition nothing_lost (w w' : World) : Prop :=
  (forall path rows, w_fs w !! path = Some rows ->
     exists more, w_fs w' !! path = Some (rows ++ more))
  /\ exists more, w_sensor_data w' = w_sensor_data w ++ more.


(** No character of [s] satisfies [p]. *)
Fixpoint none_of (p : ascii -> bool) (s : string) : bool :=
  match s with
  | EmptyString => true
  | String c s' => negb (p c) && none_of p s'
  end.

(** Every character of [s] satisfies [p]. *)
Fixpoint all_of (p : ascii -> bool) (s : string) : bool :=
  match s with
  | EmptyString => true
  | String c s' => p c && all_of p s'
  end.

(** The text DD/MM/YYYY HH:MM:SS of a date and time, every field padded
    with zeros to its width. *)
Definition stamp_text (t : datetime) : string :=
  pad2 (day t) +:+ "/" +:+ pad2 (month t) +:+ "/" +:+ pad4 (year t)
  +:+ " " +:+ pad2 (hour t) +:+ ":" +:+ pad2 (minute t) +:+ ":"
  +:+ pad2 (second t).

(** The first match of [p] on [s] reads [a] and leaves [r]. *)
Definition starts {A} (p : matcher A) (s : string) (a : A) (r : string) :
    Prop :=
  exists l, p s = (a, r) :: l.


End Notions.

(** ** The scenarios of the specification *)

Section Scenarios.

Import Logger PyDatetime.

Definition scenario_line : string :=
  "01/01/2024 10:00:00,21.5C,x,45.2%,x,22.0C,x,46.0%".

(** The binary64 number [x] is exactly the rational [q]. *)
Definition float_is (x : PyFloat.float) (q : Q) : Prop :=
  match PyFloat.to_Q x with
  | Some v => (v == q)%Q
  | None => False
  end.

(** The binary64 number [x] is the positive rational [q] up to the
    rounding of one conversion: a relative error of at most [2 ^ -53]. *)
Definition float_near (x : PyFloat.float) (q : Q) : Prop :=
  match PyFloat.to_Q x with
  | Some v =>
      (q * (1 - (1 # 9007199254740992)) <= v
       /\ v <= q * (1 + (1 # 9007199254740992)))%Q
  | None => False
  end.

(** The environment in which nothing fails: the clock shows 2024-01-01
    for two readings and 2024-01-02 from then on; the instrument answers
    the first command with [scenario_line] and a line of five fields, and
    every later command with nothing. *)
Definition calm_env : Env :=
  mkEnv (fun _ _ => None)
        (fun n => if (n <? 2)%nat then Date 2024 1 1 else Date 2024 1 2)
        (fun n =>
           match n with
           | O => scenario_line +:+ crlf +:+ "a,b,c,d,e"
           | _ => EmptyString
           end).

(** A response of three lines for the checks: a well-formed line, a line
    of five fields, and a line whose first temperature is no number. *)
Definition mixed_response : string :=
  scenario_line +:+ crlf +:+ "a,b,c,d,e" +:+ crlf
  +:+ "02/01/2024 11:30:00,hot,x,45.2%,x,22.0C,x,46.0%".


(** The line of the specification with the unit of the first temperature
    and of the last humidity left out, and the units of the two fields
    between them doubled. *)
Definition loose_units_line : string :=
  "01/01/2024 10:00:00,21.5,x,45.2%%,x,22.0CC,x,46.0".


(** The clock of [calm_env], the instrument silent, and the fifth
    [time.sleep(10)] interrupted from the keyboard. *)
Definition interrupted_env : Env :=
  mkEnv (fun c n =>
           match c, n with
           | CallSleep, 4 => Some KeyboardInterrupt
           | _, _ => None
           end)
        (clock calm_env)
        (fun _ => EmptyString).


(** The database refuses every insert; the clock and the instrument are
    those of [calm_env]. *)
Definition db_down_env : Env :=
  mkEnv (fun c _ =>
           match c with
           | CallInsert => Some Psycopg2Error
           | _ => None
           end)
        (clock calm_env)
        (reply calm_env).

(** The header row is written, the next [writerow] fails with [OSError];
    the instrument answers every command with [scenario_line] twice. *)
Definition disk_full_env : Env :=
  mkEnv (fun c n =>
           match c, n with
           | CallWriterow, 1 => Some OSError
           | _, _ => None
           end)
        (clock calm_env)
        (fun _ => scenario_line +:+ crlf +:+ scenario_line).

(** The port cannot be opened. *)
Definition no_port_env : Env :=
  mkEnv (fun c _ =>
           match c with
           | CallSerial => Some SerialException
           | _ => None
           end)
        (clock calm_env)
        (reply calm_env).


(** The database cannot be reached. *)
Definition db_unreachable_env : Env :=
  mkEnv (fun c _ =>
           match c with
           | CallConnect => Some Psycopg2Error
           | _ => None
           end)
        (clock calm_env)
        (reply calm_env).

(** The directory cannot be written: the first [open] is refused. *)
Definition read_only_dir_env : Env :=
  mkEnv (fun c n =>
           match c, n with
           | CallOpen, O => Some PermissionError
           | _, _ => None
           end)
        (clock calm_env)
        (reply calm_env).


(** The table cannot be created and every insert is refused; the clock
    and the instrument are those of [calm_env]. *)
Definition no_table_env : Env :=
  mkEnv (fun c _ =>
           match c with
           | CallCreateTable | CallInsert => Some Psycopg2Error
           | _ => None
           end)
        (clock calm_env)
        (reply calm_env).


End Scenarios.


(** * Properties *)

Import Logger PyDatetime.

Local Open Scope prog_scope.

(** ** Text *)

Lemma splitlines_empty : PyStr.splitlines "" = [].
Proof. reflexivity. Qed.

Lemma rstrip_by_app_all (p : ascii -> bool) (s t : string) :
  PyStr.rstrip_by p t = "" ->
  PyStr.rstrip_by p (s +:+ t) = PyStr.rstrip_by p s.
Proof.
  intros Ht. induction s as [|c s IH]; simpl.
  - exact Ht.
  - now rewrite IH.
Qed.

Lemma rstrip_by_repeat (p : ascii -> bool) (c : ascii) (n : nat) :
  p c = true -> PyStr.rstrip_by p (PyStr.repeat_char c n) = "".
Proof.
  intros Hc. induction n as [|n IH]; simpl; [reflexivity|].
  now rewrite IH, Hc.
Qed.

Lemma rstrip_unit_repeated (u : ascii) (s : string) (n : nat) :
  PyStr.rstrip (String u "") (s +:+ PyStr.repeat_char u n)
  = PyStr.rstrip (String u "") s.
Proof.
  unfold PyStr.rstrip. apply rstrip_by_app_all, rstrip_by_repeat.
  simpl. now rewrite Ascii.eqb_refl.
Qed.

Lemma rstrip_by_length (p : ascii -> bool) (s : string) :
  (String.length (PyStr.rstrip_by p s) <= String.length s)%nat.
Proof.
  induction s as [|c s IH]; simpl; [lia|].
  destruct (PyStr.rstrip_by p s); [destruct (p c)|]; simpl in *; lia.
Qed.

Lemma lstrip_by_length (p : ascii -> bool) (s : string) :
  (String.length (PyStr.lstrip_by p s) <= String.length s)%nat.
Proof.
  induction s as [|c s IH]; simpl; [lia|].
  destruct (p c); simpl; lia.
Qed.

(** A text that [strip] leaves alone is empty or starts with a character
    that is no white space. *)
Lemma strip_fixed_head (s : string) :
  PyStr.strip s = s ->
  s = "" \/ exists c s', s = String c s' /\ PyStr.isspace c = false.
Proof.
  destruct s as [|c s']; [now left|]. intros H. right. exists c, s'.
  split; [reflexivity|].
  destruct (PyStr.isspace c) eqn:Hc; [|reflexivity].
  exfalso. unfold PyStr.strip in H. simpl in H. rewrite Hc in H.
  pose proof (rstrip_by_length PyStr.isspace
                (PyStr.lstrip_by PyStr.isspace s')) as H1.
  pose proof (lstrip_by_length PyStr.isspace s') as H2.
  rewrite H in H1. simpl in H1. lia.
Qed.

Lemma strip_fixed_rstrip (s : string) :
  PyStr.strip s = s -> PyStr.rstrip_by PyStr.isspace s = s.
Proof.
  intros H. destruct (strip_fixed_head s H) as [->|(c & s' & -> & Hc)].
  - reflexivity.
  - unfold PyStr.strip in H. simpl in H. rewrite Hc in H. exact H.
Qed.

Lemma string_app_empty (s t : string) : s +:+ t = "" -> s = "" /\ t = "".
Proof. destruct s; simpl; [auto|discriminate]. Qed.

Lemma string_app_nil_r (s : string) : s +:+ "" = s.
Proof.
  induction s as [|c s IH]; [reflexivity|].
  change (String c s +:+ "") with (String c (s +:+ "")). now rewrite IH.
Qed.

Lemma rstrip_by_app_keep (p : ascii -> bool) (s t : string) :
  PyStr.rstrip_by p t <> "" ->
  PyStr.rstrip_by p (s +:+ t) = s +:+ PyStr.rstrip_by p t.
Proof.
  intros Ht. induction s as [|c s IH]; [reflexivity|].
  change (String c s +:+ t) with (String c (s +:+ t)).
  change (String c s +:+ PyStr.rstrip_by p t)
    with (String c (s +:+ PyStr.rstrip_by p t)).
  simpl. rewrite IH. destruct (s +:+ PyStr.rstrip_by p t) eqn:E; [|reflexivity].
  apply string_app_empty in E. tauto.
Qed.

Lemma rstrip_by_repeat_keep (p : ascii -> bool) (c : ascii) (n : nat) :
  p c = false ->
  PyStr.rstrip_by p (PyStr.repeat_char c n) = PyStr.repeat_char c n.
Proof.
  intros Hc. induction n as [|n IH]; simpl; [reflexivity|].
  rewrite IH. destruct (PyStr.repeat_char c n); [now rewrite Hc|reflexivity].
Qed.

(** Appending unit characters to a stripped text leaves it stripped. *)
Lemma strip_app_repeat (u : ascii) (s : string) (n : nat) :
  PyStr.isspace u = false -> PyStr.strip s = s ->
  PyStr.strip (s +:+ PyStr.repeat_char u n) = s +:+ PyStr.repeat_char u n.
Proof.
  intros Hu Hs.
  assert (Hr : PyStr.rstrip_by PyStr.isspace (s +:+ PyStr.repeat_char u n)
               = s +:+ PyStr.repeat_char u n).
  { destruct n as [|n].
    - change (PyStr.repeat_char u 0) with "".
      rewrite string_app_nil_r. now apply strip_fixed_rstrip.
    - rewrite rstrip_by_app_keep; rewrite rstrip_by_repeat_keep by exact Hu;
        [reflexivity|discriminate]. }
  destruct (strip_fixed_head s Hs) as [->|(c & s' & -> & Hc)].
  - simpl in *. unfold PyStr.strip.
    destruct n as [|n]; [reflexivity|]. simpl. rewrite Hu. exact Hr.
  - unfold PyStr.strip. simpl. rewrite Hc. exact Hr.
Qed.

(** The text handed to [float] does not depend on how many unit characters
    end the field. *)
Lemma numeric_text_repeat (u : ascii) (s : string) (n : nat) :
  PyStr.isspace u = false -> PyStr.strip s = s ->
  numeric_text (String u "") (s +:+ PyStr.repeat_char u n)
  = PyStr.rstrip (String u "") s.
Proof.
  intros Hu Hs. unfold numeric_text.
  rewrite strip_app_repeat by assumption. apply rstrip_unit_repeated.
Qed.

(** ** Calendar *)

Local Open Scope Z_scope.

Lemma days_before_year_next (y : Z) :
  days_before_year (y + 1)
  = days_before_year y + (if is_leap y then 366 else 365).
Proof.
  unfold days_before_year, is_leap.
  destruct (Z.eqb_spec (y mod 4) 0), (Z.eqb_spec (y mod 100) 0),
    (Z.eqb_spec (y mod 400) 0); simpl;
    Z.to_euclidean_division_equations; lia.
Qed.

Lemma days_before_year_mono (y1 y2 : Z) :
  y1 <= y2 -> days_before_year y1 <= days_before_year y2.
Proof.
  unfold days_before_year. intros H.
  Z.to_euclidean_division_equations. lia.
Qed.

(** The day of the year of a valid date lies within the year. *)
Lemma day_of_year_bound (y m d : Z) :
  valid_date y m d = true ->
  1 <= days_before_month y m + d <= (if is_leap y then 366 else 365).
Proof.
  unfold valid_date, days_before_month, days_in_month. intros H.
  repeat (apply andb_prop in H; destruct H as [H ?]).
  assert (Hm : m = 1 \/ m = 2 \/ m = 3 \/ m = 4 \/ m = 5 \/ m = 6 \/ m = 7
               \/ m = 8 \/ m = 9 \/ m = 10 \/ m = 11 \/ m = 12) by lia.
  destruct (is_leap y);
    repeat (destruct Hm as [-> | Hm]); try subst m; simpl in *; lia.
Qed.

Lemma days_before_month_mono (y m1 m2 d1 : Z) :
  valid_date y m1 d1 = true -> 1 <= m2 <= 12 -> m1 < m2 ->
  days_before_month y m1 + d1 <= days_before_month y m2.
Proof.
  unfold valid_date, days_before_month, days_in_month. intros H Hm2 Hlt.
  repeat (apply andb_prop in H; destruct H as [H ?]).
  assert (Hm : m1 = 1 \/ m1 = 2 \/ m1 = 3 \/ m1 = 4 \/ m1 = 5 \/ m1 = 6
               \/ m1 = 7 \/ m1 = 8 \/ m1 = 9 \/ m1 = 10 \/ m1 = 11
               \/ m1 = 12) by lia.
  assert (Hm' : m2 = 1 \/ m2 = 2 \/ m2 = 3 \/ m2 = 4 \/ m2 = 5 \/ m2 = 6
               \/ m2 = 7 \/ m2 = 8 \/ m2 = 9 \/ m2 = 10 \/ m2 = 11
               \/ m2 = 12) by lia.
  destruct (is_leap y);
    repeat (destruct Hm as [-> | Hm]); try subst m1;
    repeat (destruct Hm' as [-> | Hm']); try subst m2;
    simpl in *; lia.
Qed.

Lemma valid_datetime_fields (t : datetime) :
  valid_datetime t = true ->
  valid_date (year t) (month t) (day t) = true
  /\ 1 <= month t <= 12 /\ 1 <= day t
  /\ 0 <= 3600 * hour t + 60 * minute t + second t < 86400
  /\ 0 <= hour t <= 23 /\ 0 <= minute t <= 59 /\ 0 <= second t <= 59.
Proof.
  unfold valid_datetime, valid_time. intros H.
  apply andb_prop in H. destruct H as [Hd Ht]. split; [exact Hd|].
  unfold valid_date in Hd.
  repeat (apply andb_prop in Hd; destruct Hd as [Hd ?]).
  repeat (apply andb_prop in Ht; destruct Ht as [Ht ?]).
  lia.
Qed.

(** The count of seconds grows strictly with the timestamp. *)
Lemma mjd_seconds_lt (t1 t2 : datetime) :
  valid_datetime t1 = true -> valid_datetime t2 = true ->
  datetime_ltb t1 t2 = true -> mjd_seconds t1 < mjd_seconds t2.
Proof.
  intros V1 V2 Hlt.
  destruct (valid_datetime_fields t1 V1) as (D1 & M1 & P1 & S1 & B1).
  destruct (valid_datetime_fields t2 V2) as (D2 & M2 & P2 & S2 & B2).
  pose proof (day_of_year_bound _ _ _ D1) as Y1.
  pose proof (day_of_year_bound _ _ _ D2) as Y2.
  unfold mjd_seconds, ymd2ord. unfold datetime_ltb in Hlt.
  destruct (Z.compare_spec (year t1) (year t2)) as [Ey|Ly|Gy];
    [|clear Hlt|discriminate].
  - destruct (Z.compare_spec (month t1) (month t2)) as [Em|Lm|Gm];
      [|clear Hlt|discriminate].
    + destruct (Z.compare_spec (day t1) (day t2)) as [Ed|Ld|Gd];
        [|clear Hlt|discriminate].
      * rewrite Ey, Em, Ed.
        destruct (Z.compare_spec (hour t1) (hour t2)) as [Eh|Lh|Gh];
          [|lia|discriminate].
        destruct (Z.compare_spec (minute t1) (minute t2)) as [Ei|Li|Gi];
          [|lia|discriminate].
        apply Z.ltb_lt in Hlt. lia.
      * rewrite Ey, Em. lia.
    + rewrite Ey in *.
      pose proof (days_before_month_mono _ _ (month t2) _ D1 M2 Lm). lia.
  - pose proof (days_before_year_next (year t1)) as N1.
    pose proof (days_before_year_mono (year t1 + 1) (year t2)) as N2.
    lia.
Qed.

Local Close Scope Z_scope.

(** ** Parsing *)

Lemma strptime_valid (s : string) (t : datetime) :
  strptime s = Some t -> valid_datetime t = true.
Proof.
  unfold strptime.
  destruct (m_format s) as [|[[[[[[y m] d] hh] mi] ss] r] l];
    [discriminate|].
  destruct r; [|discriminate]. unfold datetime_new.
  destruct (valid_date y m d && valid_time hh mi ss) eqn:E; [|discriminate].
  intros [= <-]. exact E.
Qed.

(** [parse_line] yields a reading exactly when the four tests of the loop
    body pass, and the reading holds the converted values. *)
Lemma parse_line_Some (line : string) (r : Reading) :
  parse_line line = Some r <->
  let parts := PyStr.split "," line in
  (8 <= length parts)%nat
  /\ strptime (PyStr.strip (item parts 0)) = Some (timestamp r)
  /\ mjd r = datetime_to_mjd (timestamp r)
  /\ PyFloat.float_of_string (numeric_text "C" (item parts 1))
     = Some (temperature_s1 r)
  /\ PyFloat.float_of_string (numeric_text "%" (item parts 3))
     = Some (humidity_s1 r)
  /\ PyFloat.float_of_string (numeric_text "C" (item parts 5))
     = Some (temperature_s2 r)
  /\ PyFloat.float_of_string (numeric_text "%" (item parts 7))
     = Some (humidity_s2 r).
Proof.
  unfold parse_line. cbv zeta.
  destruct (Nat.leb_spec 8 (length (PyStr.split "," line))) as [Hl|Hl].
  - destruct (strptime _) as [ts|];
      [|split; [discriminate|intros (_ & H & _); discriminate]].
    destruct (PyFloat.float_of_string (numeric_text "C" (item _ 1))) as [t1|];
      [|split; [discriminate|intros (_ & _ & _ & H & _); discriminate]].
    destruct (PyFloat.float_of_string (numeric_text "%" (item _ 3))) as [h1|];
      [|split; [discriminate|intros (_ & _ & _ & _ & H & _); discriminate]].
    destruct (PyFloat.float_of_string (numeric_text "C" (item _ 5))) as [t2|];
      [|split; [discriminate|intros (_ & _ & _ & _ & _ & H & _); discriminate]].
    destruct (PyFloat.float_of_string (numeric_text "%" (item _ 7))) as [h2|];
      [|split; [discriminate|intros (_ & _ & _ & _ & _ & _ & H); discriminate]].
    split.
    + intros [= <-]. simpl. auto 10.
    + destruct r as [ts' q t1' h1' t2' h2']. simpl.
      intros (_ & [= ->] & -> & [= ->] & [= ->] & [= ->] & [= ->]).
      reflexivity.
  - split; [discriminate|]. intros (H & _). lia.
Qed.

Lemma parse_line_None (line : string) :
  parse_line line = None <-> malformed line = true.
Proof.
  unfold parse_line, malformed. cbv zeta.
  destruct (Nat.leb_spec 8 (length (PyStr.split "," line))) as [Hl|Hl];
    destruct (Nat.ltb_spec (length (PyStr.split "," line)) 8) as [Hl'|Hl'];
    try lia; simpl; [|tauto].
  destruct (strptime _); simpl; [|tauto].
  repeat (destruct (PyFloat.float_of_string _); simpl; [|tauto]).
  split; discriminate.
Qed.

(** The timestamp of a reading is a date and time of the calendar, and its
    [mjd] is the conversion of that timestamp. *)
Lemma parse_line_timestamp (line : string) (r : Reading) :
  parse_line line = Some r ->
  valid_datetime (timestamp r) = true
  /\ mjd r = datetime_to_mjd (timestamp r).
Proof.
  intros H. apply parse_line_Some in H. cbv zeta in H.
  destruct H as (_ & Ht & Hm & _). split; [|exact Hm].
  eapply strptime_valid, Ht.
Qed.

(** ** The sinks *)

(** The loop body of [process_data], by what the line parses to. *)
Lemma process_line_unfold env conn cw line w :
  process_line env conn cw line w =
  (print (MsgProcessingLine line) ;;
   match parse_line line with
   | Some r =>
       try_except
         (write_to_database env conn (timestamp r) (mjd r) (temperature_s1 r)
            (humidity_s1 r) (temperature_s2 r) (humidity_s2 r) ;;
          writerow env cw (data_row r) ;;
          print MsgAppended)
         (is_exn ValueError)
         (fun _ => print MsgFloatError)
   | None => print (skip_message line)
   end) w.
Proof.
  unfold process_line, parse_line, skip_message, py_float. cbv zeta.
  destruct (8 <=? length (PyStr.split "," line))%nat; [|reflexivity].
  destruct (strptime _) as [ts|]; [|reflexivity].
  unfold numeric_text.
  destruct (PyFloat.float_of_string _) as [t1|]; [|reflexivity].
  destruct (PyFloat.float_of_string _) as [h1|]; [|reflexivity].
  destruct (PyFloat.float_of_string _) as [t2|]; [|reflexivity].
  destruct (PyFloat.float_of_string _) as [h2|]; [|reflexivity].
  reflexivity.
Qed.

Lemma sink_step_refl path w : sink_step path w w.
Proof.
  constructor; auto.
  - exists []. split; [constructor|]. now rewrite app_nil_r.
  - exists []. split; [|reflexivity]. now rewrite app_nil_r.
  - exists []. now rewrite app_nil_r.
Qed.

Lemma sink_step_trans path w1 w2 w3 :
  sink_step path w1 w2 -> sink_step path w2 w3 -> sink_step path w1 w3.
Proof.
  intros [a1 a2 a3 a4 a5 a6 a7 (r1 & a8 & a8') (e1 & a9 & a9') (d1 & a10)]
         [b1 b2 b3 b4 b5 b6 b7 (r2 & b8 & b8') (e2 & b9 & b9') (d2 & b10)].
  constructor; try congruence.
  - intros c H1 H2. rewrite b5, a5; auto.
  - intros p Hp. rewrite b6, a6; auto.
  - auto.
  - exists (r1 ++ r2). split; [now apply Forall_app|].
    now rewrite b8', a8', app_assoc.
  - exists (e1 ++ e2). split; [now rewrite b9, a9, app_assoc|].
    rewrite forallb_app. now rewrite a9', b9'.
  - exists (d1 ++ d2). now rewrite b10, a10, app_assoc.
Qed.

Lemma file_rows_insert (fs : gmap string (list row)) path rows :
  file_rows (<[path := rows]> fs) path = rows.
Proof. unfold file_rows. now rewrite lookup_insert_eq. Qed.

Lemma file_rows_insert_ne (fs : gmap string (list row)) path p rows :
  path <> p -> file_rows (<[path := rows]> fs) p = file_rows fs p.
Proof. intros H. unfold file_rows. now rewrite lookup_insert_ne. Qed.

(** Unfolds the operations of programs, for running one on a world. *)
Ltac unfold_prog :=
  unfold write_to_database, writerow, sleep10, print, emit, rollback,
    external, try_except, try_finally, bind, ret, raise, gets, modify,
    is_exn in *.

(** Proves [sink_step] between a world and the world a run of the sinks
    has made from it. *)
Ltac sink_solve :=
  constructor;
  cbn [w_fobjs w_frame w_db w_serial w_calls w_fs w_trace w_sensor_data
       with_trace with_fs with_calls with_sensor_data with_fobjs bump];
  [ reflexivity | reflexivity | reflexivity | reflexivity
  | intros c Hc1 Hc2; destruct c; cbn [call_eqb]; congruence
  | intros p Hp; rewrite ?lookup_insert_ne by congruence; reflexivity
  | intros Hs; rewrite ?lookup_insert_eq; eauto
  | rewrite ?file_rows_insert;
    first [ exists []; split; [constructor | now rewrite app_nil_r]
          | eexists [_]; split;
            [repeat constructor; eexists; reflexivity | reflexivity] ]
  | rewrite <- ?app_assoc; eexists; split; [reflexivity | reflexivity]
  | first [ exists []; now rewrite app_nil_r | eexists; reflexivity ] ].

Lemma escapes_intro env c n e :
  fault env c n = Some e -> (c = CallInsert -> e <> Psycopg2Error) ->
  escapes env e.
Proof. intros H1 H2. exists c, n. split; [exact H1|]. intros [? ?]. tauto. Qed.

Lemma calls_survived_grow env calls calls' :
  calls_survived env calls ->
  (forall c k e, c <> CallNow -> calls c <= k < calls' c ->
     fault env c k = Some e -> survivable c e = true) ->
  calls_survived env calls'.
Proof.
  intros H1 H2 c k e Hc Hk Hf.
  destruct (Nat.lt_ge_cases k (calls c)); [eauto|].
  apply (H2 c k e); [exact Hc|lia|exact Hf].
Qed.

(** Proves [calls_survived] of counts written out, from [calls_survived]
    of the counts before and the outcomes of the calls between. *)
Ltac survive_solve :=
  eapply calls_survived_grow; [eassumption|];
  let c := fresh "c" in
  let k := fresh "k" in
  let e := fresh "e" in
  let Hc := fresh "Hc" in
  let Hk := fresh "Hk" in
  let Hf := fresh "Hf" in
  intros c k e Hc Hk Hf; destruct c; cbn in Hk; try lia; try congruence;
  repeat match goal with
    | E : fault _ _ ?n = _ |- _ =>
        destruct (decide (k = n)) as [->|?];
        [rewrite E in Hf;
         first [discriminate | injection Hf as <-; reflexivity]
        |clear E]
    end;
  lia.

(** Whatever the sinks do with a line, the world changes by a [sink_step];
    an exception that leaves the loop body is one the environment raised;
    when the body returns, the calls it made are ones the program
    outlives. *)
Lemma process_line_sink env conn cw line w path :
  handle_open w cw path ->
  sink_step path w (process_line env conn cw line w).2
  /\ match (process_line env conn cw line w).1 with
     | Returned _ =>
         calls_survived env (w_calls w) ->
         calls_survived env (w_calls (process_line env conn cw line w).2)
     | Raised e => escapes env e
     | Pending => False
     end.
Proof.
  unfold handle_open. intros Hh. rewrite process_line_unfold.
  destruct (parse_line line) as [r|].
  - unfold_prog. simpl.
    destruct (fault env CallInsert (w_calls w CallInsert)) as [e|] eqn:Ei;
      simpl.
    + destruct (bool_decide_reflect (e = Psycopg2Error)) as [He|He]; simpl.
      * subst e. rewrite Hh. simpl.
        destruct (fault env CallWriterow (w_calls w CallWriterow))
          as [e'|] eqn:Ew; simpl.
        -- destruct (bool_decide_reflect (e' = ValueError)) as [->|He'];
             simpl; (split; [sink_solve|]).
           ++ intros Hs. survive_solve.
           ++ eapply escapes_intro; [exact Ew|discriminate].
        -- split; [sink_solve|]. intros Hs. survive_solve.
      * destruct (bool_decide_reflect (e = ValueError)) as [->|He'];
          simpl; (split; [sink_solve|]).
        -- intros Hs. survive_solve.
        -- eapply escapes_intro; [exact Ei|auto].
    + rewrite Hh. simpl.
      destruct (fault env CallWriterow (w_calls w CallWriterow))
        as [e'|] eqn:Ew; simpl.
      * destruct (bool_decide_reflect (e' = ValueError)) as [->|He'];
          simpl; (split; [sink_solve|]).
        -- intros Hs. survive_solve.
        -- eapply escapes_intro; [exact Ew|discriminate].
      * split; [sink_solve|]. intros Hs. survive_solve.
  - unfold_prog. simpl. split; [sink_solve|auto].
Qed.

Lemma for_each_sink env conn cw path lines : forall w,
  handle_open w cw path ->
  sink_step path w (for_each lines (process_line env conn cw) w).2
  /\ match (for_each lines (process_line env conn cw) w).1 with
     | Returned _ =>
         calls_survived env (w_calls w) ->
         calls_survived env
           (w_calls (for_each lines (process_line env conn cw) w).2)
     | Raised e => escapes env e
     | Pending => False
     end.
Proof.
  induction lines as [|line lines IH]; intros w Hh; simpl.
  - split; [apply sink_step_refl|auto].
  - unfold bind.
    destruct (process_line_sink env conn cw line w path Hh) as [Hs Ho].
    destruct (process_line env conn cw line w) as [[[]|e|] w1];
      simpl in *; [|auto|tauto].
    assert (Hh1 : handle_open w1 cw path).
    { unfold handle_open in *. now rewrite (ss_fobjs _ _ _ Hs). }
    destruct (IH w1 Hh1) as [Hs1 Ho1].
    split; [eapply sink_step_trans; eauto|].
    destruct (for_each lines (process_line env conn cw) w1) as [[[]|e|] w2];
      simpl in *; auto.
Qed.

Lemma process_data_sink env resp conn cw today w path :
  handle_open w cw path ->
  sink_step path w (process_data env resp conn cw today w).2
  /\ match (process_data env resp conn cw today w).1 with
     | Returned _ =>
         calls_survived env (w_calls w) ->
         calls_survived env
           (w_calls (process_data env resp conn cw today w).2)
     | Raised e => escapes env e
     | Pending => False
     end.
Proof. intros Hh. unfold process_data. cbv zeta. now apply for_each_sink. Qed.

(** ** Rules for running programs *)

Lemma sat_ret {A} (a : A) w (Q : outcome A -> World -> Prop) :
  Q (Returned a) w -> sat (ret a) w Q.
Proof. intros H. exact H. Qed.

Lemma sat_raise {A} e w (Q : outcome A -> World -> Prop) :
  Q (Raised e) w -> sat (raise e) w Q.
Proof. intros H. exact H. Qed.

Lemma sat_gets {A} (f : World -> A) w (Q : outcome A -> World -> Prop) :
  Q (Returned (f w)) w -> sat (gets f) w Q.
Proof. intros H. exact H. Qed.

Lemma sat_modify f w (Q : outcome unit -> World -> Prop) :
  Q (Returned tt) (f w) -> sat (modify f) w Q.
Proof. intros H. exact H. Qed.

Lemma sat_bind {A B} (m : M A) (k : A -> M B) w
    (Q : outcome B -> World -> Prop) :
  sat m w (fun o w' =>
    match o with
    | Returned a => sat (k a) w' Q
    | Raised e => Q (Raised e) w'
    | Pending => Q Pending w'
    end) ->
  sat (bind m k) w Q.
Proof. unfold sat, bind. destruct (m w) as [[a|e|] w']; auto. Qed.

Lemma sat_mono {A} (m : M A) w (Q Q' : outcome A -> World -> Prop) :
  sat m w Q -> (forall o w', Q o w' -> Q' o w') -> sat m w Q'.
Proof. unfold sat. auto. Qed.

Lemma sat_try_except {A} (body : M A) (handles : exn -> bool)
    (handler : exn -> M A) w (Q : outcome A -> World -> Prop) :
  sat body w (fun o w' =>
    match o with
    | Raised e => if handles e then sat (handler e) w' Q else Q (Raised e) w'
    | _ => Q o w'
    end) ->
  sat (try_except body handles handler) w Q.
Proof.
  unfold sat, try_except. destruct (body w) as [[a|e|] w']; simpl; auto.
  destruct (handles e); auto.
Qed.

Lemma sat_try_finally {A} (body : M A) (final : M unit) w
    (Q : outcome A -> World -> Prop) :
  sat body w (fun o w' =>
    match o with
    | Pending => Q Pending w'
    | _ => sat final w' (fun o' w'' =>
             match o' with
             | Returned _ => Q o w''
             | Raised e => Q (Raised e) w''
             | Pending => Q Pending w''
             end)
    end) ->
  sat (try_finally body final) w Q.
Proof.
  unfold sat, try_finally. destruct (body w) as [[a|e|] w']; simpl; auto;
    destruct (final w') as [[[]|e'|] w'']; simpl; auto.
Qed.

Lemma sat_external env c w (Q : outcome unit -> World -> Prop) :
  match fault env c (w_calls w c) with
  | Some e => Q (Raised e) (bump c w)
  | None => Q (Returned tt) (bump c w)
  end ->
  sat (external env c) w Q.
Proof. unfold sat, external. destruct (fault env c (w_calls w c)); auto. Qed.

Lemma sat_emit e w (Q : outcome unit -> World -> Prop) :
  Q (Returned tt) (with_trace (w_trace w ++ [e]) w) -> sat (emit e) w Q.
Proof. intros H. exact H. Qed.

Lemma sat_now env w (Q : outcome date -> World -> Prop) :
  Q (Returned (clock env (w_calls w CallNow))) (bump CallNow w) ->
  sat (datetime_now_date env) w Q.
Proof. intros H. exact H. Qed.

(** The rule of the loop: an invariant of the rounds holds when the rounds
    are used up; the loop never returns. *)
Lemma sat_while (body : M unit) (Inv : nat -> World -> Prop)
    (Exc : exn -> World -> Prop) :
  (forall k w, Inv k w ->
     sat body w (fun o w' =>
       match o with
       | Returned _ => Inv (S k) w'
       | Raised e => Exc e w'
       | Pending => False
       end)) ->
  forall n k w, Inv k w ->
    sat (while_true n body) w (fun o w' =>
      match o with
      | Returned _ => False
      | Raised e => Exc e w'
      | Pending => Inv (k + n) w'
      end).
Proof.
  intros Hbody. induction n as [|n IH]; intros k w HI.
  - unfold sat. simpl. now rewrite Nat.add_0_r.
  - simpl. apply sat_bind. eapply sat_mono; [apply (Hbody k w HI)|].
    intros [[]|e|] w' H; simpl in H; [|exact H|tauto].
    eapply sat_mono; [apply (IH (S k) w' H)|].
    intros o w''. replace (k + S n) with (S k + n) by lia. auto.
Qed.

(** Writes the world of the goal as one record. *)
Ltac norm_world :=
  lazymatch goal with
  | |- sat ?m ?w ?Q =>
      let w' := eval cbv beta iota zeta delta
        [w_db w_sensor_data w_fs w_fobjs w_serial w_frame w_trace w_calls
         with_db with_sensor_data with_fs with_fobjs with_serial_state
         with_frame with_trace with_calls bump call_eqb
         today_date csvfile csv_writer] in w in
      change (sat m w' Q)
  | |- _ =>
      cbv beta iota zeta delta
        [w_db w_sensor_data w_fs w_fobjs w_serial w_frame w_trace w_calls
         with_db with_sensor_data with_fs with_fobjs with_serial_state
         with_frame with_trace with_calls bump call_eqb
         today_date csvfile csv_writer]
  end.

(** One step of a run: the rule of the program at the head. *)
Ltac wp1 :=
  lazymatch goal with
  | |- sat (try_finally _ (main_finally _)) _ _ => fail
  | |- sat (bind _ _) _ _ => apply sat_bind
  | |- sat (ret _) _ _ => apply sat_ret
  | |- sat (raise _) _ _ => apply sat_raise
  | |- sat (gets _) _ _ => apply sat_gets
  | |- sat (modify _) _ _ => apply sat_modify
  | |- sat (emit _) _ _ => apply sat_emit
  | |- sat (print _) _ _ => apply sat_emit
  | |- sat rollback _ _ => apply sat_emit
  | |- sat (set_today_date _) _ _ => apply sat_modify
  | |- sat (set_csvfile _) _ _ => apply sat_modify
  | |- sat (set_csv_writer _) _ _ => apply sat_modify
  | |- sat (os_path_exists _) _ _ => apply sat_gets
  | |- sat (datetime_now_date _) _ _ => apply sat_now
  | |- sat (try_except _ _ _) _ _ => apply sat_try_except
  | |- sat (try_finally _ _) _ _ => apply sat_try_finally
  | |- sat (external _ _) _ _ => apply sat_external
  end;
  cbv beta iota;
  cbn [w_db w_sensor_data w_fs w_fobjs w_serial w_frame w_trace w_calls
       with_db with_sensor_data with_fs with_fobjs with_serial_state
       with_frame with_trace with_calls bump today_date csvfile csv_writer];
  norm_world.

Ltac wp := repeat wp1.

(** ** File objects, traces and files *)

Lemma count_if_app p tr1 tr2 :
  count_if p (tr1 ++ tr2) = count_if p tr1 + count_if p tr2.
Proof. induction tr1 as [|e tr1 IH]; simpl; [reflexivity|]. rewrite IH. lia. Qed.

Lemma count_if_snoc p tr e :
  count_if p (tr ++ [e]) = count_if p tr + (if p e then 1 else 0).
Proof. rewrite count_if_app. simpl. lia. Qed.

Lemma closes_agree_event fobjs tr e :
  closes_agree fobjs tr -> (forall h, is_file_close h e = false) ->
  closes_agree fobjs (tr ++ [e]).
Proof.
  intros H He h. rewrite count_if_snoc, He, Nat.add_0_r. apply H.
Qed.

Lemma closes_agree_close fobjs tr h p :
  closes_agree fobjs tr -> fobjs !! h = Some (FileObj p false) ->
  closes_agree (<[h := FileObj p true]> fobjs) (tr ++ [EvFileClose h]).
Proof.
  intros H Hh h'. rewrite count_if_snoc. simpl. specialize (H h').
  destruct (Nat.eqb_spec h h') as [<-|Hne].
  - rewrite H, Hh. rewrite list_lookup_insert_eq; [reflexivity|].
    eapply lookup_lt_Some, Hh.
  - rewrite list_lookup_insert_ne by exact Hne. lia.
Qed.

Lemma closes_agree_open fobjs tr p :
  closes_agree fobjs tr -> closes_agree (fobjs ++ [FileObj p false]) tr.
Proof.
  intros H h. rewrite H. destruct (fobjs !! h) as [fo|] eqn:E.
  - now rewrite (lookup_app_l_Some _ _ _ _ E).
  - apply lookup_ge_None in E. rewrite lookup_app_r by exact E.
    destruct (h - length fobjs) as [|[|n]]; reflexivity.
Qed.

Lemma all_closed_others fobjs h : all_closed fobjs -> others_closed fobjs h.
Proof. intros H h' fo _. apply H. Qed.

Lemma all_closed_close fobjs h p :
  others_closed fobjs h -> all_closed (<[h := FileObj p true]> fobjs).
Proof.
  intros H h' fo Hl. destruct (decide (h = h')) as [<-|Hne].
  - apply list_lookup_insert_Some in Hl.
    destruct Hl as [(_ & <- & _)|(? & _)]; [reflexivity|congruence].
  - rewrite list_lookup_insert_ne in Hl by exact Hne. eapply H; eauto.
Qed.

Lemma others_closed_open fobjs p :
  all_closed fobjs -> others_closed (fobjs ++ [FileObj p false]) (length fobjs).
Proof.
  intros H h' fo Hne Hl. apply lookup_app_Some in Hl.
  destruct Hl as [Hl|[Hge Hl]]; [eapply H, Hl|].
  destruct (h' - length fobjs) as [|[|n]] eqn:E; [lia|discriminate..].
Qed.

Lemma lookup_snoc_new (fobjs : list file_obj) fo :
  (fobjs ++ [fo]) !! length fobjs = Some fo.
Proof. rewrite lookup_app_r by lia. now rewrite Nat.sub_diag. Qed.

Lemma fs_grown_refl (fs0 : gmap string (list row)) : fs_grown fs0 fs0.
Proof.
  intros p. destruct (fs0 !! p) as [rows|]; [|now left].
  exists []. split; [now rewrite app_nil_r|constructor].
Qed.

(** A file that is not there was not there at the start either. *)
Lemma fs_grown_absent (fs0 fs : gmap string (list row)) p :
  fs_grown fs0 fs -> fs !! p = None -> fs0 !! p = None.
Proof.
  intros H Hp. specialize (H p). destruct (fs0 !! p); [|reflexivity].
  destruct H as (more & H & _). congruence.
Qed.

(** Creating a missing file with the header row alone. *)
Lemma fs_grown_create (fs0 fs : gmap string (list row)) p :
  fs_grown fs0 fs -> fs !! p = None -> fs_grown fs0 (<[p := [header]]> fs).
Proof.
  intros H Hp q. destruct (decide (p = q)) as [<-|Hne].
  - rewrite (fs_grown_absent _ _ _ H Hp). right. exists [].
    split; [apply lookup_insert_eq|constructor].
  - rewrite lookup_insert_ne by exact Hne. apply H.
Qed.

(** Appending rows of readings to a file that is there. *)
Lemma fs_grown_append (fs0 fs fs' : gmap string (list row)) path rows :
  fs_grown fs0 fs -> is_Some (fs !! path) -> is_Some (fs' !! path) ->
  (forall p, p <> path -> fs' !! p = fs !! p) ->
  file_rows fs' path = file_rows fs path ++ rows ->
  Forall is_data_row rows ->
  fs_grown fs0 fs'.
Proof.
  intros H [y Hy] [x Hx] Ho Hr Hd q. destruct (decide (q = path)) as [->|Hne].
  - specialize (H path). unfold file_rows in Hr. rewrite Hx, Hy in Hr.
    simpl in Hr. subst x. rewrite Hx. rewrite Hy in H.
    destruct (fs0 !! path) as [rows0|].
    + destruct H as (more & [= ->] & Hm). exists (more ++ rows).
      split; [now rewrite app_assoc|now apply Forall_app].
    + destruct H as [H|(more & [= ->] & Hm)]; [discriminate|].
      right. exists (more ++ rows).
      split; [reflexivity|now apply Forall_app].
  - rewrite Ho by exact Hne. apply H.
Qed.

(** ** The invariant of the loop *)

Ltac count_solve := rewrite ?count_if_snoc; cbn; lia.

Lemma sink_event_quiet e : sink_event e = true -> quiet_event e = true.
Proof. now destruct e. Qed.

Lemma forallb_sink_quiet evs :
  forallb sink_event evs = true -> forallb quiet_event evs = true.
Proof.
  induction evs as [|e evs IH]; simpl; [reflexivity|].
  intros H. apply andb_prop in H. destruct H as [H1 H2].
  now rewrite (sink_event_quiet _ H1), IH.
Qed.

Lemma count_if_quiet p evs :
  (forall e, quiet_event e = true -> p e = false) ->
  forallb quiet_event evs = true -> count_if p evs = 0.
Proof.
  intros Hp. induction evs as [|e evs IH]; simpl; [reflexivity|].
  intros H. apply andb_prop in H. destruct H as [H1 H2].
  now rewrite (Hp _ H1), IH.
Qed.

Lemma quiet_not_file_close h e :
  quiet_event e = true -> is_file_close h e = false.
Proof. now destruct e. Qed.

Lemma quiet_not_db_close e : quiet_event e = true -> is_db_close e = false.
Proof. now destruct e. Qed.

Lemma quiet_not_append_open e :
  quiet_event e = true -> is_append_open e = false.
Proof. now destruct e. Qed.

Lemma closes_agree_quiet fobjs tr evs :
  closes_agree fobjs tr -> forallb quiet_event evs = true ->
  closes_agree fobjs (tr ++ evs).
Proof.
  intros H He h. rewrite count_if_app.
  rewrite (count_if_quiet _ evs (quiet_not_file_close h) He), Nat.add_0_r.
  apply H.
Qed.

(** [Held] looks at the connection, the files, the file objects, the frame
    and the releases of the trace only. *)
Lemma Held_quiet fs0 w w' evs :
  Held fs0 w ->
  w_db w' = w_db w -> w_fs w' = w_fs w -> w_fobjs w' = w_fobjs w ->
  w_frame w' = w_frame w -> w_trace w' = w_trace w ++ evs ->
  forallb quiet_event evs = true ->
  Held fs0 w'.
Proof.
  intros [H1 H2 H3 H4 H5 H6 H7 H8] Edb Efs Efo Efr Etr Hq.
  constructor; unfold handle_open in *; rewrite ?Edb, ?Efs, ?Efo, ?Efr, ?Etr;
    auto.
  - rewrite count_if_app, (count_if_quiet _ evs quiet_not_db_close Hq). lia.
  - now apply closes_agree_quiet.
Qed.

Lemma Held_unwinding fs0 w : Held fs0 w -> Unwinding w.
Proof. intros [H1 H2 H3 H4 H5 H6 H7 H8]. now constructor. Qed.

(** The sinks keep [Held]. *)
Lemma Held_sink fs0 w w' :
  Held fs0 w -> sink_step (csv_path (today_date (w_frame w))) w w' ->
  Held fs0 w'.
Proof.
  intros [H1 H2 H3 H4 H5 H6 H7 H8]
         [a1 a2 a3 a4 a5 a6 a7 (rows & a8 & a8') (evs & a9 & a9') _].
  pose proof (forallb_sink_quiet _ a9') as Hq.
  constructor; unfold handle_open in *; rewrite ?a1, ?a2, ?a3, ?a9; auto.
  - rewrite count_if_app, (count_if_quiet _ evs quiet_not_db_close Hq). lia.
  - now apply closes_agree_quiet.
  - eapply fs_grown_append; eauto.
Qed.

Lemma count_append_quiet tr evs :
  forallb quiet_event evs = true ->
  count_if is_append_open (tr ++ evs) = count_if is_append_open tr.
Proof.
  intros Hq.
  rewrite count_if_app, (count_if_quiet _ evs quiet_not_append_open Hq). lia.
Qed.

(** The change of file: from [Held] to [Held] on the file of the new date,
    through one more opening for appending, or out by an exception of the
    environment with every file object but [csvfile] closed. *)
Lemma rollover_sat env fs0 d w :
  Held fs0 w ->
  sat (rollover env d) w (fun o w' =>
    match o with
    | Returned _ =>
        Held fs0 w' /\ today_date (w_frame w') = d
        /\ count_if is_append_open (w_trace w')
           = S (count_if is_append_open (w_trace w))
        /\ w_calls w' CallNow = w_calls w CallNow
        /\ (calls_survived env (w_calls w) ->
            calls_survived env (w_calls w'))
    | Raised e => Unwinding w' /\ escapes env e
    | Pending => False
    end).
Proof.
  destruct w as [db sd fs fobjs ser [today cf cwr] tr calls].
  intros [Hdb Hdc Hfile Hwr Hoth Hcl Hfs Hthere]. unfold handle_open in Hfile.
  simpl in *. subst cwr db.
  pose proof (all_closed_close _ _ (csv_path today) Hoth) as Hall.
  pose proof (closes_agree_close _ _ _ _ Hcl Hfile) as Hcl1.
  set (fobjs1 := <[cf:=FileObj (csv_path today) true]> fobjs) in *.
  unfold rollover. wp. unfold file_close. wp. rewrite Hfile. wp.
  fold fobjs1.
  destruct (bool_decide_reflect (is_Some (fs !! csv_path d))) as [Hex|Hex];
    cbn [negb]; wp.
  - (* the file of the new day is there *)
    unfold open_file. wp.
    destruct (fault env CallOpen (calls CallOpen)) as [e|] eqn:Eo; wp.
    + split; [|eapply escapes_intro; [exact Eo|discriminate]].
      constructor; cbn;
        [reflexivity | count_solve | now apply all_closed_others | exact Hcl1].
    + destruct Hex as [rows Hrows]. rewrite Hrows. wp.
      split; [|split; [reflexivity|split; [count_solve|split;
        [reflexivity|cbn; intros Hs; survive_solve]]]].
      constructor; cbn;
        [reflexivity | count_solve | apply lookup_snoc_new | reflexivity
        | now apply others_closed_open
        | apply closes_agree_event; [now apply closes_agree_open|reflexivity]
        | exact Hfs | eauto].
  - (* the file of the new day is missing *)
    assert (Hnone : fs !! csv_path d = None).
    { destruct (fs !! csv_path d) eqn:E; [|reflexivity]. exfalso. eauto. }
    unfold with_open, open_file. wp.
    destruct (fault env CallOpen (calls CallOpen)) as [e|] eqn:Eo; wp.
    + split; [|eapply escapes_intro; [exact Eo|discriminate]].
      constructor; cbn;
        [reflexivity | count_solve | now apply all_closed_others | exact Hcl1].
    + unfold writerow. wp. rewrite lookup_snoc_new. wp.
      pose proof (closes_agree_open _ _ (csv_path d) Hcl1) as Hcl2.
      pose proof (closes_agree_event _ _
                    (EvFileOpen (length fobjs1) (csv_path d) ModeW) Hcl2
                    (fun _ => eq_refl)) as Hcl3.
      pose proof (others_closed_open _ (csv_path d) Hall) as Hoth2.
      pose proof (all_closed_close _ _ (csv_path d) Hoth2) as Hall2.
      set (fobjs2 := <[length fobjs1:=FileObj (csv_path d) true]>
                       (fobjs1 ++ [FileObj (csv_path d) false])) in *.
      destruct (fault env CallWriterow (calls CallWriterow)) as [e|] eqn:Ew;
        wp.
      * unfold file_close. wp. rewrite lookup_snoc_new. wp. fold fobjs2.
        split; [|eapply escapes_intro; [exact Ew|discriminate]].
        constructor; cbn;
          [reflexivity | count_solve | now apply all_closed_others |].
        apply closes_agree_close; [exact Hcl3|apply lookup_snoc_new].
      * unfold file_close. wp.
        rewrite insert_insert_eq, lookup_insert_eq. cbn [default id app].
        rewrite lookup_snoc_new. wp. fold fobjs2.
        assert (Hcl4 : closes_agree fobjs2
                  ((((tr ++ [EvFileClose cf]) ++
                     [EvFileOpen (length fobjs1) (csv_path d) ModeW]) ++
                    [EvFileWrite (length fobjs1) header]) ++
                   [EvFileClose (length fobjs1)])).
        { apply closes_agree_close; [|apply lookup_snoc_new].
          apply closes_agree_event; [exact Hcl3|reflexivity]. }
        destruct (fault env CallOpen (S (calls CallOpen))) as [e|] eqn:Eo2; wp.
        -- split; [|eapply escapes_intro; [exact Eo2|discriminate]].
           constructor; cbn;
             [reflexivity | count_solve | now apply all_closed_others
             | exact Hcl4].
        -- rewrite lookup_insert_eq. wp.
           split; [|split; [reflexivity|split; [count_solve|split;
        [reflexivity|cbn; intros Hs; survive_solve]]]].
           constructor; cbn;
             [reflexivity | count_solve | apply lookup_snoc_new | reflexivity
             | now apply others_closed_open
             | apply closes_agree_event;
               [now apply closes_agree_open|reflexivity]
             | now apply fs_grown_create
             | rewrite lookup_insert_eq; eauto].
Qed.

Lemma process_data_sat env resp conn cw today w path :
  handle_open w cw path ->
  sat (process_data env resp conn cw today) w (fun o w' =>
    sink_step path w w'
    /\ match o with
       | Returned _ =>
           calls_survived env (w_calls w) -> calls_survived env (w_calls w')
       | Raised e => escapes env e
       | Pending => False
       end).
Proof. intros Hh. unfold sat. now apply process_data_sink. Qed.

(** Proves [Held] of a world written out, from [Held] of the world it was
    made from by adding the events [evs]. *)
Ltac held_quiet H evs :=
  eapply (Held_quiet _ _ _ evs H); cbn;
  [reflexivity | reflexivity | reflexivity | reflexivity
  | rewrite <- ?app_assoc, ?app_nil_r; reflexivity | reflexivity].

(** One round of the loop takes [Running] to [Running], or leaves by an
    exception of the environment. *)
Lemma cycle_sat env fs0 conn ser k w :
  Running env fs0 k w ->
  sat (cycle env conn ser) w (fun o w' =>
    match o with
    | Returned _ => Running env fs0 (S k) w'
    | Raised e => Unwinding w' /\ escapes env e
    | Pending => False
    end).
Proof.
  destruct w as [db sd fs fobjs sr [today cf cwr] tr calls].
  intros [HH Hnow Htoday Happ Hsv]. cbn in Hnow, Htoday, Happ, Hsv.
  unfold cycle. wp. rewrite Hnow.
  match goal with |- sat _ ?w _ => set (w1 := w) end.
  assert (HH1 : Held fs0 w1) by (held_quiet HH (@nil event)).
  assert (Hsv1 : calls_survived env (w_calls w1))
    by (unfold w1; cbn; survive_solve).
  eapply sat_mono with (Q := fun o w' =>
    match o with
    | Returned _ =>
        Held fs0 w' /\ today_date (w_frame w') = clock env (S k)
        /\ count_if is_append_open (w_trace w')
           = S (day_changes (clock env) (S k))
        /\ w_calls w' CallNow = S (S k)
        /\ calls_survived env (w_calls w')
    | Raised e => Unwinding w' /\ escapes env e
    | Pending => False
    end).
  { destruct (decide (clock env (S k) <> today)) as [Hne|He].
    - eapply sat_mono; [apply (rollover_sat env fs0 _ w1 HH1)|].
      intros [[]|e|] w' H; [|exact H|exact H].
      destruct H as (H1 & H2 & H3 & H4 & H5).
      split; [exact H1|split; [exact H2|split; [|split; [|auto]]]].
      + rewrite H3. unfold w1. cbn. rewrite Happ. simpl.
        rewrite <- Htoday. rewrite decide_True by exact Hne. lia.
      + rewrite H4. unfold w1. cbn. now rewrite Hnow.
    - apply sat_ret. apply dec_stable in He.
      split; [exact HH1|split; [|split; [|split; [|exact Hsv1]]]].
      + unfold w1. cbn. congruence.
      + unfold w1. cbn. rewrite Happ. simpl.
        rewrite <- Htoday. rewrite decide_False by (intros ?; congruence). lia.
      + unfold w1. cbn. now rewrite Hnow. }
  clear w1 HH1 Hsv1 HH Hnow Htoday Happ Hsv.
  intros [[]|e|] w1 H; [|exact H|exact H].
  destruct w1 as [db1 sd1 fs1 fobjs1 ser1 [today1 cf1 cwr1] tr1 calls1].
  destruct H as (HH1 & Ht1 & Ha1 & Hn1 & Hsv1). cbn in Ht1, Ha1, Hn1, Hsv1.
  unfold read_data, send_command. wp.
  destruct (fault env CallCommand (calls1 CallCommand)) as [e|] eqn:Ec; wp.
  { split; [|eapply escapes_intro; [exact Ec|discriminate]].
    eapply Held_unwinding. held_quiet HH1 (@nil event). }
  match goal with |- sat _ ?w _ => set (w2 := w) end.
  assert (HH2 : Held fs0 w2).
  { held_quiet HH1
      [EvSerialWrite ("DATa:RECord:READ?" +:+ crlf);
       EvPrint (MsgCommand "DATa:RECord:READ?"
                  (PyStr.strip (reply env (calls1 CallCommand))));
       EvPrint (MsgDataResponse
                  (PyStr.strip (reply env (calls1 CallCommand))))]. }
  assert (Hsv2 : calls_survived env (w_calls w2))
    by (unfold w2; cbn; survive_solve).
  eapply sat_mono.
  { apply process_data_sat with (path := csv_path today1).
    destruct HH2 as [_ _ Hf Hw _ _ _ _]. unfold handle_open in *. cbn in *.
    now rewrite Hw. }
  intros o w3 [Hs Ho].
  pose proof (Held_sink _ _ _ HH2 Hs) as HH3.
  destruct o as [[]|e|];
    [|split; [eapply Held_unwinding; eauto|exact Ho]|exact Ho].
  specialize (Ho Hsv2).
  destruct Hs as [_ Hfr _ _ Hcalls _ _ _ (evs & Htr & Hev) _].
  specialize (Hcalls CallNow ltac:(discriminate) ltac:(discriminate)).
  apply forallb_sink_quiet in Hev.
  destruct w3 as [db3 sd3 fs3 fobjs3 ser3 fr3 tr3 calls3].
  cbn in Hfr, Hcalls, Htr, Ho. subst fr3 tr3.
  unfold sleep10. wp.
  destruct (fault env CallSleep (calls3 CallSleep)) as [e|] eqn:Es; wp.
  { split; [|eapply escapes_intro; [exact Es|discriminate]].
    eapply Held_unwinding. held_quiet HH3 (@nil event). }
  constructor; cbn.
  - held_quiet HH3 [EvSleep 10].
  - congruence.
  - exact Ht1.
  - rewrite count_if_snoc, !count_append_quiet by (exact Hev || reflexivity).
    cbn. rewrite Nat.add_0_r. exact Ha1.
  - survive_solve.
Qed.

Lemma Unwinding_quiet w w' evs :
  Unwinding w ->
  w_db w' = w_db w -> w_fobjs w' = w_fobjs w -> w_frame w' = w_frame w ->
  w_trace w' = w_trace w ++ evs -> forallb quiet_event evs = true ->
  Unwinding w'.
Proof.
  intros [H1 H2 H3 H4] Edb Efo Efr Etr Hq.
  constructor; rewrite ?Edb, ?Efo, ?Efr, ?Etr; auto.
  - rewrite count_if_app, (count_if_quiet _ evs quiet_not_db_close Hq). lia.
  - now apply closes_agree_quiet.
Qed.

Lemma Running_quiet env fs0 k w w' evs :
  Running env fs0 k w ->
  w_db w' = w_db w -> w_fs w' = w_fs w -> w_fobjs w' = w_fobjs w ->
  w_frame w' = w_frame w -> w_trace w' = w_trace w ++ evs ->
  forallb quiet_event evs = true ->
  w_calls w' CallNow = w_calls w CallNow ->
  calls_survived env (w_calls w') ->
  Running env fs0 k w'.
Proof.
  intros [H1 H2 H3 H4 H5] Edb Efs Efo Efr Etr Hq Ec Hsv.
  constructor.
  - eapply Held_quiet; eauto.
  - congruence.
  - congruence.
  - rewrite Etr, count_append_quiet by exact Hq. exact H4.
  - exact Hsv.
Qed.

Lemma all_closed_file_close fobjs h :
  all_closed fobjs ->
  match fobjs !! h with Some (FileObj _ false) => False | _ => True end.
Proof.
  intros H. destruct (fobjs !! h) as [[p []]|] eqn:E; auto.
  specialize (H _ _ E). discriminate.
Qed.

(** The [finally] clause of [main] releases what is held. *)
Lemma main_finally_sat conn w :
  Unwinding w ->
  sat (main_finally conn) w (fun o w' => o = Returned tt /\ Released w').
Proof.
  destruct w as [db sd fs fobjs sr [today cf cwr] tr calls].
  intros [Hdb Hdc Hoth Hcl]. cbn in *. subst db.
  unfold main_finally. wp. unfold file_close. wp.
  assert (Hfin : forall fobjs' tr',
            all_closed fobjs' -> closes_agree fobjs' tr' ->
            count_if is_db_close tr' = 0 ->
            sat (conn_close;; print MsgDbClosed)
              (mkWorld DbOpen sd fs fobjs' sr (mkFrame today cf cwr) tr' calls)
              (fun o w' => o = Returned tt /\ Released w')).
  { intros fobjs' tr' Hall Hag Hc. unfold conn_close. wp.
    split; [reflexivity|]. constructor; cbn.
    - exact Hall.
    - intros h Hh. rewrite !count_if_snoc. cbn. rewrite !Nat.add_0_r, Hag.
      destruct (lookup_lt_is_Some_2 _ _ Hh) as [[p b] E]. rewrite E.
      specialize (Hall _ _ E). cbn in Hall. now subst b.
    - reflexivity.
    - count_solve. }
  destruct (fobjs !! cf) as [[p []]|] eqn:E; wp.
  - apply Hfin; auto. intros h fo Hl.
    destruct (decide (h = cf)) as [->|Hne]; [|eapply Hoth; eauto].
    rewrite E in Hl. now injection Hl as <-.
  - apply Hfin.
    + now apply all_closed_close.
    + now apply closes_agree_close.
    + count_solve.
  - apply Hfin; auto. intros h fo Hl.
    destruct (decide (h = cf)) as [->|Hne]; [|eapply Hoth; eauto].
    congruence.
Qed.

Ltac unwinding_quiet H evs :=
  eapply (Unwinding_quiet _ _ evs H); cbn;
  [reflexivity | reflexivity | reflexivity
  | rewrite <- ?app_assoc, ?app_nil_r; reflexivity
  | first [reflexivity | eassumption]].

Lemma guarded_sat env fs0 conn fuel w :
  Running env fs0 0 w ->
  sat (try_finally
         (try_except
            (with_serial env (fun ser =>
               print MsgSerialOpen ;;
               while_true fuel (cycle env conn ser)))
            main_handles main_handler)
         (main_finally conn)) w
    (fun o w' =>
       match o with
       | Pending => Running env fs0 fuel w'
       | Returned _ => (exists e, escapes env e) /\ Released w'
       | Raised e => escapes env e /\ Released w'
       end).
Proof.
  destruct w as [db sd fs fobjs sr [today cf cwr] tr calls].
  intros HR. pose proof (Held_unwinding _ _ (run_held _ _ _ _ HR)) as HU.
  apply sat_try_finally. unfold with_serial. wp.
  destruct (fault env CallSerial (calls CallSerial)) as [e|] eqn:Es.
  - (* the port cannot be opened *)
    assert (Hesc : escapes env e)
      by (eapply escapes_intro; [exact Es|discriminate]).
    assert (Hfin : forall evs, forallb quiet_event evs = true ->
      sat (main_finally conn)
        (mkWorld db sd fs fobjs sr (mkFrame today cf cwr) (tr ++ evs)
           (fun c' => (if call_eqb c' CallSerial then S else fun n => n) (calls c')))
        (fun o w' => o = Returned tt /\ Released w')).
    { intros evs Hq. apply main_finally_sat. unwinding_quiet HU evs. }
    unfold main_handles, main_handler.
    destruct (is_exn SerialException e) eqn:E1; cbn [orb]; wp.
    + eapply sat_mono; [apply (Hfin [EvPrint MsgSerialError] eq_refl)|].
      intros o w' [-> H]. eauto.
    + destruct (is_exn PermissionError e) eqn:E2; wp.
      * eapply sat_mono; [apply (Hfin [EvPrint MsgPermissionError] eq_refl)|].
        intros o w' [-> H]. eauto.
      * eapply sat_mono.
        { specialize (Hfin [] eq_refl). rewrite app_nil_r in Hfin. apply Hfin. }
        intros o w' [-> H]. eauto.
  - (* the port is open: the loop *)
    wp.
    match goal with |- sat _ ?w _ => set (w1 := w) end.
    assert (HR1 : Running env fs0 0 w1).
    { pose proof (run_calls _ _ _ _ HR) as Hsv. cbn in Hsv.
      eapply (Running_quiet _ _ _ _ _ [EvSerialOpen; EvPrint MsgSerialOpen] HR);
        cbn; try reflexivity; [now rewrite <- app_assoc|survive_solve]. }
    eapply sat_mono;
      [apply (sat_while (cycle env conn Ser) (Running env fs0)
                (fun e w' => Unwinding w' /\ escapes env e)
                (fun k w' H => cycle_sat env fs0 conn Ser k w' H)
                fuel 0 w1 HR1)|].
    intros [[]|e|] w2 H; [tauto| |exact H].
    destruct H as [HU2 Hesc]. destruct w2 as [db2 sd2 fs2 fobjs2 sr2 fr2 tr2 calls2].
    wp.
    assert (Hfin : forall evs, forallb quiet_event evs = true ->
      sat (main_finally conn)
        (mkWorld db2 sd2 fs2 fobjs2 false fr2 ((tr2 ++ [EvSerialClose]) ++ evs) calls2)
        (fun o w' => o = Returned tt /\ Released w')).
    { intros evs Hq. apply main_finally_sat.
      eapply (Unwinding_quiet _ _ ([EvSerialClose] ++ evs) HU2); cbn; try reflexivity.
      - now rewrite <- app_assoc.
      - exact Hq. }
    unfold main_handles, main_handler.
    destruct (is_exn SerialException e) eqn:E1; cbn [orb]; wp.
    + eapply sat_mono; [apply (Hfin [EvPrint MsgSerialError] eq_refl)|].
      intros o w' [-> H]. eauto.
    + destruct (is_exn PermissionError e) eqn:E2; wp.
      * eapply sat_mono; [apply (Hfin [EvPrint MsgPermissionError] eq_refl)|].
        intros o w' [-> H]. eauto.
      * eapply sat_mono.
        { specialize (Hfin [] eq_refl). rewrite app_nil_r in Hfin. apply Hfin. }
        intros o w' [-> H]. eauto.
Qed.

Lemma file_close_noop h w (Q : outcome unit -> World -> Prop) :
  all_closed (w_fobjs w) -> Q (Returned tt) w -> sat (file_close h) w Q.
Proof.
  intros Hall HQ. unfold file_close. apply sat_bind, sat_gets.
  pose proof (all_closed_file_close _ h Hall) as H.
  destruct (w_fobjs w !! h) as [[p []]|]; [exact HQ|tauto|exact HQ].
Qed.

Lemma all_closed_nil : all_closed [].
Proof. intros h fo H. now rewrite lookup_nil in H. Qed.

Lemma closes_agree_fresh tr :
  forallb quiet_event tr = true -> closes_agree [] tr.
Proof.
  intros Hq h. rewrite lookup_nil.
  apply (count_if_quiet _ tr (quiet_not_file_close h) Hq).
Qed.

Lemma released_exited w : Released w -> Exited w.
Proof. intros H. split; [apply (rel_files _ H)|auto]. Qed.

(** [main] from the reading of the clock on. *)
Lemma main_body_sat env fuel fs0 conn w :
  Booted env fs0 w ->
  sat (today <- datetime_now_date env ;;
       set_today_date today ;;
       there <- os_path_exists (csv_path today) ;;
       (if negb there then
          with_open env (csv_path today) ModeW (fun f =>
            set_csvfile f ;;
            set_csv_writer f ;;
            writerow env f header)
        else ret tt) ;;
       with_open env (csv_path today) ModeA (fun f =>
         set_csvfile f ;;
         set_csv_writer f ;;
         try_finally
           (try_except
              (with_serial env (fun ser =>
                 print MsgSerialOpen ;;
                 while_true fuel (cycle env conn ser)))
              main_handles main_handler)
           (main_finally conn))) w
    (fun o w' =>
       match o with
       | Pending => Running env fs0 fuel w'
       | Returned _ => (exists e, escapes env e) /\ Exited w'
       | Raised e => escapes env e /\ Exited w'
       end).
Proof.
  destruct w as [db sd fs fobjs sr fr tr calls].
  intros [Hdb Hfo Hfs Hq Hnow Hsv]. cbn in *. subst db fobjs fs.
  pose proof (closes_agree_fresh _ Hq) as Hcl0.
  pose proof (count_if_quiet _ tr quiet_not_db_close Hq) as Hdc0.
  pose proof (count_if_quiet _ tr quiet_not_append_open Hq) as Hap0.
  wp. rewrite Hnow. set (path := csv_path (clock env 0)).
  assert (Hguard : forall w1,
    Running env fs0 0 w1 -> forall h,
    sat (try_finally
           (try_except
              (with_serial env (fun ser =>
                 print MsgSerialOpen ;;
                 while_true fuel (cycle env conn ser)))
              main_handles main_handler)
           (main_finally conn)) w1
      (fun o w' =>
         match o with
         | Pending => Running env fs0 fuel w'
         | _ =>
             sat (file_close h) w' (fun o' w'' =>
               match o' with
               | Returned _ =>
                   match o with
                   | Pending => Running env fs0 fuel w''
                   | Returned _ => (exists e, escapes env e) /\ Exited w''
                   | Raised e => escapes env e /\ Exited w''
                   end
               | Raised e => escapes env e /\ Exited w''
               | Pending => Running env fs0 fuel w''
               end)
         end)).
  { intros w1 HR h. eapply sat_mono; [apply (guarded_sat env fs0 conn fuel w1 HR)|].
    intros [[]|e|] w' H; [| |exact H].
    - destruct H as [He Hrel]. apply file_close_noop; [apply (rel_files _ Hrel)|].
      split; [exact He|now apply released_exited].
    - destruct H as [He Hrel]. apply file_close_noop; [apply (rel_files _ Hrel)|].
      split; [exact He|now apply released_exited]. }
  destruct (bool_decide_reflect (is_Some (fs0 !! path))) as [Hex|Hex];
    cbn [negb]; wp.
  - (* the file of the day is there *)
    unfold with_open, open_file. wp.
    destruct (fault env CallOpen (calls CallOpen)) as [e|] eqn:Eo; wp.
    + split; [eapply escapes_intro; [exact Eo|discriminate]|].
      split; cbn; [apply all_closed_nil|lia].
    + destruct Hex as [rows Hrows]. rewrite Hrows. wp.
      cbn [length]. apply Hguard.
      constructor; cbn;
        [|now rewrite Hnow|reflexivity|count_solve|survive_solve].
      constructor; cbn;
        [reflexivity | count_solve | reflexivity | reflexivity
        | apply (others_closed_open [] path), all_closed_nil
        | apply closes_agree_event;
          [apply (closes_agree_open [] _ path Hcl0)|reflexivity]
        | apply fs_grown_refl | fold path; eauto].
  - (* the file of the day is missing *)
    assert (Hnone : fs0 !! path = None).
    { destruct (fs0 !! path) eqn:E; [|reflexivity]. exfalso. eauto. }
    unfold with_open at 1. unfold open_file. wp.
    destruct (fault env CallOpen (calls CallOpen)) as [e|] eqn:Eo; wp.
    + split; [eapply escapes_intro; [exact Eo|discriminate]|].
      split; cbn; [apply all_closed_nil|lia].
    + cbn [length]. unfold writerow. wp. cbn [lookup list_lookup app]. wp.
      destruct (fault env CallWriterow (calls CallWriterow)) as [e|] eqn:Ew;
        wp.
      * unfold file_close. wp. cbn [lookup list_lookup app]. wp.
        split; [eapply escapes_intro; [exact Ew|discriminate]|].
        split; cbn; [|rewrite !count_if_snoc; cbn; lia].
        intros [|[|h]] fo; cbn; [intros [= <-]; reflexivity|discriminate..].
      * unfold file_close. wp. cbn [lookup list_lookup app]. wp.
        rewrite insert_insert_eq, lookup_insert_eq. cbn [default id app].
        unfold with_open, open_file. wp.
        assert (Hall1 : all_closed [FileObj path true]).
        { intros [|[|h]] fo; cbn; [intros [= <-]; reflexivity|discriminate..]. }
        destruct (fault env CallOpen (S (calls CallOpen))) as [e|] eqn:Eo2; wp.
        -- split; [eapply escapes_intro; [exact Eo2|discriminate]|].
           split; cbn; [exact Hall1|rewrite !count_if_snoc; cbn; lia].
        -- rewrite lookup_insert_eq. wp. cbn [length app]. apply Hguard.
           constructor; cbn;
        [|now rewrite Hnow|reflexivity|count_solve|survive_solve].
           constructor; cbn;
             [reflexivity | count_solve | reflexivity | reflexivity
             | apply (others_closed_open [FileObj path true] path Hall1)
             | | apply fs_grown_create; [apply fs_grown_refl|exact Hnone]
             | rewrite lookup_insert_eq; eauto].
           apply closes_agree_event; [|reflexivity].
           apply (closes_agree_open [FileObj path true]).
           apply (closes_agree_close [FileObj path false] _ 0 path);
             [|reflexivity].
           apply closes_agree_event; [|reflexivity].
           apply closes_agree_event; [|reflexivity].
           apply (closes_agree_open [] _ path Hcl0).
Qed.

(** [main]: still in its loop with [Running], or out with [Exited] by an
    exception that the environment raised. *)
Lemma main_sat env fuel fs0 :
  sat (main env fuel) (initial_world fs0) (fun o w =>
    match o with
    | Pending => Running env fs0 fuel w
    | Returned _ => (exists e, escapes env e) /\ Exited w
    | Raised e => escapes env e /\ Exited w
    end).
Proof.
  unfold main, connect_to_db, initial_world. wp.
  destruct (fault env CallConnect 0) as [e|] eqn:Ec; wp.
  { (* no connection *)
    assert (Hesc : escapes env e)
      by (eapply escapes_intro; [exact Ec|discriminate]).
    destruct (is_exn Psycopg2Error e); wp;
      (split; [eauto|]); (split; cbn; [apply all_closed_nil|lia]). }
  unfold create_table_if_not_exists. wp.
  destruct (fault env CallCreateTable 0) as [e|] eqn:Et.
  - destruct (is_exn Psycopg2Error e) eqn:Ee.
    + do 3 wp1. apply main_body_sat.
      constructor; cbn; [reflexivity..|].
      intros c k e' Hc Hk Hf. destruct c; cbn in Hk; try lia; try congruence;
        (replace k with 0 in Hf by lia); [congruence|].
      rewrite Et in Hf. injection Hf as <-.
      destruct e; try discriminate; reflexivity.
    + split; [eapply escapes_intro; [exact Et|discriminate]|].
      split; cbn; [apply all_closed_nil|lia].
  - wp1. apply main_body_sat.
    constructor; cbn; [reflexivity..|].
    intros c k e' Hc Hk Hf. destruct c; cbn in Hk; try lia; try congruence;
      (replace k with 0 in Hf by lia); congruence.
Qed.

(** ** The parser *)

Lemma omap_length_filter {A B} (f : A -> option B) (l : list A) :
  length (omap f l)
  + length (List.filter (fun x => negb (has_value (f x))) l)
  = length l.
Proof.
  unfold omap. induction l as [|x l IH]; simpl; [reflexivity|].
  destruct (f x); simpl; lia.
Qed.

Lemma filter_malformed lines :
  List.filter malformed lines
  = List.filter (fun l => negb (has_value (parse_line l))) lines.
Proof.
  apply List.filter_ext. intros l.
  destruct (parse_line l) eqn:E; simpl.
  - destruct (malformed l) eqn:M; [|reflexivity].
    apply parse_line_None in M. congruence.
  - now apply parse_line_None.
Qed.

Lemma omap_well_formed lines :
  Forall2 (fun l r => parse_line l = Some r)
    (List.filter (fun l => negb (malformed l)) lines)
    (omap parse_line lines).
Proof.
  unfold omap. induction lines as [|l lines IH]; simpl; [constructor|].
  destruct (parse_line l) as [r|] eqn:E.
  - destruct (malformed l) eqn:M.
    + apply parse_line_None in M. congruence.
    + simpl. now constructor.
  - apply parse_line_None in E. rewrite E. simpl. exact IH.
Qed.

(** The loop body of [process_data] when neither sink fails. *)
Lemma process_line_clean env conn cw line w path :
  handle_open w cw path ->
  fault env CallInsert (w_calls w CallInsert) = None ->
  fault env CallWriterow (w_calls w CallWriterow) = None ->
  exists w',
    process_line env conn cw line w = (Returned tt, w')
    /\ w_fobjs w' = w_fobjs w
    /\ w_sensor_data w' = w_sensor_data w ++ option_list (parse_line line)
    /\ file_rows (w_fs w') path
       = file_rows (w_fs w) path
         ++ map data_row (option_list (parse_line line))
    /\ w_trace w' = w_trace w ++ line_events cw line.
Proof.
  unfold handle_open. intros Hh Hi Hw. rewrite process_line_unfold.
  unfold line_events. destruct (parse_line line) as [r|].
  - unfold_prog. simpl. rewrite Hi. simpl. rewrite Hh. simpl.
    rewrite Hw. simpl. eexists. split; [reflexivity|]. simpl.
    rewrite file_rows_insert. destruct r. simpl.
    repeat split. now rewrite <- !app_assoc.
  - unfold_prog. simpl. eexists. split; [reflexivity|]. simpl.
    rewrite !app_nil_r. repeat split. now rewrite <- !app_assoc.
Qed.

Lemma omap_cons_list {A B} (f : A -> option B) (x : A) (l : list A) :
  omap f (x :: l) = option_list (f x) ++ omap f l.
Proof. unfold omap. simpl. now destruct (f x). Qed.

(** [process_data] when neither sink fails: every reading of the response
    goes to both sinks, in the order of the lines. *)
Lemma for_each_clean env conn cw path lines :
  (forall n, fault env CallInsert n = None) ->
  (forall n, fault env CallWriterow n = None) ->
  forall w, handle_open w cw path ->
  exists w',
    for_each lines (process_line env conn cw) w = (Returned tt, w')
    /\ w_fobjs w' = w_fobjs w
    /\ w_sensor_data w' = w_sensor_data w ++ omap parse_line lines
    /\ file_rows (w_fs w') path
       = file_rows (w_fs w) path ++ map data_row (omap parse_line lines)
    /\ w_trace w' = w_trace w ++ flat_map (line_events cw) lines.
Proof.
  intros Hi Hw. induction lines as [|line lines IH]; intros w Hh.
  - exists w. cbn. rewrite !app_nil_r. auto.
  - destruct (process_line_clean env conn cw line w path Hh (Hi _) (Hw _))
      as (w1 & E1 & F1 & D1 & R1 & T1).
    assert (Hh1 : handle_open w1 cw path)
      by (unfold handle_open in *; now rewrite F1).
    destruct (IH w1 Hh1) as (w2 & E2 & F2 & D2 & R2 & T2).
    exists w2. rewrite omap_cons_list, map_app.
    cbn [for_each flat_map]. unfold bind. rewrite E1, E2.
    split; [reflexivity|]. split; [congruence|].
    split; [now rewrite D2, D1, app_assoc|].
    split; [now rewrite R2, R1, app_assoc|].
    now rewrite T2, T1, app_assoc.
Qed.

(** ** The claims *)





(** C9.  The empty text has no lines, so [process_data] on an empty
    response is the program that does nothing: no reading, no call of a
    sink, nothing printed.  A round of the loop that sees no change of
    date and reads a response that is empty once stripped leaves the table
    and every file as they were, calls no sink and writes to none, though
    it calls [process_data] all the same. *)
Theorem empty_response_writes_nothing :
  PyStr.splitlines "" = []
  /\ parse "" = []
  /\ (forall env conn csv_writer today w,
        process_data env "" conn csv_writer today w = (Returned tt, w))
  /\ (forall env conn ser w,
        clock env (w_calls w CallNow) = today_date (w_frame w) ->
        fault env CallCommand (w_calls w CallCommand) = None ->
        PyStr.strip (reply env (w_calls w CallCommand)) = "" ->
        let w' := (cycle env conn ser w).2 in
        w_sensor_data w' = w_sensor_data w
        /\ w_fs w' = w_fs w
        /\ w_calls w' CallInsert = w_calls w CallInsert
        /\ w_calls w' CallWriterow = w_calls w CallWriterow
        /\ count_if is_sink_write (w_trace w')
           = count_if is_sink_write (w_trace w)).
Proof.
  split; [reflexivity|]. split; [reflexivity|].
  split; [reflexivity|].
  intros env conn ser w Hc Hf Hr. cbv zeta.
  unfold cycle, read_data, send_command, sleep10, datetime_now_date.
  unfold_prog. simpl. rewrite Hc.
  rewrite decide_False by (intros H; now apply H).
  simpl. rewrite Hf. simpl. rewrite Hr. simpl.
  destruct (fault env CallSleep (w_calls w CallSleep)); simpl;
    rewrite ?count_if_snoc; simpl; repeat split; lia.
Qed.

Lemma empty_response_writes_nothing_witness :
  let w := with_frame (mkFrame (Date 2024 1 1) 0 0)
             (with_calls (fun _ => 1) (initial_world ∅)) in
  w_sensor_data (cycle calm_env Conn Ser w).2 = []
  /\ w_fs (cycle calm_env Conn Ser w).2 = ∅.
Proof.
  cbv zeta.
  destruct (proj2 (proj2 (proj2 empty_response_writes_nothing)) calm_env
              Conn Ser
              (with_frame (mkFrame (Date 2024 1 1) 0 0)
                 (with_calls (fun _ => 1) (initial_world ∅))))
    as (H1 & H2 & _); [reflexivity..|].
  split; [exact H1|exact H2].
Defined.





Lemma day_changes_boundaries clk n :
  daily_clock clk n ->
  Z.of_nat (day_changes clk n) = (date_ordinal (clk n) - date_ordinal (clk O))%Z.
Proof.
  induction n as [|n IH]; intros H; simpl; [lia|].
  assert (Hn : daily_clock clk n) by (intros k Hk; apply H; lia).
  specialize (IH Hn). destruct (H n ltac:(lia)) as [E|E].
  - rewrite decide_False by (intros Hne; now apply Hne). rewrite E. lia.
  - rewrite decide_True by (intros Heq; rewrite Heq in E; lia). lia.
Qed.

(** C5.  While [main] is in its loop, after any number of rounds: the
    file object [csvfile] is open on the file named after [today_date],
    [csv_writer] writes to it, and no other file object is open;
    [today_date] is the date of the last reading of the clock, which was
    read once before the loop and once per round; the file was opened for
    appending once at the start and once more for every round that saw
    another date than the reading before it, which is once per day
    boundary when the clock moves by at most a day per round; a file that
    was there at the start has kept its rows and gained rows of readings
    only, and any other file holds the header row once, at its head. *)
Theorem rotation_invariant env fuel fs :
  (main env fuel (initial_world fs)).1 = Pending ->
  let w := (main env fuel (initial_world fs)).2 in
  handle_open w (csvfile (w_frame w)) (csv_path (today_date (w_frame w)))
  /\ csv_writer (w_frame w) = csvfile (w_frame w)
  /\ others_closed (w_fobjs w) (csvfile (w_frame w))
  /\ closes_agree (w_fobjs w) (w_trace w)
  /\ w_calls w CallNow = S fuel
  /\ today_date (w_frame w) = clock env fuel
  /\ count_if is_append_open (w_trace w) = S (day_changes (clock env) fuel)
  /\ (daily_clock (clock env) fuel ->
      Z.of_nat (count_if is_append_open (w_trace w))
      = (1 + (date_ordinal (clock env fuel) - date_ordinal (clock env 0)))%Z)
  /\ fs_grown fs (w_fs w).
Proof.
  intros Hp. cbv zeta. pose proof (main_sat env fuel fs) as H.
  unfold sat in H. rewrite Hp in H.
  destruct H as [[H1 H2 H3 H4 H5 H6 H7 H8] Hnow Htoday Happ Hsv].
  repeat split; auto.
  intros Hd. rewrite Happ, Nat2Z.inj_succ, day_changes_boundaries by exact Hd.
  lia.
Qed.

Lemma rotation_invariant_witness :
  let w := (main calm_env 3 (initial_world ∅)).2 in
  handle_open w 3 "sensor_dataset_2024-01-02.csv"
  /\ count_if is_append_open (w_trace w) = 2
  /\ fs_grown ∅ (w_fs w).
Proof.
  cbv zeta.
  assert (Hp : (main calm_env 3 (initial_world ∅)).1 = Pending)
    by (vm_compute; reflexivity).
  destruct (rotation_invariant calm_env 3 ∅ Hp)
    as (H1 & _ & _ & _ & _ & _ & H7 & _ & H9).
  split; [exact H1|]. split; [exact H7|exact H9].
Defined.



Lemma only_faults_quiet env :
  only_faults env CallInsert Psycopg2Error -> forall e, ~ escapes env e.
Proof.
  intros H e (c & n & Hf & Hn). apply Hn. exact (H c n e Hf).
Qed.

Lemma never_escapes_keeps_running env :
  (forall e, ~ escapes env e) -> keeps_running env.
Proof.
  intros H fuel fs. pose proof (main_sat env fuel fs) as Hs.
  unfold sat in Hs.
  destruct (main env fuel (initial_world fs)).1 as [[]|e|].
  - destruct Hs as [[e He] _]. now destruct (H e).
  - destruct Hs as [He _]. now destruct (H e).
  - reflexivity.
Qed.

Lemma process_line_insert_fails env conn cw line r w path :
  parse_line line = Some r ->
  handle_open w cw path ->
  fault env CallInsert (w_calls w CallInsert) = Some Psycopg2Error ->
  fault env CallWriterow (w_calls w CallWriterow) = None ->
  exists w',
    process_line env conn cw line w = (Returned tt, w')
    /\ w_fobjs w' = w_fobjs w
    /\ w_calls w' CallInsert = S (w_calls w CallInsert)
    /\ w_sensor_data w' = w_sensor_data w
    /\ file_rows (w_fs w') path = file_rows (w_fs w) path ++ [data_row r]
    /\ w_trace w'
       = w_trace w ++ [EvPrint (MsgProcessingLine line); EvPrint MsgInsertError;
                       EvDbRollback; EvFileWrite cw (data_row r);
                       EvPrint MsgAppended].
Proof.
  unfold handle_open. intros Hp Hh Hi Hw. rewrite process_line_unfold.
  rewrite Hp. unfold_prog. simpl. rewrite Hi. simpl. rewrite Hh. simpl.
  rewrite Hw. simpl. eexists. split; [reflexivity|]. simpl.
  rewrite file_rows_insert. destruct r. simpl.
  repeat split. now rewrite <- !app_assoc.
Qed.

Lemma process_line_clean_calls env conn cw line w path :
  handle_open w cw path ->
  fault env CallInsert (w_calls w CallInsert) = None ->
  fault env CallWriterow (w_calls w CallWriterow) = None ->
  w_calls (process_line env conn cw line w).2 CallInsert
  = length (option_list (parse_line line)) + w_calls w CallInsert.
Proof.
  unfold handle_open. intros Hh Hi Hw. rewrite process_line_unfold.
  destruct (parse_line line) as [r|].
  - unfold_prog. simpl. rewrite Hi. simpl. rewrite Hh. simpl.
    rewrite Hw. simpl. reflexivity.
  - unfold_prog. simpl. reflexivity.
Qed.

Lemma for_each_db_faults env conn cw path lines :
  only_faults env CallInsert Psycopg2Error ->
  forall w, handle_open w cw path ->
  exists w',
    for_each lines (process_line env conn cw) w = (Returned tt, w')
    /\ w_fobjs w' = w_fobjs w
    /\ w_sensor_data w'
       = w_sensor_data w
         ++ committed env (w_calls w CallInsert) (omap parse_line lines)
    /\ file_rows (w_fs w') path
       = file_rows (w_fs w) path ++ map data_row (omap parse_line lines).
Proof.
  intros Ho. induction lines as [|line lines IH]; intros w Hh.
  - exists w. cbn. rewrite !app_nil_r. auto.
  - assert (Hw : fault env CallWriterow (w_calls w CallWriterow) = None).
    { destruct (fault env CallWriterow _) as [e|] eqn:E; [|reflexivity].
      destruct (Ho _ _ _ E); discriminate. }
    rewrite omap_cons_list.
    destruct (fault env CallInsert (w_calls w CallInsert)) as [e|] eqn:Hi.
    + destruct (Ho _ _ _ Hi) as [_ ->].
      destruct (parse_line line) as [r|] eqn:Hp.
      * destruct (process_line_insert_fails env conn cw line r w path
                    Hp Hh Hi Hw) as (w1 & E1 & F1 & C1 & D1 & R1 & T1).
        assert (Hh1 : handle_open w1 cw path)
          by (unfold handle_open in *; now rewrite F1).
        destruct (IH w1 Hh1) as (w2 & E2 & F2 & D2 & R2).
        exists w2. cbn [for_each]. unfold bind. rewrite E1, E2.
        split; [reflexivity|]. split; [congruence|].
        cbn [option_list app committed map]. rewrite Hi.
        split; [now rewrite D2, D1, C1|].
        rewrite R2, R1, <- app_assoc. reflexivity.
      * assert (E1 : process_line env conn cw line w
                     = (Returned tt,
                        with_trace (w_trace w ++
                          [EvPrint (MsgProcessingLine line);
                           EvPrint (skip_message line)]) w)).
        { rewrite process_line_unfold, Hp. unfold_prog. simpl.
          now rewrite <- app_assoc. }
        destruct (IH (with_trace (w_trace w ++
                          [EvPrint (MsgProcessingLine line);
                           EvPrint (skip_message line)]) w) Hh)
          as (w2 & E2 & F2 & D2 & R2).
        exists w2. cbn [for_each]. unfold bind. rewrite E1, E2.
        split; [reflexivity|]. split; [exact F2|].
        cbn [option_list app map]. split; [exact D2|exact R2].
    + destruct (process_line_clean env conn cw line w path Hh Hi Hw)
        as (w1 & E1 & F1 & D1 & R1 & T1).
      pose proof (process_line_clean_calls env conn cw line w path Hh Hi Hw)
        as C1. rewrite E1 in C1. cbn [snd] in C1.
      assert (Hh1 : handle_open w1 cw path)
        by (unfold handle_open in *; now rewrite F1).
      destruct (IH w1 Hh1) as (w2 & E2 & F2 & D2 & R2).
      exists w2. cbn [for_each]. unfold bind. rewrite E1, E2.
      split; [reflexivity|]. split; [congruence|].
      rewrite map_app. split.
      * rewrite D2, D1, C1, <- app_assoc. f_equal.
        destruct (parse_line line) as [r|]; simpl;
          [now rewrite Hi|reflexivity].
      * now rewrite R2, R1, app_assoc.
Qed.



Lemma process_line_write_fails env conn cw line r w path e :
  parse_line line = Some r ->
  handle_open w cw path ->
  fault env CallInsert (w_calls w CallInsert) = None ->
  fault env CallWriterow (w_calls w CallWriterow) = Some e ->
  exists w',
    process_line env conn cw line w
    = (if is_exn ValueError e then Returned tt else Raised e, w')
    /\ w_sensor_data w' = w_sensor_data w ++ [r]
    /\ w_fs w' = w_fs w
    /\ w_trace w'
       = w_trace w ++ [EvPrint (MsgProcessingLine line); EvDbCommit r;
                       EvPrint MsgInserted]
         ++ (if is_exn ValueError e then [EvPrint MsgFloatError] else []).
Proof.
  unfold handle_open. intros Hp Hh Hi Hw. rewrite process_line_unfold.
  rewrite Hp. unfold_prog. simpl. rewrite Hi. simpl. rewrite Hh. simpl.
  rewrite Hw. simpl. destruct r. simpl.
  destruct (bool_decide (e = ValueError)); simpl;
    (eexists; split; [reflexivity|]); simpl;
    repeat split; now rewrite <- !app_assoc.
Qed.

(** C4.  A [writerow] that fails while a reading is written, with another
    exception than [ValueError], is not survived: the exception leaves
    [process_data] with the lines after it unread, nothing is printed for
    it, and the file is as it was; the reading was committed to the table
    before, and stays there.  A [ValueError] from [writerow] is the one
    failure that is caught: it is printed as a failed conversion and the
    next line is read.  And as long as [main] is in its loop, no
    [writerow] has failed with anything but [ValueError] and no [open] has
    failed at all: a failed write or change of file ends the loop. *)
Theorem file_failure_ends_the_loop env :
  (forall conn cw path line r w e,
      parse_line line = Some r ->
      handle_open w cw path ->
      fault env CallInsert (w_calls w CallInsert) = None ->
      fault env CallWriterow (w_calls w CallWriterow) = Some e ->
      e <> ValueError ->
      exists w',
        (forall rest,
            for_each (line :: rest) (process_line env conn cw) w
            = (Raised e, w'))
        /\ w_sensor_data w' = w_sensor_data w ++ [r]
        /\ w_fs w' = w_fs w
        /\ w_trace w'
           = w_trace w ++ [EvPrint (MsgProcessingLine line); EvDbCommit r;
                           EvPrint MsgInserted])
  /\ (forall conn cw path line r w,
        parse_line line = Some r ->
        handle_open w cw path ->
        fault env CallInsert (w_calls w CallInsert) = None ->
        fault env CallWriterow (w_calls w CallWriterow) = Some ValueError ->
        exists w',
          process_line env conn cw line w = (Returned tt, w')
          /\ w_sensor_data w' = w_sensor_data w ++ [r]
          /\ w_fs w' = w_fs w
          /\ w_trace w'
             = w_trace w ++ [EvPrint (MsgProcessingLine line); EvDbCommit r;
                             EvPrint MsgInserted; EvPrint MsgFloatError])
  /\ (forall fuel fs,
        (main env fuel (initial_world fs)).1 = Pending ->
        let w := (main env fuel (initial_world fs)).2 in
        (forall n e, n < w_calls w CallWriterow ->
                     fault env CallWriterow n = Some e -> e = ValueError)
        /\ (forall n, n < w_calls w CallOpen -> fault env CallOpen n = None)).
Proof.
  split; [|split].
  - intros conn cw path line r w e Hp Hh Hi Hw He.
    destruct (process_line_write_fails env conn cw line r w path e
                Hp Hh Hi Hw) as (w' & E & D & F & T).
    unfold is_exn in E, T. rewrite bool_decide_eq_false_2 in E, T by exact He.
    exists w'. rewrite app_nil_r in T. split; [|auto].
    intros rest. cbn [for_each]. unfold bind. now rewrite E.
  - intros conn cw path line r w Hp Hh Hi Hw.
    destruct (process_line_write_fails env conn cw line r w path ValueError
                Hp Hh Hi Hw) as (w' & E & D & F & T).
    exists w'. auto.
  - intros fuel fs Hp. cbv zeta. pose proof (main_sat env fuel fs) as H.
    unfold sat in H. rewrite Hp in H. destruct H as [_ _ _ _ Hs]. split.
    + intros n e Hn Hf.
      pose proof (Hs CallWriterow n e ltac:(discriminate) Hn Hf) as S.
      destruct e; simpl in S; congruence.
    + intros n Hn. destruct (fault env CallOpen n) as [e|] eqn:Hf; [|easy].
      pose proof (Hs CallOpen n e ltac:(discriminate) Hn Hf) as S.
      destruct e; simpl in S; congruence.
Qed.

Lemma file_failure_ends_the_loop_witness :
  exists w',
    for_each [scenario_line; scenario_line]
      (process_line disk_full_env Conn 0)
      (with_calls (fun _ => 1)
         (with_fobjs [FileObj "sensor_dataset_2024-01-01.csv" false]
            (initial_world ∅)))
    = (Raised OSError, w')
    /\ length (w_sensor_data w') = 1
    /\ w_fs w' = ∅.
Proof.
  destruct (parse_line scenario_line) as [r|] eqn:Hp;
    [|vm_compute in Hp; discriminate].
  destruct (proj1 (file_failure_ends_the_loop disk_full_env) Conn 0
              "sensor_dataset_2024-01-01.csv" scenario_line r
              (with_calls (fun _ => 1)
                 (with_fobjs [FileObj "sensor_dataset_2024-01-01.csv" false]
                    (initial_world ∅)))
              OSError Hp)
    as (w' & E & D & F & _);
    [reflexivity|reflexivity|reflexivity|discriminate|].
  exists w'. split; [apply E|]. split; [now rewrite D|exact F].
Defined.

(** C4, as claimed, fails: the header is written, the first reading is
    committed to the table, its [writerow] raises [OSError], and [main]
    ends with that exception in the first round, the second line of the
    response unread. *)
Lemma file_failure_ends_the_run :
  only_faults disk_full_env CallWriterow OSError
  /\ (main disk_full_env 1 (initial_world ∅)).1 = Raised OSError
  /\ length (parse (reply disk_full_env 0)) = 2
  /\ length (w_sensor_data (main disk_full_env 1 (initial_world ∅)).2) = 1
  /\ file_rows (w_fs (main disk_full_env 1 (initial_world ∅)).2)
       "sensor_dataset_2024-01-01.csv" = [header]
  /\ ~ file_failure_is_recoverable.
Proof.
  assert (Ho : only_faults disk_full_env CallWriterow OSError).
  { intros c n e. destruct c; simpl; try discriminate.
    destruct n as [|[|n]]; try discriminate. intros H. inversion H.
    now split. }
  split; [exact Ho|]. repeat (split; [vm_compute; reflexivity|]).
  intros H. specialize (H disk_full_env Ho 1 ∅). vm_compute in H.
  discriminate.
Qed.

Lemma transport_open_failure_sat env fuel fs e :
  e = SerialException \/ e = PermissionError ->
  fault env CallSerial 0 = Some e ->
  (forall c n, c <> CallSerial -> fault env c n = None) ->
  sat (main env fuel) (initial_world fs) (fun o w =>
    o = Returned tt
    /\ In (EvPrint (transport_message e)) (w_trace w)
    /\ w_db w = DbClosed
    /\ all_closed (w_fobjs w)
    /\ w_sensor_data w = []
    /\ w_calls w CallCommand = 0
    /\ w_fs w = match fs !! csv_path (clock env 0) with
                | Some _ => fs
                | None => <[csv_path (clock env 0) := [header]]> fs
                end).
Proof.
  intros He Hs Hn.
  unfold main, connect_to_db, create_table_if_not_exists, initial_world. wp.
  rewrite (Hn CallConnect) by discriminate. wp.
  rewrite (Hn CallCreateTable) by discriminate. wp.
  destruct (fs !! csv_path (clock env 0)) as [rows|] eqn:Hf.
  - rewrite bool_decide_eq_true_2 by eauto. cbn [negb]. wp.
    unfold with_open, open_file. wp.
    rewrite (Hn CallOpen) by discriminate. wp.
    apply sat_try_finally. wp. unfold with_serial. wp. rewrite Hs. wp.
    rewrite Hf.
    destruct He as [-> | ->]; unfold main_handles, main_handler,
      transport_message, is_exn; simpl; wp;
      unfold main_finally, file_close, conn_close; wp; simpl; wp; simpl; wp;
      (split; [reflexivity|]); (split; [simpl; tauto|]);
      (split; [reflexivity|]); (split; [|repeat split]);
      (intros [|h] fo Hh; simpl in Hh; [now inversion Hh|discriminate]).
  - rewrite bool_decide_eq_false_2 by (intros [? ?]; congruence).
    cbn [negb]. wp.
    unfold with_open at 1. unfold open_file. wp.
    rewrite (Hn CallOpen) by discriminate. wp.
    cbn [length]. unfold writerow. wp. cbn [lookup list_lookup app]. wp.
    rewrite (Hn CallWriterow) by discriminate. wp.
    unfold file_close. wp. cbn [lookup list_lookup app]. wp.
    rewrite insert_insert_eq, lookup_insert_eq. cbn [default id app].
    unfold with_open, open_file. wp.
    rewrite (Hn CallOpen) by discriminate. wp.
    rewrite lookup_insert_eq. wp. cbn [length app].
    apply sat_try_finally. wp. unfold with_serial. wp. rewrite Hs. wp.
    destruct He as [-> | ->]; unfold main_handles, main_handler,
      transport_message, is_exn; simpl; wp;
      unfold main_finally, file_close, conn_close; wp; simpl; wp; simpl; wp;
      (split; [reflexivity|]); (split; [simpl; tauto|]);
      (split; [reflexivity|]); (split; [|repeat split]);
      (intros [|[|h]] fo Hh; simpl in Hh;
       [now inversion Hh|now inversion Hh|discriminate]).
Qed.

(** C8, as claimed, fails: the port cannot be opened and nothing else
    fails, there is no file at the start, and when [main] has returned
    the file of the day is there, with the header row. *)
Lemma port_failure_leaves_a_file :
  (main no_port_env 0 (initial_world ∅)).1 = Returned tt
  /\ w_fs (main no_port_env 0 (initial_world ∅)).2
       !! "sensor_dataset_2024-01-01.csv" = Some [header]
  /\ ~ transport_failure_creates_no_file.
Proof.
  split; [vm_compute; reflexivity|]. split; [vm_compute; reflexivity|].
  intros H.
  assert (Hn : forall c n, c <> CallSerial -> fault no_port_env c n = None)
    by (intros c n Hc; destruct c; try reflexivity; congruence).
  destruct (H no_port_env 0 ∅ SerialException (or_introl eq_refl) eq_refl Hn)
    as (_ & _ & _ & _ & _ & Hnf).
  destruct (Hnf "sensor_dataset_2024-01-01.csv") as [rows Hrows].
  - exists [header]. vm_compute. reflexivity.
  - rewrite lookup_empty in Hrows. discriminate.
Qed.

(** C8, amended.  When the port cannot be opened ([SerialException] or
    [PermissionError] from [serial.Serial]) and nothing else fails:
    [main] prints the error, closes the connection and every file object
    and returns; the table is empty and no command was sent; the file of
    the day is there, as it was when it was there at the start, and with
    the header row for its only row when it was not. *)
Theorem transport_open_failure env fuel fs e :
  e = SerialException \/ e = PermissionError ->
  fault env CallSerial 0 = Some e ->
  (forall c n, c <> CallSerial -> fault env c n = None) ->
  let w := (main env fuel (initial_world fs)).2 in
  (main env fuel (initial_world fs)).1 = Returned tt
  /\ In (EvPrint (transport_message e)) (w_trace w)
  /\ w_db w = DbClosed
  /\ all_closed (w_fobjs w)
  /\ w_sensor_data w = []
  /\ w_calls w CallCommand = 0
  /\ w_fs w = match fs !! csv_path (clock env 0) with
              | Some _ => fs
              | None => <[csv_path (clock env 0) := [header]]> fs
              end.
Proof.
  intros He Hs Hn. exact (transport_open_failure_sat env fuel fs e He Hs Hn).
Qed.

Lemma transport_open_failure_witness :
  (main no_port_env 5 (initial_world ∅)).1 = Returned tt
  /\ w_db (main no_port_env 5 (initial_world ∅)).2 = DbClosed
  /\ w_sensor_data (main no_port_env 5 (initial_world ∅)).2 = []
  /\ w_fs (main no_port_env 5 (initial_world ∅)).2
     = <[ "sensor_dataset_2024-01-01.csv" := [header] ]> ∅.
Proof.
  assert (Hn : forall c n, c <> CallSerial -> fault no_port_env c n = None)
    by (intros c n Hc; destruct c; try reflexivity; congruence).
  destruct (transport_open_failure no_port_env 5 ∅ SerialException
              (or_introl eq_refl) eq_refl Hn)
    as (H1 & _ & H3 & _ & H5 & _ & H7).
  split; [exact H1|]. split; [exact H3|]. split; [exact H5|exact H7].
Defined.

(** X1.  When [psycopg2.connect] raises: a [psycopg2.Error] is printed and
    [main] returns at once; any other exception leaves [main] with nothing
    printed.  Either way no file is touched, no file object is made, the
    port is not opened and no other call is made. *)
Theorem connection_failure_ends_main env fuel fs e :
  fault env CallConnect 0 = Some e ->
  let w := (main env fuel (initial_world fs)).2 in
  (main env fuel (initial_world fs)).1
  = (if is_exn Psycopg2Error e then Returned tt else Raised e)
  /\ w_trace w = (if is_exn Psycopg2Error e then [EvPrint MsgConnectError]
                  else [])
  /\ w_db w = DbNone
  /\ w_fs w = fs
  /\ w_fobjs w = []
  /\ w_sensor_data w = []
  /\ (forall c, c <> CallConnect -> w_calls w c = 0).
Proof.
  intros Hc. cbv zeta.
  change (sat (main env fuel) (initial_world fs) (fun o w =>
    o = (if is_exn Psycopg2Error e then Returned tt else Raised e)
    /\ w_trace w = (if is_exn Psycopg2Error e then [EvPrint MsgConnectError]
                    else [])
    /\ w_db w = DbNone /\ w_fs w = fs /\ w_fobjs w = []
    /\ w_sensor_data w = []
    /\ (forall c, c <> CallConnect -> w_calls w c = 0))).
  unfold main, connect_to_db, initial_world. wp. rewrite Hc. wp.
  destruct (is_exn Psycopg2Error e); wp;
    (repeat (split; [reflexivity|])); intros c Hn; destruct c; congruence.
Qed.

Lemma connection_failure_ends_main_witness :
  (main db_unreachable_env 7 (initial_world ∅)).1 = Returned tt
  /\ w_trace (main db_unreachable_env 7 (initial_world ∅)).2
     = [EvPrint MsgConnectError]
  /\ w_fs (main db_unreachable_env 7 (initial_world ∅)).2 = ∅.
Proof.
  destruct (connection_failure_ends_main db_unreachable_env 7 ∅
              Psycopg2Error eq_refl) as (H1 & H2 & _ & H4 & _).
  split; [exact H1|]. split; [exact H2|exact H4].
Defined.


(** X3.  The file of the day is created and opened before the [try] of
    [main], so an exception from these steps, a [PermissionError]
    included, is caught by nothing and no [finally] runs for it: [main]
    ends with the exception, the connection still open and never closed,
    the port never opened.  This holds when the first [open] fails; when
    the header row cannot be written, which leaves the new file behind
    with no row at all; and when the file cannot be opened again for
    appending. *)
Theorem startup_file_failure_leaks_connection env fuel fs e :
  fault env CallConnect 0 = None ->
  fault env CallCreateTable 0 = None ->
  let path := csv_path (clock env 0) in
  let o := (main env fuel (initial_world fs)).1 in
  let w := (main env fuel (initial_world fs)).2 in
  (fault env CallOpen 0 = Some e ->
     o = Raised e /\ w_db w = DbOpen
     /\ count_if is_db_close (w_trace w) = 0
     /\ w_fobjs w = [] /\ w_fs w = fs /\ w_calls w CallSerial = 0)
  /\ (fs !! path = None ->
      fault env CallOpen 0 = None ->
      fault env CallWriterow 0 = Some e ->
      o = Raised e /\ w_db w = DbOpen
      /\ count_if is_db_close (w_trace w) = 0
      /\ w_fobjs w = [FileObj path true]
      /\ w_fs w = <[path := []]> fs /\ w_calls w CallSerial = 0)
  /\ (fs !! path = None ->
      fault env CallOpen 0 = None ->
      fault env CallWriterow 0 = None ->
      fault env CallOpen 1 = Some e ->
      o = Raised e /\ w_db w = DbOpen
      /\ count_if is_db_close (w_trace w) = 0
      /\ w_fobjs w = [FileObj path true]
      /\ w_fs w = <[path := [header]]> fs /\ w_calls w CallSerial = 0).
Proof.
  intros Hc Ht. cbv zeta. split; [|split].
  - intros Ho.
    change (sat (main env fuel) (initial_world fs) (fun o w =>
      o = Raised e /\ w_db w = DbOpen
      /\ count_if is_db_close (w_trace w) = 0
      /\ w_fobjs w = [] /\ w_fs w = fs /\ w_calls w CallSerial = 0)).
    unfold main, connect_to_db, create_table_if_not_exists, initial_world.
    wp. rewrite Hc. wp. rewrite Ht. wp.
    destruct (bool_decide (is_Some (fs !! csv_path (clock env 0))));
      cbn [negb]; wp; unfold with_open, open_file; wp; rewrite Ho; wp;
      repeat split.
  - intros Hf Ho Hw.
    change (sat (main env fuel) (initial_world fs) (fun o w =>
      o = Raised e /\ w_db w = DbOpen
      /\ count_if is_db_close (w_trace w) = 0
      /\ w_fobjs w = [FileObj (csv_path (clock env 0)) true]
      /\ w_fs w = <[csv_path (clock env 0) := []]> fs
      /\ w_calls w CallSerial = 0)).
    unfold main, connect_to_db, create_table_if_not_exists, initial_world.
    wp. rewrite Hc. wp. rewrite Ht. wp.
    rewrite bool_decide_eq_false_2 by (intros [? ?]; congruence).
    cbn [negb]. wp.
    unfold with_open at 1. unfold open_file. wp. rewrite Ho. wp.
    cbn [length]. unfold writerow. wp. cbn [lookup list_lookup app]. wp.
    rewrite Hw. wp.
    unfold file_close. wp. cbn [lookup list_lookup app]. wp.
    repeat split.
  - intros Hf Ho Hw Ho1.
    change (sat (main env fuel) (initial_world fs) (fun o w =>
      o = Raised e /\ w_db w = DbOpen
      /\ count_if is_db_close (w_trace w) = 0
      /\ w_fobjs w = [FileObj (csv_path (clock env 0)) true]
      /\ w_fs w = <[csv_path (clock env 0) := [header]]> fs
      /\ w_calls w CallSerial = 0)).
    unfold main, connect_to_db, create_table_if_not_exists, initial_world.
    wp. rewrite Hc. wp. rewrite Ht. wp.
    rewrite bool_decide_eq_false_2 by (intros [? ?]; congruence).
    cbn [negb]. wp.
    unfold with_open at 1. unfold open_file. wp. rewrite Ho. wp.
    cbn [length]. unfold writerow. wp. cbn [lookup list_lookup app]. wp.
    rewrite Hw. wp.
    unfold file_close. wp. cbn [lookup list_lookup app]. wp.
    rewrite insert_insert_eq, lookup_insert_eq. cbn [default id app].
    unfold with_open, open_file. wp. rewrite Ho1. wp.
    repeat split.
Qed.

Lemma startup_file_failure_leaks_connection_witness :
  (main read_only_dir_env 7 (initial_world ∅)).1 = Raised PermissionError
  /\ w_db (main read_only_dir_env 7 (initial_world ∅)).2 = DbOpen.
Proof.
  destruct (proj1 (startup_file_failure_leaks_connection read_only_dir_env 7
                     ∅ PermissionError eq_refl eq_refl) eq_refl)
    as (H1 & H2 & _).
  split; [exact H1|exact H2].
Defined.

Lemma digit_char_inj (a b : Z) :
  digit_char a = digit_char b -> (a mod 10 = b mod 10)%Z.
Proof.
  unfold digit_char. intros H.
  assert (Ha := Z.mod_pos_bound a 10 ltac:(lia)).
  assert (Hb := Z.mod_pos_bound b 10 ltac:(lia)).
  apply (f_equal N_of_ascii) in H.
  rewrite !N_ascii_embedding in H by lia.
  apply Z2N.inj in H; lia.
Qed.

Lemma pad2_inj (a b : Z) :
  (0 <= a < 100)%Z -> (0 <= b < 100)%Z -> pad2 a = pad2 b -> a = b.
Proof.
  unfold pad2. intros Ha Hb H. injection H as H1 H2.
  apply digit_char_inj in H1, H2.
  revert H1 H2. Z.to_euclidean_division_equations. lia.
Qed.

Lemma pad4_inj (a b : Z) :
  (0 <= a < 10000)%Z -> (0 <= b < 10000)%Z -> pad4 a = pad4 b -> a = b.
Proof.
  unfold pad4, pad2. intros Ha Hb H. injection H as H1 H2 H3 H4.
  apply digit_char_inj in H1, H2, H3, H4.
  revert H1 H2 H3 H4. Z.to_euclidean_division_equations. lia.
Qed.

Lemma valid_date_bounds y m d :
  valid_date y m d = true ->
  (0 <= y < 10000 /\ 0 <= m < 100 /\ 0 <= d < 100)%Z.
Proof.
  unfold valid_date. intros H.
  repeat (apply andb_prop in H; destruct H as [H ?]).
  assert (days_in_month y m <= 31)%Z.
  { unfold days_in_month.
    repeat match goal with
           | |- context [match ?p with _ => _ end] => destruct p
           end; lia. }
  lia.
Qed.

(** X5.  The files of two different days have different names:
    [f'sensor_dataset_{today_date}.csv'] determines the date, for the
    dates [datetime.now().date()] can show (years 1 to 9999). *)
Theorem csv_path_injective (d1 d2 : date) :
  valid_date (d_year d1) (d_month d1) (d_day d1) = true ->
  valid_date (d_year d2) (d_month d2) (d_day d2) = true ->
  csv_path d1 = csv_path d2 -> d1 = d2.
Proof.
  intros V1 V2 H. apply valid_date_bounds in V1, V2.
  destruct d1 as [y1 m1 dd1], d2 as [y2 m2 dd2]. cbn in V1, V2.
  unfold csv_path, isoformat in H. cbn [d_year d_month d_day] in H.
  assert (Hy : pad4 y1 = pad4 y2 /\ pad2 m1 = pad2 m2 /\ pad2 dd1 = pad2 dd2).
  { unfold pad4, pad2 in *. cbn [append] in H.
    injection H as H1 H2 H3 H4 H5 H6 H7 H8.
    repeat split; congruence. }
  destruct Hy as (Hy & Hm & Hd).
  apply pad4_inj in Hy; [|lia..]. apply pad2_inj in Hm, Hd; [|lia..].
  congruence.
Qed.

Lemma csv_path_injective_witness :
  valid_date 2024 2 29 = true
  /\ csv_path (Date 2024 2 29) = "sensor_dataset_2024-02-29.csv"
  /\ Date 2024 2 29 = date_of (Datetime 2024 2 29 23 59 59).
Proof.
  split; [reflexivity|]. split; [reflexivity|].
  apply (csv_path_injective (Date 2024 2 29)
           (date_of (Datetime 2024 2 29 23 59 59))); reflexivity.
Defined.


Lemma split_nonempty sep s : PyStr.split sep s <> [].
Proof.
  destruct s as [|c s]; simpl; [discriminate|].
  destruct (Ascii.eqb c sep); [discriminate|].
  destruct (PyStr.split sep s); discriminate.
Qed.

Lemma split_app_sep sep s t :
  PyStr.split sep (s +:+ String sep t) = PyStr.split sep s ++ PyStr.split sep t.
Proof.
  induction s as [|c s IH].
  - change ("" +:+ String sep t) with (String sep t). simpl.
    now rewrite Ascii.eqb_refl.
  - change (String c s +:+ String sep t) with (String c (s +:+ String sep t)).
    simpl. rewrite IH. destruct (Ascii.eqb c sep); [reflexivity|].
    pose proof (split_nonempty sep s).
    destruct (PyStr.split sep s); [congruence|reflexivity].
Qed.

Lemma item_app parts more i :
  (i < length parts)%nat -> item (parts ++ more) i = item parts i.
Proof. intros H. unfold item. now rewrite app_nth1. Qed.

(** X6.  [process_data] reads the fields 0, 1, 3, 5 and 7 of a line and
    no other: fields appended after the eighth change nothing, and two
    lines of at least eight fields that agree on these five fields give
    the same reading, or are both skipped. *)
Theorem unread_fields_are_ignored :
  (forall line more,
      (8 <= length (PyStr.split "," line))%nat ->
      parse_line (line +:+ "," +:+ more) = parse_line line)
  /\ (forall line1 line2,
        (8 <= length (PyStr.split "," line1))%nat ->
        (8 <= length (PyStr.split "," line2))%nat ->
        (forall i, In i [0; 1; 3; 5; 7]%nat ->
           item (PyStr.split "," line1) i = item (PyStr.split "," line2) i) ->
        parse_line line1 = parse_line line2).
Proof.
  split.
  - intros line more H.
    change ("," +:+ more) with (String "," more).
    unfold parse_line. cbv zeta. rewrite split_app_sep.
    rewrite length_app.
    replace (8 <=? length (PyStr.split "," line)
                   + length (PyStr.split "," more))%nat with true
      by (symmetry; apply Nat.leb_le; lia).
    replace (8 <=? length (PyStr.split "," line))%nat with true
      by (symmetry; apply Nat.leb_le; lia).
    rewrite !item_app by lia. reflexivity.
  - intros line1 line2 H1 H2 Hi. unfold parse_line. cbv zeta.
    replace (8 <=? length (PyStr.split "," line1))%nat with true
      by (symmetry; apply Nat.leb_le; lia).
    replace (8 <=? length (PyStr.split "," line2))%nat with true
      by (symmetry; apply Nat.leb_le; lia).
    rewrite (Hi 0%nat), (Hi 1%nat), (Hi 3%nat), (Hi 5%nat), (Hi 7%nat)
      by (simpl; tauto).
    reflexivity.
Qed.

Lemma unread_fields_are_ignored_witness :
  parse_line (scenario_line +:+ "," +:+ "9.9C,x,1.0%")
  = parse_line scenario_line.
Proof.
  apply (proj1 unread_fields_are_ignored). vm_compute. lia.
Defined.

Lemma feeds_intro (ol : list Reading) (path : string) (fobjs : list file_obj)
    (fs fs' : gmap string (list row)) (sd sd' : list Reading) a b :
  a `sublist_of` ol -> b `sublist_of` ol ->
  sd' = sd ++ a ->
  fs' = match b with
        | [] => fs
        | _ => <[path := file_rows fs path ++ map data_row b]> fs
        end ->
  fobjs = fobjs
  /\ (forall p, p <> path -> fs' !! p = fs !! p)
  /\ exists a b,
       a `sublist_of` ol /\ b `sublist_of` ol
       /\ sd' = sd ++ a
       /\ file_rows fs' path = file_rows fs path ++ map data_row b.
Proof.
  intros Ha Hb Hd Hfs. split; [reflexivity|]. split.
  - intros p Hp. rewrite Hfs. destruct b; [reflexivity|].
    now rewrite lookup_insert_ne.
  - exists a, b. repeat split; try assumption. rewrite Hfs.
    destruct b; [now rewrite app_nil_r|]. now rewrite file_rows_insert.
Qed.

Lemma process_line_feeds env conn cw line w path :
  handle_open w cw path ->
  let w' := (process_line env conn cw line w).2 in
  w_fobjs w' = w_fobjs w
  /\ (forall p, p <> path -> w_fs w' !! p = w_fs w !! p)
  /\ exists a b,
       a `sublist_of` option_list (parse_line line)
       /\ b `sublist_of` option_list (parse_line line)
       /\ w_sensor_data w' = w_sensor_data w ++ a
       /\ file_rows (w_fs w') path = file_rows (w_fs w) path ++ map data_row b.
Proof.
  unfold handle_open. intros Hh. cbv zeta. rewrite process_line_unfold.
  destruct (parse_line line) as [r|].
  - destruct r as [ts q t1 h1 t2 h2]. set (r := mkReading ts q t1 h1 t2 h2).
    unfold_prog. simpl.
    destruct (fault env CallInsert (w_calls w CallInsert)) as [e|]; simpl.
    + destruct (bool_decide (e = Psycopg2Error)); simpl.
      * rewrite Hh. simpl.
        destruct (fault env CallWriterow (w_calls w CallWriterow)) as [e'|];
          simpl.
        -- destruct (bool_decide (e' = ValueError)); simpl;
             apply (feeds_intro [r] path _ _ _ _ _ [] []);
             try apply sublist_nil_l; try reflexivity; now rewrite app_nil_r.
        -- apply (feeds_intro [r] path _ _ _ _ _ [] [r]);
             try apply sublist_nil_l; try reflexivity; now rewrite app_nil_r.
      * destruct (bool_decide (e = ValueError)); simpl;
          apply (feeds_intro [r] path _ _ _ _ _ [] []);
          try apply sublist_nil_l; try reflexivity; now rewrite app_nil_r.
    + rewrite Hh. simpl.
      destruct (fault env CallWriterow (w_calls w CallWriterow)) as [e'|];
        simpl.
      * destruct (bool_decide (e' = ValueError)); simpl;
          apply (feeds_intro [r] path _ _ _ _ _ [r] []);
          try apply sublist_nil_l; try reflexivity.
      * apply (feeds_intro [r] path _ _ _ _ _ [r] [r]); reflexivity.
  - unfold_prog. simpl.
    apply (feeds_intro [] path _ _ _ _ _ [] []);
      try apply sublist_nil_l; try reflexivity; now rewrite app_nil_r.
Qed.

Lemma for_each_feeds env conn cw path lines :
  forall w, handle_open w cw path ->
  let w' := (for_each lines (process_line env conn cw) w).2 in
  w_fobjs w' = w_fobjs w
  /\ (forall p, p <> path -> w_fs w' !! p = w_fs w !! p)
  /\ exists a b,
       a `sublist_of` omap parse_line lines
       /\ b `sublist_of` omap parse_line lines
       /\ w_sensor_data w' = w_sensor_data w ++ a
       /\ file_rows (w_fs w') path = file_rows (w_fs w) path ++ map data_row b.
Proof.
  induction lines as [|line lines IH]; intros w Hh; cbv zeta.
  - cbn. split; [reflexivity|]. split; [reflexivity|].
    exists [], []. rewrite !app_nil_r. repeat split; constructor.
  - destruct (process_line_feeds env conn cw line w path Hh)
      as (F1 & O1 & a1 & b1 & Sa1 & Sb1 & D1 & R1).
    cbn [for_each]. unfold bind.
    destruct (process_line env conn cw line w) as [[[]|e|] w1] eqn:E1;
      cbn [snd] in *.
    + assert (Hh1 : handle_open w1 cw path)
        by (unfold handle_open in *; now rewrite F1).
      destruct (IH w1 Hh1) as (F2 & O2 & a2 & b2 & Sa2 & Sb2 & D2 & R2).
      split; [congruence|]. split; [intros p Hp; rewrite O2, O1; auto|].
      exists (a1 ++ a2), (b1 ++ b2). rewrite omap_cons_list, map_app.
      split; [now apply sublist_app|]. split; [now apply sublist_app|].
      split; [now rewrite D2, D1, app_assoc|].
      now rewrite R2, R1, app_assoc.
    + split; [exact F1|]. split; [exact O1|].
      exists a1, b1. rewrite omap_cons_list.
      split; [now apply sublist_inserts_r|].
      split; [now apply sublist_inserts_r|]. auto.
    + split; [exact F1|]. split; [exact O1|].
      exists a1, b1. rewrite omap_cons_list.
      split; [now apply sublist_inserts_r|].
      split; [now apply sublist_inserts_r|]. auto.
Qed.

(** X4.  Whatever fails and however [process_data] ends, the sinks
    receive readings of the response only, in the order of its lines and
    each at most once: the table gains a subsequence of the parsed
    readings, the file of the writer gains the rows of a subsequence of
    them, and no other file changes. *)
Theorem sinks_receive_parsed_readings_only env data_response conn cw today
    w path :
  handle_open w cw path ->
  let w' := (process_data env data_response conn cw today w).2 in
  (forall p, p <> path -> w_fs w' !! p = w_fs w !! p)
  /\ exists a b,
       a `sublist_of` parse data_response
       /\ b `sublist_of` parse data_response
       /\ w_sensor_data w' = w_sensor_data w ++ a
       /\ file_rows (w_fs w') path = file_rows (w_fs w) path ++ map data_row b.
Proof.
  intros Hh.
  exact (proj2 (for_each_feeds env conn cw path
                  (PyStr.splitlines data_response) w Hh)).
Qed.

Lemma sinks_receive_parsed_readings_only_witness :
  let w := with_calls (fun _ => 1)
             (with_fobjs [FileObj "sensor_dataset_2024-01-01.csv" false]
                (initial_world ∅)) in
  let w' := (process_data disk_full_env mixed_response Conn 0
               (Date 2024 1 1) w).2 in
  (forall p, p <> "sensor_dataset_2024-01-01.csv" ->
     w_fs w' !! p = w_fs w !! p)
  /\ exists a b,
       a `sublist_of` parse mixed_response
       /\ b `sublist_of` parse mixed_response
       /\ w_sensor_data w' = w_sensor_data w ++ a
       /\ file_rows (w_fs w') "sensor_dataset_2024-01-01.csv"
          = file_rows (w_fs w) "sensor_dataset_2024-01-01.csv"
            ++ map data_row b.
Proof.
  apply (sinks_receive_parsed_readings_only disk_full_env mixed_response
           Conn 0 (Date 2024 1 1)
           (with_calls (fun _ => 1)
              (with_fobjs [FileObj "sensor_dataset_2024-01-01.csv" false]
                 (initial_world ∅)))
           "sensor_dataset_2024-01-01.csv").
  reflexivity.
Defined.

Lemma append_rows_nil_there path (fs : gmap string (list row)) :
  is_Some (fs !! path) -> append_rows path [] fs = fs.
Proof.
  intros [rows H]. unfold append_rows. rewrite H. cbn [default].
  rewrite app_nil_r. now apply insert_id.
Qed.

Lemma append_rows_twice path a b (fs : gmap string (list row)) :
  append_rows path b (append_rows path a fs) = append_rows path (a ++ b) fs.
Proof.
  unfold append_rows. rewrite lookup_insert_eq, insert_insert_eq.
  cbn [default]. now rewrite app_assoc.
Qed.

Lemma files_after_there env fs k :
  is_Some (files_after env fs k !! csv_path (clock env k)).
Proof. destruct k; cbn; unfold append_rows; rewrite lookup_insert_eq; eauto. Qed.

Lemma committed_app env rs1 : forall n rs2,
  committed env n (rs1 ++ rs2)
  = committed env n rs1 ++ committed env (n + length rs1) rs2.
Proof.
  induction rs1 as [|r rs1 IH]; intros n rs2; cbn [committed app length].
  - now rewrite Nat.add_0_r.
  - rewrite IH. replace (S n + length rs1) with (n + S (length rs1)) by lia.
    destruct (fault env CallInsert n); reflexivity.
Qed.

Lemma committed_no_faults env rs :
  (forall n, fault env CallInsert n = None) ->
  forall n, committed env n rs = rs.
Proof.
  intros Hn. induction rs as [|r rs IH]; intros n; cbn [committed];
    [reflexivity|].
  rewrite Hn, IH. reflexivity.
Qed.

Lemma db_faults_only_others env c n :
  db_faults_only env -> c <> CallCreateTable -> c <> CallInsert ->
  fault env c n = None.
Proof.
  intros H H1 H2. destruct (fault env c n) as [e|] eqn:E; [|reflexivity].
  destruct (H c n e E) as [[?|?] _]; congruence.
Qed.

Lemma for_each_degraded env conn cw path lines :
  db_faults_only env ->
  forall w, handle_open w cw path ->
  exists w',
    for_each lines (process_line env conn cw) w = (Returned tt, w')
    /\ w_fobjs w' = w_fobjs w
    /\ w_calls w' CallInsert
       = w_calls w CallInsert + length (omap parse_line lines)
    /\ w_sensor_data w'
       = w_sensor_data w
         ++ committed env (w_calls w CallInsert) (omap parse_line lines)
    /\ file_rows (w_fs w') path
       = file_rows (w_fs w) path ++ map data_row (omap parse_line lines).
Proof.
  intros Ho. induction lines as [|line lines IH]; intros w Hh.
  - exists w. cbn. rewrite !app_nil_r, Nat.add_0_r. auto.
  - assert (Hw : fault env CallWriterow (w_calls w CallWriterow) = None)
      by (apply db_faults_only_others; [exact Ho|discriminate..]).
    rewrite omap_cons_list.
    destruct (fault env CallInsert (w_calls w CallInsert)) as [e|] eqn:Hi.
    + destruct (Ho _ _ _ Hi) as [_ ->].
      destruct (parse_line line) as [r|] eqn:Hp.
      * destruct (process_line_insert_fails env conn cw line r w path
                    Hp Hh Hi Hw) as (w1 & E1 & F1 & C1 & D1 & R1 & T1).
        assert (Hh1 : handle_open w1 cw path)
          by (unfold handle_open in *; now rewrite F1).
        destruct (IH w1 Hh1) as (w2 & E2 & F2 & C2 & D2 & R2).
        exists w2. cbn [for_each]. unfold bind. rewrite E1, E2.
        split; [reflexivity|]. split; [congruence|].
        cbn [option_list app committed map length]. rewrite Hi.
        split; [rewrite C2, C1; lia|].
        split; [now rewrite D2, D1, C1|].
        rewrite R2, R1, <- app_assoc. reflexivity.
      * assert (E1 : process_line env conn cw line w
                     = (Returned tt,
                        with_trace (w_trace w ++
                          [EvPrint (MsgProcessingLine line);
                           EvPrint (skip_message line)]) w)).
        { rewrite process_line_unfold, Hp. unfold_prog. simpl.
          now rewrite <- app_assoc. }
        destruct (IH (with_trace (w_trace w ++
                          [EvPrint (MsgProcessingLine line);
                           EvPrint (skip_message line)]) w) Hh)
          as (w2 & E2 & F2 & C2 & D2 & R2).
        exists w2. cbn [for_each]. unfold bind. rewrite E1, E2.
        split; [reflexivity|]. split; [exact F2|].
        cbn [option_list app map]. auto.
    + destruct (process_line_clean env conn cw line w path Hh Hi Hw)
        as (w1 & E1 & F1 & D1 & R1 & T1).
      pose proof (process_line_clean_calls env conn cw line w path Hh Hi Hw)
        as C1. rewrite E1 in C1. cbn [snd] in C1.
      assert (Hh1 : handle_open w1 cw path)
        by (unfold handle_open in *; now rewrite F1).
      destruct (IH w1 Hh1) as (w2 & E2 & F2 & C2 & D2 & R2).
      exists w2. cbn [for_each]. unfold bind. rewrite E1, E2.
      split; [reflexivity|]. split; [congruence|].
      rewrite map_app, length_app. split; [rewrite C2, C1; lia|]. split.
      * rewrite D2, D1, C1, <- app_assoc. f_equal.
        destruct (parse_line line) as [r|]; simpl;
          [now rewrite Hi|reflexivity].
      * now rewrite R2, R1, app_assoc.
Qed.

Lemma process_data_degraded env resp conn cw today w path :
  db_faults_only env ->
  handle_open w cw path ->
  is_Some (w_fs w !! path) ->
  exists w',
    process_data env resp conn cw today w = (Returned tt, w')
    /\ w_fobjs w' = w_fobjs w
    /\ w_frame w' = w_frame w
    /\ w_calls w' CallNow = w_calls w CallNow
    /\ w_calls w' CallCommand = w_calls w CallCommand
    /\ w_calls w' CallInsert = w_calls w CallInsert + length (parse resp)
    /\ w_sensor_data w'
       = w_sensor_data w ++ committed env (w_calls w CallInsert) (parse resp)
    /\ w_fs w' = append_rows path (map data_row (parse resp)) (w_fs w).
Proof.
  intros Hn Hh Hs.
  destruct (for_each_degraded env conn cw path (PyStr.splitlines resp)
              Hn w Hh) as (w' & E & F & C & D & R).
  destruct (process_data_sink env resp conn cw today w path Hh) as [Hss _].
  unfold process_data in *. rewrite E in Hss. cbn [snd] in Hss.
  destruct Hss as [_ Hfr _ _ Hcalls Hother Hthere _ _ _].
  exists w'. split; [exact E|]. split; [exact F|]. split; [exact Hfr|].
  split; [apply Hcalls; discriminate|].
  split; [apply Hcalls; discriminate|].
  split; [exact C|]. split; [exact D|].
  apply map_eq. intros p. unfold append_rows.
  destruct (decide (p = path)) as [->|Hp].
  - rewrite lookup_insert_eq. destruct (Hthere Hs) as [x Hx].
    destruct Hs as [rows Hrows]. unfold file_rows in R.
    rewrite Hx, Hrows in R. cbn [default] in R.
    rewrite Hx, Hrows. cbn [default]. now f_equal.
  - rewrite lookup_insert_ne by congruence. now apply Hother.
Qed.

Lemma rollover_degraded env d w :
  db_faults_only env ->
  sat (rollover env d) w (fun o w' =>
    o = Returned tt
    /\ handle_open w' (csvfile (w_frame w')) (csv_path d)
    /\ csv_writer (w_frame w') = csvfile (w_frame w')
    /\ today_date (w_frame w') = d
    /\ w_sensor_data w' = w_sensor_data w
    /\ w_fs w' = append_rows (csv_path d) [] (w_fs w)
    /\ w_calls w' CallNow = w_calls w CallNow
    /\ w_calls w' CallCommand = w_calls w CallCommand
    /\ w_calls w' CallInsert = w_calls w CallInsert).
Proof.
  intros Hdb.
  assert (Hn : forall c n, c <> CallCreateTable -> c <> CallInsert ->
                 fault env c n = None)
    by (intros; now apply db_faults_only_others).
  destruct w as [db sd fs fobjs ser [today cf cwr] tr calls].
  assert (Hclose : forall (Q : outcome unit -> World -> Prop) w0,
    (forall fobjs1 tr1,
        Q (Returned tt) (with_trace tr1 (with_fobjs fobjs1 w0))) ->
    sat (file_close cf) w0 Q).
  { intros Q w0 HQ. unfold file_close. wp.
    destruct w0 as [db0 sd0 fs0 fobjs0 ser0 fr0 tr0 calls0].
    cbn [w_fobjs].
    destruct (fobjs0 !! cf) as [[p [|]]|]; wp;
      first [apply (HQ _ _) | apply (HQ fobjs0 tr0)]. }
  unfold rollover. wp. apply Hclose. intros fobjs1 tr1. cbn. wp.
  destruct (fs !! csv_path d) as [rows|] eqn:Hf.
  - rewrite bool_decide_eq_true_2 by eauto. cbn [negb]. wp.
    unfold open_file. wp. rewrite (Hn CallOpen) by discriminate. wp.
    rewrite Hf. wp.
    split; [reflexivity|]. split; [apply lookup_snoc_new|].
    split; [reflexivity|]. split; [reflexivity|]. split; [reflexivity|].
    split; [|repeat split; reflexivity].
    symmetry. apply append_rows_nil_there. eauto.
  - rewrite bool_decide_eq_false_2 by (intros [? ?]; congruence).
    cbn [negb]. wp. unfold with_open, open_file. wp.
    rewrite (Hn CallOpen) by discriminate. wp. unfold writerow. wp.
    rewrite lookup_snoc_new. wp. rewrite (Hn CallWriterow) by discriminate.
    wp. unfold file_close. wp. rewrite lookup_snoc_new. wp.
    rewrite insert_insert_eq, lookup_insert_eq. cbn [default id app].
    rewrite (Hn CallOpen) by discriminate. wp. rewrite lookup_insert_eq. wp.
    split; [reflexivity|]. split; [apply lookup_snoc_new|].
    split; [reflexivity|]. split; [reflexivity|]. split; [reflexivity|].
    split; [|repeat split; reflexivity].
    unfold append_rows. now rewrite Hf.
Qed.

Lemma cycle_degraded env fs0 conn ser k w :
  db_faults_only env ->
  Logged env fs0 k w ->
  sat (cycle env conn ser) w (fun o w' =>
    o = Returned tt /\ Logged env fs0 (S k) w').
Proof.
  intros Hdb.
  assert (Hn : forall c n, c <> CallCreateTable -> c <> CallInsert ->
                 fault env c n = None)
    by (intros; now apply db_faults_only_others).
  destruct w as [db sd fs fobjs sr [today cf cwr] tr calls].
  intros [Hfile Hwr Htoday Hnow Hcmd Hins Htab Hfs].
  unfold handle_open in Hfile. cbn in *. subst cwr.
  unfold cycle. wp. rewrite Hnow.
  match goal with |- sat _ ?w _ => set (w1 := w) end.
  eapply sat_mono with (Q := fun o w' =>
    o = Returned tt
    /\ handle_open w' (csvfile (w_frame w')) (csv_path (clock env (S k)))
    /\ csv_writer (w_frame w') = csvfile (w_frame w')
    /\ today_date (w_frame w') = clock env (S k)
    /\ w_sensor_data w' = committed env 0 (table_after env k)
    /\ w_fs w' = append_rows (csv_path (clock env (S k))) []
                   (files_after env fs0 k)
    /\ w_calls w' CallNow = S (S k)
    /\ w_calls w' CallCommand = k
    /\ w_calls w' CallInsert = length (table_after env k)).
  { destruct (decide (clock env (S k) <> today)) as [Hne|He].
    - eapply sat_mono; [apply (rollover_degraded env _ w1 Hdb)|].
      intros o w' (H1 & H2 & H3 & H4 & H5 & H6 & H7 & H8 & H9).
      unfold w1 in *. cbn in H5, H6, H7, H8, H9.
      repeat split; try assumption; try congruence.
    - apply sat_ret. apply dec_stable in He. unfold w1. cbn.
      split; [reflexivity|]. unfold handle_open. cbn.
      split; [now rewrite He|]. split; [reflexivity|].
      split; [congruence|]. split; [exact Htab|].
      split; [|split; [now rewrite Hnow|split; [exact Hcmd|exact Hins]]].
      rewrite Hfs. symmetry. apply append_rows_nil_there.
      rewrite He, Htoday. apply files_after_there. }
  clear w1. intros o w1 (-> & H2 & H3 & H4 & H5 & H6 & H7 & H8 & H9).
  destruct w1 as [db1 sd1 fs1 fobjs1 ser1 [today1 cf1 cwr1] tr1 calls1].
  unfold handle_open in H2. cbn in H2, H3, H4, H5, H6, H7, H8, H9.
  subst cwr1.
  unfold read_data, send_command. wp.
  rewrite (Hn CallCommand) by discriminate. wp.
  match goal with |- sat _ ?w _ => set (w2 := w) end.
  destruct (process_data_degraded env
              (PyStr.strip (reply env (calls1 CallCommand))) conn cf1 today1
              w2 (csv_path (clock env (S k))) Hdb)
    as (w3 & E & F3 & Fr3 & N3 & C3 & I3 & D3 & Fs3).
  { unfold handle_open, w2. cbn. exact H2. }
  { unfold w2. cbn. rewrite H6. unfold append_rows.
    rewrite lookup_insert_eq. eauto. }
  unfold sat at 1. rewrite E. cbn [fst snd].
  unfold sleep10. wp. rewrite (Hn CallSleep) by discriminate. wp.
  destruct w3 as [db3 sd3 fs3 fobjs3 ser3 fr3 tr3 calls3].
  unfold w2 in *. cbn in F3, Fr3, N3, C3, I3, D3, Fs3. subst fr3 fobjs3.
  split; [reflexivity|]. constructor; cbn.
  - unfold handle_open. cbn. now rewrite H4.
  - reflexivity.
  - exact H4.
  - rewrite N3. exact H7.
  - rewrite C3, H8. reflexivity.
  - rewrite I3, H9, H8, length_app. reflexivity.
  - rewrite D3, H5, H9, H8, committed_app. reflexivity.
  - rewrite Fs3, H6, append_rows_twice, H8. reflexivity.
Qed.

Lemma degraded_run_sat env fuel fs :
  db_faults_only env ->
  sat (main env fuel) (initial_world fs) (fun o w =>
    o = Pending /\ Logged env fs fuel w).
Proof.
  intros Hdb.
  assert (Hn : forall c n, c <> CallCreateTable -> c <> CallInsert ->
                 fault env c n = None)
    by (intros; now apply db_faults_only_others).
  assert (Hloop : forall w, Logged env fs 0 w ->
    sat (while_true fuel (cycle env Conn Ser)) w (fun o w' =>
      match o with
      | Pending => Logged env fs fuel w'
      | _ => False
      end)).
  { intros w Hw. eapply sat_mono.
    - apply (sat_while _ (Logged env fs) (fun _ _ => False)) with (k := 0);
        [|exact Hw].
      intros k w0 H0.
      eapply sat_mono; [apply (cycle_degraded _ _ _ _ _ _ Hdb H0)|].
      intros o w' [-> H]. exact H.
    - intros [[]|e|] w' H; auto. }
  assert (Hbody : forall tr calls,
    calls CallNow = 0 -> calls CallCommand = 0 -> calls CallInsert = 0 ->
    sat (today <- datetime_now_date env ;;
         set_today_date today ;;
         there <- os_path_exists (csv_path today) ;;
         (if negb there then
            with_open env (csv_path today) ModeW (fun f =>
              set_csvfile f ;;
              set_csv_writer f ;;
              writerow env f header)
          else ret tt) ;;
         with_open env (csv_path today) ModeA (fun f =>
           set_csvfile f ;;
           set_csv_writer f ;;
           try_finally
             (try_except
                (with_serial env (fun ser =>
                   print MsgSerialOpen ;;
                   while_true fuel (cycle env Conn ser)))
                main_handles main_handler)
             (main_finally Conn)))
      (mkWorld DbOpen [] fs [] false (mkFrame (Date 0 0 0) 0 0) tr calls)
      (fun o w => o = Pending /\ Logged env fs fuel w)).
  { intros tr calls Hc1 Hc2 Hc3. wp. rewrite Hc1.
    destruct (fs !! csv_path (clock env 0)) as [rows|] eqn:Hf.
    - rewrite bool_decide_eq_true_2 by eauto. cbn [negb]. wp.
      unfold with_open, open_file. wp.
      rewrite (Hn CallOpen) by discriminate. wp.
      apply sat_try_finally. wp. unfold with_serial. wp.
      rewrite (Hn CallSerial) by discriminate. wp. rewrite Hf.
      eapply sat_mono; [apply Hloop|].
      + constructor; cbn; try reflexivity; try assumption.
        * now rewrite Hc1.
        * symmetry. apply append_rows_nil_there. eauto.
      + intros [[]|e|] w' H; [destruct H|destruct H|].
        split; [reflexivity|exact H].
    - rewrite bool_decide_eq_false_2 by (intros [? ?]; congruence).
      cbn [negb]. wp.
      unfold with_open at 1. unfold open_file. wp.
      rewrite (Hn CallOpen) by discriminate. wp.
      cbn [length]. unfold writerow. wp. cbn [lookup list_lookup app]. wp.
      rewrite (Hn CallWriterow) by discriminate. wp.
      unfold file_close. wp. cbn [lookup list_lookup app]. wp.
      rewrite insert_insert_eq, lookup_insert_eq. cbn [default id app].
      unfold with_open, open_file. wp.
      rewrite (Hn CallOpen) by discriminate. wp.
      rewrite lookup_insert_eq. wp. cbn [length app].
      apply sat_try_finally. wp. unfold with_serial. wp.
      rewrite (Hn CallSerial) by discriminate. wp.
      eapply sat_mono; [apply Hloop|].
      + constructor; cbn; try reflexivity; try assumption.
        * now rewrite Hc1.
        * unfold append_rows. now rewrite Hf.
      + intros [[]|e|] w' H; [destruct H|destruct H|].
        split; [reflexivity|exact H]. }
  unfold main, connect_to_db, initial_world. wp.
  rewrite (Hn CallConnect) by discriminate. wp.
  unfold create_table_if_not_exists. wp.
  destruct (fault env CallCreateTable 0) as [e|] eqn:Et.
  - destruct (Hdb _ _ _ Et) as [_ ->]. unfold is_exn.
    rewrite bool_decide_eq_true_2 by reflexivity. do 3 wp1.
    apply Hbody; reflexivity.
  - wp1. apply Hbody; reflexivity.
Qed.

Lemma rows_on_unvisited env path n :
  visited env path n = false -> rows_on env path n = [].
Proof.
  induction n as [|n IH]; cbn; [reflexivity|].
  intros H. apply orb_false_elim in H as [H1 H2].
  apply bool_decide_eq_false_1 in H2.
  rewrite IH by exact H1. now rewrite decide_False.
Qed.

Lemma files_after_lookup env fs n path :
  files_after env fs n !! path
  = if visited env path n
    then Some (default [header] (fs !! path) ++ rows_on env path n)
    else fs !! path.
Proof.
  induction n as [|n IH]; cbn [files_after visited rows_on]; unfold append_rows.
  - destruct (bool_decide_reflect (csv_path (clock env 0) = path)) as [<-|Hne].
    + now rewrite lookup_insert_eq.
    + now rewrite lookup_insert_ne.
  - destruct (bool_decide_reflect (csv_path (clock env (S n)) = path))
      as [<-|Hne].
    + rewrite lookup_insert_eq, orb_true_r, decide_True by reflexivity.
      rewrite IH.
      destruct (visited env (csv_path (clock env (S n))) n) eqn:Hv.
      * cbn [default]. now rewrite app_assoc.
      * now rewrite (rows_on_unvisited _ _ _ Hv).
    + rewrite lookup_insert_ne, orb_false_r, decide_False, app_nil_r
        by assumption.
      exact IH.
Qed.





Section Steps.

Context (R : World -> World -> Prop).
Context (R_refl : forall w, R w w).
Context (R_trans : forall w1 w2 w3, R w1 w2 -> R w2 w3 -> R w1 w3).

Lemma steps_ret {A} (a : A) : steps R (ret a).
Proof. intros w. apply R_refl. Qed.

Lemma steps_raise {A} e : steps R (@raise A e).
Proof. intros w. apply R_refl. Qed.

Lemma steps_gets {A} (f : World -> A) : steps R (gets f).
Proof. intros w. apply R_refl. Qed.

Lemma steps_modify f : (forall w, R w (f w)) -> steps R (modify f).
Proof. intros Hf w. apply Hf. Qed.

Lemma steps_bind {A B} (m : M A) (k : A -> M B) :
  steps R m -> (forall a, steps R (k a)) -> steps R (bind m k).
Proof.
  intros Hm Hk w. unfold bind. specialize (Hm w).
  destruct (m w) as [[a|e|] w']; cbn in *; [|exact Hm|exact Hm].
  eapply R_trans; [exact Hm|apply Hk].
Qed.

Lemma steps_try_except {A} (body : M A) handles handler :
  steps R body -> (forall e, steps R (handler e)) ->
  steps R (try_except body handles handler).
Proof.
  intros Hb Hh w. unfold try_except. specialize (Hb w).
  destruct (body w) as [[a|e|] w']; cbn in *; try exact Hb.
  destruct (handles e); [|exact Hb].
  eapply R_trans; [exact Hb|apply Hh].
Qed.

Lemma steps_try_finally {A} (body : M A) final :
  steps R body -> steps R final -> steps R (try_finally body final).
Proof.
  intros Hb Hf w. unfold try_finally. specialize (Hb w).
  destruct (body w) as [[a|e|] w']; cbn in *; try exact Hb;
    specialize (Hf w'); destruct (final w') as [[[]|e'|] w''];
    cbn in *; eapply R_trans; eauto.
Qed.

Lemma steps_while n body : steps R body -> steps R (while_true n body).
Proof.
  intros Hb. induction n as [|n IH]; cbn [while_true].
  - intros w. apply R_refl.
  - apply steps_bind; [exact Hb|intros _; exact IH].
Qed.

Lemma steps_for_each {A} (l : list A) body :
  (forall x, steps R (body x)) -> steps R (for_each l body).
Proof.
  intros Hb. induction l as [|x l IH]; cbn [for_each].
  - apply steps_ret.
  - apply steps_bind; [apply Hb|intros _; exact IH].
Qed.

End Steps.

Lemma trace_gains_refl P w : trace_gains P w w.
Proof. exists []. now rewrite app_nil_r. Qed.

Lemma trace_gains_trans P w1 w2 w3 :
  trace_gains P w1 w2 -> trace_gains P w2 w3 -> trace_gains P w1 w3.
Proof.
  intros (e1 & H1 & F1) (e2 & H2 & F2). exists (e1 ++ e2).
  split; [now rewrite H2, H1, app_assoc|now apply Forall_app].
Qed.

Lemma nothing_lost_refl w : nothing_lost w w.
Proof.
  split; [|exists []; now rewrite app_nil_r].
  intros p rows H. exists []. now rewrite app_nil_r.
Qed.

Lemma nothing_lost_trans w1 w2 w3 :
  nothing_lost w1 w2 -> nothing_lost w2 w3 -> nothing_lost w1 w3.
Proof.
  intros [F1 (d1 & D1)] [F2 (d2 & D2)]. split.
  - intros p rows H. destruct (F1 p rows H) as [m1 H1].
    destruct (F2 p _ H1) as [m2 H2]. exists (m1 ++ m2).
    now rewrite H2, app_assoc.
  - exists (d1 ++ d2). now rewrite D2, D1, app_assoc.
Qed.

Lemma steps_bind_at (R : World -> World -> Prop)
    (R_trans : forall w1 w2 w3, R w1 w2 -> R w2 w3 -> R w1 w3)
    {A B} (m : M A) (k : A -> M B) w :
  R w (m w).2 -> (forall a, steps R (k a)) -> R w (bind m k w).2.
Proof.
  intros Hm Hk. unfold bind.
  destruct (m w) as [[a|e|] w']; cbn in *; [|exact Hm|exact Hm].
  eapply R_trans; [exact Hm|apply Hk].
Qed.

(** One step of a proof of [steps R m]: the rule of the program at the
    head; [leaf] proves [R] from a world to the world one call makes of
    it. *)
Ltac steps_with R_refl R_trans leaf :=
  repeat lazymatch goal with
  | |- steps _ (bind _ _) => apply (steps_bind _ R_trans); [|intros ?]
  | |- steps _ (ret _) => apply (steps_ret _ R_refl)
  | |- steps _ (raise _) => apply (steps_raise _ R_refl)
  | |- steps _ (gets _) => apply (steps_gets _ R_refl)
  | |- steps _ (os_path_exists _) => apply (steps_gets _ R_refl)
  | |- steps _ (try_except _ _ _) =>
      apply (steps_try_except _ R_trans); [|intros ?]
  | |- steps _ (try_finally _ _) => apply (steps_try_finally _ R_trans)
  | |- steps _ (while_true _ _) => apply (steps_while _ R_refl R_trans)
  | |- steps _ (for_each _ _) =>
      apply (steps_for_each _ R_refl R_trans); intros ?
  | |- steps _ (match ?x with _ => _ end) => destruct x
  | |- steps _ (if ?x then _ else _) => destruct x
  | |- steps _ (external _ ?c) =>
      let w := fresh "w" in
      intros w; unfold external; destruct (fault _ c (w_calls w c)); leaf
  | |- steps _ _ => let w := fresh "w" in intros w; leaf
  end.

Ltac unfold_main :=
  unfold main, connect_to_db, create_table_if_not_exists, with_serial,
    main_handler, main_finally, conn_close, cycle, rollover, read_data,
    send_command, process_data, process_line, write_to_database, py_float,
    sleep10, with_open, open_file, file_close, writerow, print, rollback,
    set_today_date, set_csvfile, set_csv_writer, datetime_now_date.

Lemma main_port_steps env fuel :
  steps (trace_gains port_event_ok) (main env fuel).
Proof.
  unfold_main.
  steps_with (trace_gains_refl port_event_ok)
             (trace_gains_trans port_event_ok)
    ltac:(first
      [ apply trace_gains_refl
      | eexists [_]; split;
        [reflexivity
        |constructor; [first [exact I | reflexivity]|constructor]]
      | exists []; split; [now rewrite app_nil_r|constructor] ]).
Qed.

Ltac lost_leaf :=
  first
    [ split;
      [ intros ? ? H; exists []; rewrite app_nil_r; exact H
      | first [ exists []; now rewrite app_nil_r
              | eexists [_]; reflexivity ] ] ].

Lemma insert_append_lost (fs : gmap string (list row)) path r q rows :
  fs !! q = Some rows ->
  exists more,
    <[path := default [] (fs !! path) ++ [r]]> fs !! q = Some (rows ++ more).
Proof.
  intros H. destruct (decide (q = path)) as [->|Hne].
  - rewrite lookup_insert_eq, H. cbn. eauto.
  - rewrite lookup_insert_ne by congruence. exists []. now rewrite app_nil_r.
Qed.

Lemma insert_absent_lost (fs : gmap string (list row)) path x q rows :
  fs !! path = None -> fs !! q = Some rows ->
  exists more, <[path := x]> fs !! q = Some (rows ++ more).
Proof.
  intros Hn H. rewrite lookup_insert_ne by congruence.
  exists []. now rewrite app_nil_r.
Qed.

Ltac lost_steps :=
  steps_with nothing_lost_refl nothing_lost_trans
    ltac:(first
      [ lost_leaf
      | split; [|exists []; now rewrite app_nil_r];
        intros ? ? H; cbn;
        first [ now apply insert_append_lost
              | match goal with
                | |- context [match ?x with _ => _ end] =>
                    destruct x eqn:?
                end;
                first [ exists []; rewrite app_nil_r; exact H
                      | now apply insert_absent_lost ] ] ]).

Lemma file_close_lost h : steps nothing_lost (file_close h).
Proof. unfold file_close. lost_steps. Qed.

Lemma writerow_lost env h r : steps nothing_lost (writerow env h r).
Proof. unfold writerow. lost_steps. Qed.

Lemma open_append_lost env path : steps nothing_lost (open_file env path ModeA).
Proof. unfold open_file. unfold_main. lost_steps. Qed.

Lemma create_block_lost env path (body : nat -> M unit) {B} (k : M B) :
  (forall h, steps nothing_lost (body h)) -> steps nothing_lost k ->
  steps nothing_lost
    (there <- os_path_exists path ;;
     (if negb there then with_open env path ModeW body else ret tt) ;;
     k).
Proof.
  intros Hb Hk w. unfold bind at 1, os_path_exists, gets.
  destruct (bool_decide_reflect (is_Some (w_fs w !! path))) as [Hs|Hs];
    cbn [negb].
  - apply Hk.
  - assert (Hn : w_fs w !! path = None).
    { destruct (w_fs w !! path) eqn:E; [|reflexivity]. exfalso. eauto. }
    apply (steps_bind_at _ nothing_lost_trans); [|intros _; exact Hk].
    unfold with_open.
    apply (steps_bind_at _ nothing_lost_trans).
    + unfold open_file, bind, external, gets, modify, emit, ret.
      destruct (fault env CallOpen (w_calls w CallOpen)); cbn;
        [lost_leaf|].
      split; [|exists []; now rewrite app_nil_r].
      intros q rows H. cbn. now apply insert_absent_lost.
    + intros h. apply (steps_try_finally _ nothing_lost_trans);
        [apply Hb|apply file_close_lost].
Qed.


(** X7.  Whatever happens, the only text [main] ever writes to the port
    is the command that reads the record, ["DATa:RECord:READ?"] followed
    by CR LF: every event a run adds to the trace is either no write to
    the port or the write of that text. *)
Theorem only_the_read_command_is_sent env fuel :
  (forall w, trace_gains port_event_ok w (main env fuel w).2)
  /\ (forall fs data,
        In (EvSerialWrite data) (w_trace (main env fuel (initial_world fs)).2)
        -> data = "DATa:RECord:READ?" +:+ crlf).
Proof.
  split; [apply main_port_steps|].
  intros fs data Hin.
  destruct (main_port_steps env fuel (initial_world fs)) as (evs & E & F).
  rewrite E in Hin. cbn in Hin.
  rewrite List.Forall_forall in F. exact (F _ Hin).
Qed.

(** X9.  However a run of [main] ends, and from whatever state it
    starts, nothing that was logged is lost: every file that was there is
    still there with the rows it had, in order, and maybe more after
    them, and so is the table.  A file is opened for writing only when it
    does not exist. *)
Theorem nothing_logged_is_lost env fuel w :
  nothing_lost w (main env fuel w).2.
Proof.
  revert w. change (steps nothing_lost (main env fuel)).
  unfold main, connect_to_db, create_table_if_not_exists, with_serial,
    main_handler, main_finally, conn_close, cycle, rollover, read_data,
    send_command, process_data, process_line, write_to_database, py_float,
    sleep10, print, rollback, set_today_date, set_csvfile, set_csv_writer,
    datetime_now_date.
  cbv zeta.
  repeat first
    [ apply create_block_lost; [intros ?|]
    | apply writerow_lost
    | apply file_close_lost
    | apply open_append_lost
    | progress unfold with_open
    | lazymatch goal with
      | |- steps _ (bind _ _) =>
          apply (steps_bind _ nothing_lost_trans); [|intros ?]
      | |- steps _ (try_except _ _ _) =>
          apply (steps_try_except _ nothing_lost_trans); [|intros ?]
      | |- steps _ (try_finally _ _) =>
          apply (steps_try_finally _ nothing_lost_trans)
      | |- steps _ (while_true _ _) =>
          apply (steps_while _ nothing_lost_refl nothing_lost_trans)
      | |- steps _ (for_each _ _) =>
          apply (steps_for_each _ nothing_lost_refl nothing_lost_trans);
          intros ?
      | |- steps _ (match ?x with _ => _ end) => destruct x
      | |- steps _ (if ?x then _ else _) => destruct x
      end
    | progress lost_steps ].
Qed.

Lemma line_segments_nonempty s : PyStr.line_segments s <> [].
Proof.
  destruct s as [|c s]; simpl; [discriminate|].
  destruct (PyStr.is_line_boundary c); [discriminate|].
  destruct (PyStr.line_segments s); discriminate.
Qed.

Lemma drop_last_empty_cons a l :
  l <> [] -> PyStr.drop_last_empty (a :: l) = a :: PyStr.drop_last_empty l.
Proof. intros H. destruct l; [congruence|]. destruct a; reflexivity. Qed.

Lemma line_segments_line (a b : string) (sep : string) :
  none_of PyStr.is_line_boundary a = true ->
  (sep = String PyStr.CR (String PyStr.LF "")
   \/ sep = String PyStr.LF ""
   \/ (sep = String PyStr.CR ""
       /\ forall b', b <> String PyStr.LF b')) ->
  PyStr.line_segments (a +:+ sep +:+ b) = a :: PyStr.line_segments b.
Proof.
  intros Ha Hsep. induction a as [|c a IH].
  - change ("" +:+ sep +:+ b) with (sep +:+ b).
    destruct Hsep as [->|[->|[-> Hb]]].
    + reflexivity.
    + reflexivity.
    + change (String PyStr.CR "" +:+ b) with (String PyStr.CR b).
      cbn [PyStr.line_segments].
      change (PyStr.is_line_boundary PyStr.CR) with true. cbv iota.
      rewrite Ascii.eqb_refl.
      destruct b as [|d b]; [reflexivity|].
      destruct (Ascii.eqb d PyStr.LF) eqn:E; [|reflexivity].
      apply Ascii.eqb_eq in E. subst d. now destruct (Hb b).
  - change (String c a +:+ sep +:+ b) with (String c (a +:+ sep +:+ b)).
    cbn [none_of] in Ha. apply andb_prop in Ha as [Hc Ha].
    apply negb_true_iff in Hc.
    cbn [PyStr.line_segments]. rewrite Hc, (IH Ha). reflexivity.
Qed.

Lemma lstrip_all_space s :
  all_of PyStr.isspace s = true -> PyStr.lstrip_by PyStr.isspace s = "".
Proof.
  induction s as [|c s IH]; cbn; [reflexivity|].
  intros H. apply andb_prop in H as [Hc Hs]. rewrite Hc. auto.
Qed.

Lemma strip_all_space s :
  all_of PyStr.isspace s = true -> PyStr.strip s = "".
Proof. intros H. unfold PyStr.strip. now rewrite lstrip_all_space. Qed.

Lemma rstrip_empty_all p s :
  PyStr.rstrip_by p s = "" -> all_of p s = true.
Proof.
  induction s as [|c s IH]; cbn; [reflexivity|].
  destruct (PyStr.rstrip_by p s) eqn:E; [|discriminate].
  destruct (p c); [|discriminate]. intros _. now apply IH.
Qed.

Lemma lstrip_split p s :
  exists a, s = a +:+ PyStr.lstrip_by p s /\ all_of p a = true.
Proof.
  induction s as [|c s (a & E & H)]; cbn.
  - exists "". auto.
  - destruct (p c) eqn:Hc.
    + exists (String c a).
      split; [change (String c s = String c (a +:+ PyStr.lstrip_by p s));
              now rewrite <- E|].
      cbn. now rewrite Hc.
    + exists "". auto.
Qed.

Lemma all_of_app p a b :
  all_of p a = true -> all_of p b = true -> all_of p (a +:+ b) = true.
Proof.
  induction a as [|c a IH]; [auto|].
  change (String c a +:+ b) with (String c (a +:+ b)). cbn [all_of].
  intros H Hb. apply andb_prop in H as [Hc Ha]. rewrite Hc. auto.
Qed.

Lemma strip_empty_iff s :
  PyStr.strip s = "" <-> all_of PyStr.isspace s = true.
Proof.
  split; [|apply strip_all_space].
  unfold PyStr.strip. intros H. apply rstrip_empty_all in H.
  destruct (lstrip_split PyStr.isspace s) as (a & E & Ha).
  rewrite E. now apply all_of_app.
Qed.

Lemma rstrip_by_idem p s :
  PyStr.rstrip_by p (PyStr.rstrip_by p s) = PyStr.rstrip_by p s.
Proof.
  induction s as [|c s IH]; [reflexivity|]. cbn [PyStr.rstrip_by].
  destruct (PyStr.rstrip_by p s) as [|d r] eqn:E.
  - destruct (p c) eqn:Hc; [reflexivity|]. cbn. now rewrite Hc.
  - cbn [PyStr.rstrip_by] in *. rewrite IH. reflexivity.
Qed.

Lemma lstrip_by_head p s :
  PyStr.lstrip_by p s = ""
  \/ exists c r, PyStr.lstrip_by p s = String c r /\ p c = false.
Proof.
  induction s as [|c s IH]; cbn; [auto|].
  destruct (p c) eqn:Hc; [exact IH|]. right. eauto.
Qed.

Lemma strip_idem s : PyStr.strip (PyStr.strip s) = PyStr.strip s.
Proof.
  unfold PyStr.strip.
  destruct (lstrip_by_head PyStr.isspace s) as [->|(c & r & -> & Hc)];
    [reflexivity|].
  assert (H : exists r', PyStr.rstrip_by PyStr.isspace (String c r)
                         = String c r').
  { cbn [PyStr.rstrip_by].
    destruct (PyStr.rstrip_by PyStr.isspace r); rewrite ?Hc; eauto. }
  destruct H as [r' E]. rewrite E. cbn [PyStr.lstrip_by]. rewrite Hc.
  rewrite <- E. apply rstrip_by_idem.
Qed.

(** X10.  [splitlines] treats CR LF, LF and CR alike, so [process_data]
    reads the same readings whichever of them ends the lines of the
    response: a first line [a] with no line boundary in it, then a line
    end, then [b], gives the reading of [a], if it has one, and then the
    readings of [b].  A line end after the last line changes nothing. *)
Theorem lines_end_alike (a b : string) :
  none_of PyStr.is_line_boundary a = true ->
  parse (a +:+ crlf +:+ b) = option_list (parse_line a) ++ parse b
  /\ parse (a +:+ String PyStr.LF "" +:+ b)
     = option_list (parse_line a) ++ parse b
  /\ ((forall b', b <> String PyStr.LF b') ->
      parse (a +:+ String PyStr.CR "" +:+ b)
      = option_list (parse_line a) ++ parse b)
  /\ parse (a +:+ crlf) = parse a.
Proof.
  intros Ha.
  assert (H : forall sep,
    (sep = String PyStr.CR (String PyStr.LF "")
     \/ sep = String PyStr.LF ""
     \/ (sep = String PyStr.CR "" /\ forall b', b <> String PyStr.LF b')) ->
    parse (a +:+ sep +:+ b) = option_list (parse_line a) ++ parse b).
  { intros sep Hsep. unfold parse, PyStr.splitlines.
    rewrite (line_segments_line a b sep Ha Hsep).
    rewrite drop_last_empty_cons by apply line_segments_nonempty.
    apply omap_cons_list. }
  split; [apply H; auto|]. split; [apply H; auto|].
  split; [intros Hb; apply H; auto|].
  unfold parse, PyStr.splitlines.
  replace (a +:+ crlf) with (a +:+ crlf +:+ "")
    by (now rewrite string_app_nil_r).
  rewrite (line_segments_line a "" crlf Ha) by (left; reflexivity).
  assert (Hseg : PyStr.line_segments a = [a]).
  { clear H. induction a as [|c a IH]; [reflexivity|].
    cbn [none_of] in Ha. apply andb_prop in Ha as [Hc Ha].
    apply negb_true_iff in Hc. cbn [PyStr.line_segments].
    now rewrite Hc, (IH Ha). }
  rewrite Hseg. cbn [PyStr.line_segments]. destruct a; reflexivity.
Qed.

(** X11.  What [send_command] returns when the exchange does not fail:
    the reply with the white space at both ends removed, so that
    stripping it again changes nothing; it is the empty text exactly when
    the reply holds white space only.  The command goes out with CR LF
    after it, and neither sink is touched. *)
Theorem response_is_stripped env cmd ser w :
  fault env CallCommand (w_calls w CallCommand) = None ->
  let reply_text := reply env (w_calls w CallCommand) in
  exists response w',
    send_command env cmd ser w = (Returned response, w')
    /\ response = PyStr.strip reply_text
    /\ PyStr.strip response = response
    /\ (response = "" <-> all_of PyStr.isspace reply_text = true)
    /\ w_trace w'
       = w_trace w ++ [EvSerialWrite (cmd +:+ crlf);
                       EvPrint (MsgCommand cmd response)]
    /\ w_fs w' = w_fs w
    /\ w_sensor_data w' = w_sensor_data w.
Proof.
  intros Hf. cbv zeta. unfold send_command. unfold_prog. simpl.
  rewrite Hf. simpl.
  eexists _, _. split; [reflexivity|]. split; [reflexivity|].
  split; [apply strip_idem|]. split; [apply strip_empty_iff|].
  simpl. split; [now rewrite <- app_assoc|]. split; reflexivity.
Qed.

Lemma lines_end_alike_witness :
  parse (scenario_line +:+ crlf +:+ "a,b,c,d,e")
  = option_list (parse_line scenario_line) ++ parse "a,b,c,d,e".
Proof.
  assert (H : none_of PyStr.is_line_boundary scenario_line = true)
    by (vm_compute; reflexivity).
  exact (proj1 (lines_end_alike scenario_line "a,b,c,d,e" H)).
Defined.

Lemma response_is_stripped_witness :
  exists response w',
    send_command calm_env "DATa:RECord:READ?" Ser (initial_world ∅)
    = (Returned response, w')
    /\ PyStr.strip response = response.
Proof.
  destruct (response_is_stripped calm_env "DATa:RECord:READ?" Ser
              (initial_world ∅) eq_refl)
    as (response & w' & E & _ & Hs & _).
  exists response, w'. split; [exact E|exact Hs].
Defined.

Lemma starts_bind {A B} (p : matcher A) (f : A -> matcher B) s a r b r' :
  starts p s a r -> starts (f a) r b r' -> starts (m_bind p f) s b r'.
Proof.
  intros [l H] [l' H']. unfold starts, m_bind. rewrite H. cbn. rewrite H'.
  eexists. reflexivity.
Qed.

Lemma starts_ret {A} (a : A) s : starts (m_ret a) s a s.
Proof. eexists. reflexivity. Qed.

Lemma starts_lit c rest :
  starts (m_lit c) (String c rest) (PyFloat.digit_value c) rest.
Proof.
  unfold starts, m_lit, m_char. rewrite Ascii.eqb_refl. eexists. reflexivity.
Qed.

Ltac enum_pos p :=
  do 6 (try destruct p as [p|p|]); try lia.

Lemma starts_d d rest :
  (1 <= d <= 31)%Z -> starts m_d (pad2 d +:+ rest) d rest.
Proof.
  intros H. destruct d as [|p|p]; try lia.
  enum_pos p; eexists; reflexivity.
Qed.

Lemma starts_m m rest :
  (1 <= m <= 12)%Z -> starts m_m (pad2 m +:+ rest) m rest.
Proof.
  intros H. destruct m as [|p|p]; try lia.
  enum_pos p; eexists; reflexivity.
Qed.

Lemma starts_H h rest :
  (0 <= h <= 23)%Z -> starts m_H (pad2 h +:+ rest) h rest.
Proof.
  intros H. destruct h as [|p|p]; try lia; [eexists; reflexivity|].
  enum_pos p; eexists; reflexivity.
Qed.

Lemma starts_M m rest :
  (0 <= m <= 59)%Z -> starts m_M (pad2 m +:+ rest) m rest.
Proof.
  intros H. destruct m as [|p|p]; try lia; [eexists; reflexivity|].
  enum_pos p; eexists; reflexivity.
Qed.

Lemma starts_S s rest :
  (0 <= s <= 59)%Z -> starts m_S (pad2 s +:+ rest) s rest.
Proof.
  intros H. destruct s as [|p|p]; try lia; [eexists; reflexivity|].
  enum_pos p; eexists; reflexivity.
Qed.

Lemma m_digit_digit_char n rest :
  m_digit (String (digit_char n) rest) = [((n mod 10)%Z, rest)].
Proof.
  unfold digit_char. pose proof (Z.mod_pos_bound n 10 ltac:(lia)) as H.
  destruct (n mod 10)%Z as [|p|p]; try lia; [reflexivity|].
  enum_pos p; reflexivity.
Qed.

Lemma isspace_digit_char n : PyStr.isspace (digit_char n) = false.
Proof.
  unfold digit_char. pose proof (Z.mod_pos_bound n 10 ltac:(lia)) as H.
  destruct (n mod 10)%Z as [|p|p]; try lia; [reflexivity|].
  enum_pos p; reflexivity.
Qed.

Lemma m_two_digit_chars a b rest :
  m_two m_digit m_digit (String (digit_char a) (String (digit_char b) rest))
  = [((10 * (a mod 10) + b mod 10)%Z, rest)].
Proof.
  unfold m_two, m_bind, m_ret. rewrite m_digit_digit_char.
  cbn [flat_map app]. rewrite m_digit_digit_char. reflexivity.
Qed.

Lemma starts_Y y rest :
  (0 <= y <= 9999)%Z -> starts m_Y (pad4 y +:+ rest) y rest.
Proof.
  intros H. unfold starts, m_Y, pad4, pad2.
  change (String ?a (String ?b (String ?c (String ?d ""))) +:+ rest)
    with (String a (String b (String c (String d rest)))).
  unfold m_bind at 1. rewrite m_two_digit_chars. cbn [flat_map app].
  unfold m_bind at 1. rewrite m_two_digit_chars. cbn [flat_map app].
  unfold m_ret. exists []. cbn [app]. do 2 f_equal.
  pose proof (Z.div_mod y 10 ltac:(lia)) as H1.
  pose proof (Z.div_mod (y / 10) 10 ltac:(lia)) as H2.
  pose proof (Z.div_mod (y / 100) 10 ltac:(lia)) as H3.
  rewrite Z.div_div in H2 by lia. change (10 * 10)%Z with 100%Z in H2.
  rewrite Z.div_div in H3 by lia. change (100 * 10)%Z with 1000%Z in H3.
  assert (H4 : (0 <= y / 1000 < 10)%Z)
    by (split; [apply Z.div_pos; lia|apply Z.div_lt_upper_bound; lia]).
  rewrite (Z.mod_small (y / 1000) 10) by lia. lia.
Qed.

Lemma starts_spaces n rest :
  starts m_spaces (String " " (String (digit_char n) rest)) 0%Z
    (String (digit_char n) rest).
Proof.
  unfold starts, m_spaces. cbn [m_spaces_rest].
  change (PyStr.isspace " ") with true. cbv iota.
  rewrite isspace_digit_char. eexists. reflexivity.
Qed.



Lemma starts_S_leap s rest :
  (0 <= s <= 61)%Z -> starts m_S (pad2 s +:+ rest) s rest.
Proof.
  intros H. destruct s as [|p|p]; try lia; [eexists; reflexivity|].
  enum_pos p; eexists; reflexivity.
Qed.

Lemma strptime_stamp_text y m d hh mi ss :
  (0 <= y <= 9999)%Z -> (1 <= m <= 12)%Z -> (1 <= d <= 31)%Z ->
  (0 <= hh <= 23)%Z -> (0 <= mi <= 59)%Z -> (0 <= ss <= 61)%Z ->
  strptime (stamp_text (Datetime y m d hh mi ss))
  = datetime_new y m d hh mi ss.
Proof.
  intros Hy Hm Hd Hh Hmi Hs.
  assert (Hst : starts m_format (stamp_text (Datetime y m d hh mi ss))
                  (y, m, d, hh, mi, ss) "").
  { unfold m_format, stamp_text. cbn [year month day hour minute second].
    eapply starts_bind; [apply starts_d; lia|].
    change ("/" +:+ ?r) with (String "/" r).
    eapply starts_bind; [apply starts_lit|].
    eapply starts_bind; [apply starts_m; lia|].
    eapply starts_bind; [apply starts_lit|].
    eapply starts_bind; [apply starts_Y; lia|].
    change (" " +:+ ?r) with (String " " r).
    eapply starts_bind; [unfold pad2 at 1; cbn [append]; apply starts_spaces|].
    change (String (digit_char (hh / 10)) (String (digit_char hh) ?r))
      with (pad2 hh +:+ r).
    eapply starts_bind; [apply starts_H; lia|].
    change (":" +:+ ?r) with (String ":" r).
    eapply starts_bind; [apply starts_lit|].
    eapply starts_bind; [apply starts_M; lia|].
    eapply starts_bind; [apply starts_lit|].
    rewrite <- (string_app_nil_r (pad2 ss)).
    eapply starts_bind; [apply starts_S_leap; lia|].
    apply starts_ret. }
  destruct Hst as [l Hst]. unfold strptime. now rewrite Hst.
Qed.

(** X13.  A field 0 that has the form DD/MM/YYYY HH:MM:SS but names no
    real date and time (the 29th of February of a common year, second 60)
    makes [strptime] raise [ValueError]: the line is skipped, the failure
    is printed with the text of the field, and no sink is called. *)
Theorem impossible_stamps_are_skipped (t : datetime) :
  (0 <= year t <= 9999)%Z -> (1 <= month t <= 12)%Z ->
  (1 <= day t <= 31)%Z -> (0 <= hour t <= 23)%Z ->
  (0 <= minute t <= 59)%Z -> (0 <= second t <= 61)%Z ->
  valid_datetime t = false ->
  strptime (stamp_text t) = None
  /\ (forall line,
        (8 <= length (PyStr.split "," line))%nat ->
        PyStr.strip (item (PyStr.split "," line) 0) = stamp_text t ->
        parse_line line = None
        /\ skip_message line = MsgTimestampError (stamp_text t)
        /\ forall env conn cw w,
             process_line env conn cw line w
             = (Returned tt,
                with_trace (w_trace w ++
                  [EvPrint (MsgProcessingLine line);
                   EvPrint (MsgTimestampError (stamp_text t))]) w)).
Proof.
  destruct t as [y m d hh mi ss]. cbn [year month day hour minute second].
  intros Hy Hm Hd Hh Hmi Hs V.
  assert (Hp : strptime (stamp_text (Datetime y m d hh mi ss)) = None).
  { rewrite strptime_stamp_text by assumption. unfold datetime_new.
    unfold valid_datetime in V. cbn in V. now rewrite V. }
  split; [exact Hp|]. intros line Hl H0.
  assert (Hpl : parse_line line = None).
  { unfold parse_line. cbv zeta.
    replace (8 <=? length (PyStr.split "," line))%nat with true
      by (symmetry; apply Nat.leb_le; lia).
    now rewrite H0, Hp. }
  assert (Hsk : skip_message line
                = MsgTimestampError (stamp_text (Datetime y m d hh mi ss))).
  { unfold skip_message. cbv zeta.
    replace (8 <=? length (PyStr.split "," line))%nat with true
      by (symmetry; apply Nat.leb_le; lia).
    now rewrite H0, Hp. }
  split; [exact Hpl|]. split; [exact Hsk|].
  intros env conn cw w. rewrite process_line_unfold, Hpl, Hsk.
  unfold_prog. simpl. now rewrite <- app_assoc.
Qed.

Lemma impossible_stamps_are_skipped_witness :
  stamp_text (Datetime 2023 2 29 10 0 60) = "29/02/2023 10:00:60"
  /\ strptime "29/02/2023 10:00:60" = None.
Proof.
  split; [reflexivity|].
  apply (impossible_stamps_are_skipped (Datetime 2023 2 29 10 0 60));
    cbn; first [lia | reflexivity].
Defined.

(** X14.  A line of at least eight fields in which one of the fields 1,
    3, 5 and 7 is empty, or holds nothing but copies of its unit, gives no
    reading: [float] is handed the empty text and raises [ValueError], or
    the timestamp has failed before. *)
Theorem bare_unit_field_is_skipped (line : string) (k : nat) :
  (8 <= length (PyStr.split "," line))%nat ->
  item (PyStr.split "," line) 1 = PyStr.repeat_char "C" k
  \/ item (PyStr.split "," line) 3 = PyStr.repeat_char "%" k
  \/ item (PyStr.split "," line) 5 = PyStr.repeat_char "C" k
  \/ item (PyStr.split "," line) 7 = PyStr.repeat_char "%" k ->
  parse_line line = None
  /\ (skip_message line = MsgFloatError
      \/ exists s, skip_message line = MsgTimestampError s).
Proof.
  intros Hl H.
  assert (Hnum : forall u, PyStr.isspace u = false ->
    PyFloat.float_of_string
      (numeric_text (String u "") (PyStr.repeat_char u k)) = None).
  { intros u Hu.
    replace (PyStr.repeat_char u k) with ("" +:+ PyStr.repeat_char u k)
      by reflexivity.
    rewrite numeric_text_repeat by (exact Hu || reflexivity). reflexivity. }
  split.
  - unfold parse_line. cbv zeta.
    destruct (8 <=? length (PyStr.split "," line))%nat; [|reflexivity].
    destruct (strptime _); [|reflexivity].
    destruct H as [H|[H|[H|H]]]; rewrite H, Hnum by reflexivity;
      repeat match goal with
             | |- context [match ?x with _ => _ end] =>
                 destruct x; try reflexivity
             end.
    all: reflexivity.
  - unfold skip_message. cbv zeta.
    replace (8 <=? length (PyStr.split "," line))%nat with true
      by (symmetry; apply Nat.leb_le; lia).
    destruct (strptime _); eauto.
Qed.

Lemma bare_unit_field_is_skipped_witness :
  parse_line "01/01/2024 10:00:00,21.5C,x,%%,x,22.0C,x,46.0%" = None.
Proof.
  apply (bare_unit_field_is_skipped
           "01/01/2024 10:00:00,21.5C,x,%%,x,22.0C,x,46.0%" 2).
  - vm_compute. lia.
  - right. left. reflexivity.
Defined.
